(** * Training, greedy decoding and validation of the translation transformer

    A shallow embedding of [models/train.py]: the greedy decoder, the
    validation runner, the data loaders of [get_ds] and the epoch loop of
    [train_model] with its checkpoints, followed by the properties of the
    natural-language specification that concern them.

    Tensors are nested lists.  Token ids are Python integers ([Z]); logits
    are finite floating-point numbers, each of which is a rational ([Q]), so
    that comparisons are exact; the loss, which takes logarithms, is stated
    over the reals.  The state that the script mutates (model parameters,
    optimizer buffers, gradient and training flags, files, console) is one
    record threaded through a small state-and-exception monad. *)

From Stdlib Require Import ZArith QArith Reals String List Lia Lra.
From Stdlib Require Import Ascii Decimal DecimalString DecimalPos DecimalZ.
From stdpp Require Import gmap strings list.
Import ListNotations.

Local Open Scope string_scope.
Local Open Scope list_scope.
Local Open Scope Z_scope.

(** ** Tokenizers *)

Module Tokenizers.

(** A word-level tokenizer: the id of a token is its position in the
    vocabulary, the special tokens are remembered so that decoding can skip
    them. *)
Record Tokenizer := mkTokenizer {
  vocab : list string;
  special_tokens : list string
}.

Fixpoint index_from (i : Z) (token : string) (l : list string) : option Z :=
  match l with
  | [] => None
  | t :: rest => if String.eqb t token then Some i else index_from (i + 1) token rest
  end.

(** [tokenizer.token_to_id(token)]: [None] when the token is unknown. *)
Definition token_to_id (t : Tokenizer) (token : string) : option Z :=
  index_from 0 token (vocab t).

Definition id_to_token (t : Tokenizer) (i : Z) : option string :=
  if i <? 0 then None else vocab t !! Z.to_nat i.

Definition get_vocab_size (t : Tokenizer) : Z := Z.of_nat (length (vocab t)).

Definition is_special (t : Tokenizer) (token : string) : bool :=
  existsb (String.eqb token) (special_tokens t).

Fixpoint join (sep : string) (l : list string) : string :=
  match l with
  | [] => ""
  | [s] => s
  | s :: rest => (s ++ sep ++ join sep rest)%string
  end.

(** [tokenizer.decode(ids)]: ids without a token and special tokens are
    dropped, the remaining tokens are joined by blanks. *)
Definition decode (t : Tokenizer) (ids : list Z) : string :=
  join " " (filter (fun tok => negb (is_special t tok)) (omap (id_to_token t) ids)).

(** The trainer of [get_or_build_tokenizer], lines 112-115: the special
    tokens come first, in the order given, and the corpus words chosen by
    the word-level trainer follow. *)
Definition trainer_special_tokens : list string := ["[UNK]"; "[PAD]"; "[SOS]"; "[EOS]"].

Definition train_from_iterator (words : list string) : Tokenizer :=
  {| vocab := trainer_special_tokens ++ words; special_tokens := trainer_special_tokens |}.

End Tokenizers.
Export Tokenizers.

(** ** Tensor operations *)

Module Torch.

Definition Tensor1 := list Q.
Definition Tensor2 := list Tensor1.
Definition Tensor3 := list Tensor2.

(** Scan for [torch.max]: keeps the first position of the greatest value. *)
Fixpoint max_scan (best : Q) (best_i : Z) (i : Z) (l : Tensor1) : Q * Z :=
  match l with
  | [] => (best, best_i)
  | x :: rest =>
      if Qle_bool x best then max_scan best best_i (i + 1) rest
      else max_scan x i (i + 1) rest
  end.

(** [torch.max(prob, dim=-1)] on one row: the greatest value and the index
    where it first occurs; there is no result on an empty row. *)
Definition torch_max (prob : Tensor1) : option (Q * Z) :=
  match prob with
  | [] => None
  | x :: rest => Some (max_scan x 0 1 rest)
  end.

(** Modelled from the spec: [causal_mask] of [bilingual_dataset.py], whose
    source file is absent.  The spec describes it as the L x L boolean matrix in which position (i, j) is allowed iff j <= i. *)
Definition causal_mask (size : nat) : list (list bool) :=
  map (fun i => map (fun j => (j <=? i)%nat) (seq 0 size)) (seq 0 size).

(** Entry (i, j) of a boolean matrix, when it exists. *)
Definition entry (m : list (list bool)) (i j : nat) : option bool :=
  row ← m !! i; row !! j.

End Torch.
Export Torch.

(** ** The loss of the training loop *)

Module Loss.

(** What [loss_fn(input, target)] yields: an error (shape mismatch, a class
    index out of range, no ignore index), the not-a-number of an empty
    mean, or a real number. *)
Inductive loss_value :=
  | LossError
  | LossNaN
  | LossVal (r : R).

Definition sum_R (l : list R) : R := fold_right Rplus 0%R l.

Definition log_softmax (x : list R) : list R :=
  let lse := ln (sum_R (map exp x)) in
  map (fun v => (v - lse)%R) x.

(** Negative log-likelihood of one row against its class index. *)
Definition nll_term (row : Tensor1) (target : Z) : option R :=
  if target <? 0 then None
  else (fun v => (- v)%R) <$> (log_softmax (map Q2R row) !! Z.to_nat target).

(** The label-smoothing term of one row: minus the sum of its
    log-probabilities. *)
Definition smooth_term (row : Tensor1) : R :=
  (- sum_R (log_softmax (map Q2R row)))%R.

(** The positions that enter the reduction: those whose target differs from
    [ignore_index]. *)
Definition kept (ignore_index : Z) (input : Tensor2) (target : list Z)
  : list (Tensor1 * Z) :=
  List.filter (fun p => negb (snd p =? ignore_index)) (zip input target).

(** [nn.CrossEntropyLoss(ignore_index, label_smoothing)] with the default
    mean reduction, on an (N, C) input and N targets:
    (1 - eps) * mean(nll) + eps / C * mean(smooth), the means running over
    the kept positions only. *)
Definition CrossEntropyLoss (ignore_index : option Z) (label_smoothing : R)
    (n_classes : Z) (input : Tensor2) (target : list Z) : loss_value :=
  match ignore_index with
  | None => LossError
  | Some ignore_index =>
      if negb (length input =? length target)%nat then LossError
      else
        let ks := kept ignore_index input target in
        match mapM (fun p => nll_term (fst p) (snd p)) ks with
        | None => LossError
        | Some nlls =>
            match ks with
            | [] => LossNaN
            | _ =>
                let n := INR (length ks) in
                let nll_mean := (sum_R nlls / n)%R in
                let smooth_mean := (sum_R (map (fun p => smooth_term (fst p)) ks) / n)%R in
                LossVal ((1 - label_smoothing) * nll_mean
                         + label_smoothing / IZR n_classes * smooth_mean)%R
            end
        end
  end.

(** Rows of width [width] cut from a flat sequence, first row first. *)
Fixpoint rows_of (width : nat) (acc : Tensor1) (l : Tensor1) : Tensor2 :=
  match l with
  | [] => []
  | x :: rest =>
      let acc' := acc ++ [x] in
      if (length acc' =? width)%nat then acc' :: rows_of width [] rest
      else rows_of width acc' rest
  end.

(** [t.view(-1, width)] on a three-dimensional tensor: fails when the number
    of elements is not a multiple of the width. *)
Definition view_rows (width : Z) (t : Tensor3) : option Tensor2 :=
  let flat := concat (concat t) in
  if (0 <? width) && (Z.of_nat (length flat) mod width =? 0)
  then Some (rows_of (Z.to_nat width) [] flat)
  else None.

(** [label.view(-1)]. *)
Definition view_flat (label : list (list Z)) : list Z := concat label.

(** The input with the rows at the positions labelled [pad] replaced by the
    rows of [other]; everything else is left as it is. *)
Fixpoint overwrite_where (pad : Z) (target : list Z) (input other : Tensor2)
  : Tensor2 :=
  match target, input, other with
  | t :: ts, x :: xs, y :: ys =>
      (if t =? pad then y else x) :: overwrite_where pad ts xs ys
  | _, xs, _ => xs
  end.

End Loss.
Export Loss.

(** ** Examples, batches and data loaders *)

Module Data.

(** One encoded sentence pair, as [BilingualDataset] yields it. *)
Record Example := mkExample {
  ex_encoder_input : list Z;
  ex_decoder_input : list Z;
  ex_encoder_mask : list bool;
  ex_decoder_mask : list (list bool);
  ex_label : list Z;
  ex_src_text : string;
  ex_tgt_text : string
}.

(** A collated batch: every field is stacked along a new leading
    dimension. *)
Record Batch := mkBatch {
  encoder_input : list (list Z);
  decoder_input : list (list Z);
  encoder_mask : list (list bool);
  decoder_mask : list (list (list bool));
  label : list (list Z);
  src_text : list string;
  tgt_text : list string
}.

Definition collate (examples : list Example) : Batch :=
  {| encoder_input := map ex_encoder_input examples;
     decoder_input := map ex_decoder_input examples;
     encoder_mask := map ex_encoder_mask examples;
     decoder_mask := map ex_decoder_mask examples;
     label := map ex_label examples;
     src_text := map ex_src_text examples;
     tgt_text := map ex_tgt_text examples |}.

(** Consecutive groups of [n] elements, the last one possibly shorter. *)
Fixpoint chunks {A} (fuel n : nat) (l : list A) : list (list A) :=
  match fuel with
  | O => []
  | S fuel =>
      match l with
      | [] => []
      | _ => take n l :: chunks fuel n (drop n l)
      end
  end.

(** [DataLoader(dataset, batch_size=..., shuffle=True)]. *)
Record DataLoader := mkDataLoader {
  dataset : list Example;
  loader_batch_size : nat
}.

(** The batches of one pass over the loader, the examples taken in the
    order [order] (a list of positions in the dataset). *)
Definition batches (dl : DataLoader) (order : list nat) : list Batch :=
  let examples := omap (fun i => dataset dl !! i) order in
  map collate (chunks (length examples) (loader_batch_size dl) examples).

End Data.
Export Data.

(** ** The mutable state of a run and the monad that threads it *)

Module Runtime.

(** [model.state_dict()], [optimizer.state_dict()] and the gradients: a
    mapping from names to (flattened) tensors. *)
Abbreviation StateDict := (gmap string (list Q)).

(** The object written by [torch.save] at the end of an epoch, lines
    234-239. *)
Record Checkpoint := mkCheckpoint {
  epoch : Z;
  model_state_dict : StateDict;
  optimizer_state_dict : StateDict;
  global_step : Z
}.

(** The files that the script reads and writes: saved tokenizers,
    checkpoints, and the event file into which the metric writer puts its
    scalars (tag, value, step). *)
Inductive File :=
  | TokenizerFile (t : Tokenizer)
  | CheckpointFile (c : Checkpoint)
  | EventFile (scalars : list (string * loss_value * Z)).

Inductive exn :=
  | TypeError
  | IndexError
  | KeyError
  | ValueError
  | RuntimeError
  | AssertionError
  | FileNotFoundError
  | UnpicklingError.

(** What a run does to the outside, in the order in which it does it.  The
    model calls carry the state of the gradient switch at the time of the
    call. *)
Inductive Event :=
  | EncodeCall (grad : bool) (source : list (list Z)) (source_mask : list (list bool))
  | DecodeCall (grad : bool) (encoder_output : Tensor3) (source_mask : list (list bool))
      (target : list (list Z)) (target_mask : list (list (list bool)))
  | ProjectionCall (grad : bool) (x : Tensor2)
  | NextBatch
  | Stdout (s : string)
  | StdoutTensor (prefix : string) (t : list Z)
  | ProgressWrite (s : string)
  | ProgressPostfix (loss : loss_value)
  | AddScalar (tag : string) (value : loss_value) (step : Z)
  | Backward
  | OptimizerStep
  | ZeroGrad
  | TorchLoad (path : string)
  | TorchSave (path : string) (c : Checkpoint).

Record World := mkWorld {
  params : StateDict;
  optimizer : StateDict;
  grads : option StateDict;
  training : bool;
  grad_enabled : bool;
  files : gmap string File;
  rng : nat;
  log : list Event
}.

Definition set_params (f : StateDict → StateDict) (w : World) : World :=
  mkWorld (f (params w)) (optimizer w) (grads w) (training w) (grad_enabled w)
    (files w) (rng w) (log w).
Definition set_optimizer (f : StateDict → StateDict) (w : World) : World :=
  mkWorld (params w) (f (optimizer w)) (grads w) (training w) (grad_enabled w)
    (files w) (rng w) (log w).
Definition set_grads (g : option StateDict) (w : World) : World :=
  mkWorld (params w) (optimizer w) g (training w) (grad_enabled w)
    (files w) (rng w) (log w).
Definition set_training (b : bool) (w : World) : World :=
  mkWorld (params w) (optimizer w) (grads w) b (grad_enabled w)
    (files w) (rng w) (log w).
Definition set_grad_enabled (b : bool) (w : World) : World :=
  mkWorld (params w) (optimizer w) (grads w) (training w) b
    (files w) (rng w) (log w).
Definition set_files (f : gmap string File → gmap string File) (w : World) : World :=
  mkWorld (params w) (optimizer w) (grads w) (training w) (grad_enabled w)
    (f (files w)) (rng w) (log w).
Definition set_rng (n : nat) (w : World) : World :=
  mkWorld (params w) (optimizer w) (grads w) (training w) (grad_enabled w)
    (files w) n (log w).
Definition set_log (f : list Event → list Event) (w : World) : World :=
  mkWorld (params w) (optimizer w) (grads w) (training w) (grad_enabled w)
    (files w) (rng w) (f (log w)).

(** The result of running a piece of the script from a given state: it
    returns, it raises, or the step budget of the model is used up before
    it does either. *)
Inductive Res (A : Type) :=
  | Ok (a : A) (w : World)
  | Raise (e : exn) (w : World)
  | Timeout.
Arguments Ok {A} a w.
Arguments Raise {A} e w.
Arguments Timeout {A}.

Definition M (A : Type) : Type := World → Res A.

#[export] Instance M_ret : MRet M := λ A a w, Ok a w.
#[export] Instance M_bind : MBind M := λ A B f m w,
  match m w with
  | Ok a w' => f a w'
  | Raise e w' => Raise e w'
  | Timeout => Timeout
  end.

Definition raise {A} (e : exn) : M A := λ w, Raise e w.
Definition out_of_steps {A} : M A := λ _, Timeout.
Definition get : M World := λ w, Ok w w.
Definition modify (f : World → World) : M unit := λ w, Ok () (f w).
Definition emit (e : Event) : M unit := modify (set_log (λ l, l ++ [e])).

(** [with torch.no_grad(): body]: the switch is turned off for the body and
    put back on every way out of it. *)
Definition no_grad {A} (body : M A) : M A := λ w,
  let prev := grad_enabled w in
  match body (set_grad_enabled false w) with
  | Ok a w' => Ok a (set_grad_enabled prev w')
  | Raise e w' => Raise e (set_grad_enabled prev w')
  | Timeout => Timeout
  end.

(** [assert cond]. *)
Definition assert (cond : bool) : M unit :=
  if cond then mret () else raise AssertionError.

(** [l[0]]. *)
Definition item0 {A} (l : list A) : M A :=
  match l with
  | x :: _ => mret x
  | [] => raise IndexError
  end.

(** The three entry points of the model built by [build_transformer].  By
    the model contract a forward pass is deterministic and has no side
    effect: it is a function of the parameters and of its inputs. *)
Record Model := mkModel {
  encode : StateDict → list (list Z) → list (list bool) → Tensor3;
  decode : StateDict → Tensor3 → list (list bool) → list (list Z)
           → list (list (list bool)) → Tensor3;
  projection : StateDict → Tensor1 → Tensor1
}.

Definition call_encode (model : Model) source source_mask : M Tensor3 :=
  w ← get;
  _ ← emit (EncodeCall (grad_enabled w) source source_mask);
  mret (encode model (params w) source source_mask).

Definition call_decode (model : Model) encoder_output source_mask target target_mask
  : M Tensor3 :=
  w ← get;
  _ ← emit (DecodeCall (grad_enabled w) encoder_output source_mask target target_mask);
  mret (decode model (params w) encoder_output source_mask target target_mask).

Definition call_projection (model : Model) (x : Tensor2) : M Tensor2 :=
  w ← get;
  _ ← emit (ProjectionCall (grad_enabled w) x);
  mret (map (projection model (params w)) x).

End Runtime.
Export Runtime.

(** ** Greedy decoding *)

Module Decoding.

(** The two ways out of the loop of [greedy_decode]: the length test of
    line 30 and the end-of-sentence test of line 44. *)
Inductive exit := LengthBreak | EosBreak.

(** [torch.empty(1,1).fill_(idx)]: filling with [None] is a type error. *)
Definition fill_ (idx : option Z) : M Z :=
  match idx with
  | Some i => mret i
  | None => raise TypeError
  end.

(** [out[:, -1]]: the last position of every sequence of the batch. *)
Definition last_position (out : Tensor3) : M Tensor2 :=
  match mapM (λ rows : Tensor2, last rows) out with
  | Some x => mret x
  | None => raise IndexError
  end.

(** [_, next_word = torch.max(prob, dim=-1)] followed by [next_word.item()],
    which needs a tensor of exactly one element. *)
Definition next_word_item (prob : Tensor2) : M Z :=
  match prob with
  | [row] =>
      match torch_max row with
      | Some (_, i) => mret i
      | None => raise IndexError
      end
  | _ => raise RuntimeError
  end.

(** [next_word == eos_idx]; a tensor never equals [None]. *)
Definition is_eos (eos_idx : option Z) (next_word : Z) : bool :=
  match eos_idx with
  | Some e => next_word =? e
  | None => false
  end.

(** The [while True] loop of lines 29-45 on the single row of
    [decoder_input], whose shape is (1, n).  [fuel] bounds the number of
    times the head of the loop is reached. *)
Fixpoint greedy_loop (fuel : nat) (model : Model) (encoder_output : Tensor3)
    (source_mask : list (list bool)) (eos_idx : option Z) (max_len : Z)
    (decoder_input : list Z) : M (list Z * exit) :=
  match fuel with
  | O => out_of_steps
  | S fuel =>
      if Z.of_nat (length decoder_input) =? max_len then
        mret (decoder_input, LengthBreak)
      else
        let decoder_mask := [causal_mask (length decoder_input)] in
        out ← call_decode model encoder_output source_mask [decoder_input] decoder_mask;
        last ← last_position out;
        prob ← call_projection model last;
        next_word ← next_word_item prob;
        let decoder_input := decoder_input ++ [next_word] in
        if is_eos eos_idx next_word then mret (decoder_input, EosBreak)
        else greedy_loop fuel model encoder_output source_mask eos_idx max_len
               decoder_input
  end.

(** Lines 21-47, up to the return: the sequence and the way out of the
    loop. *)
Definition greedy_run (fuel : nat) (model : Model) (source : list (list Z))
    (source_mask : list (list bool)) (tokenizer_src tokenizer_tgt : Tokenizer)
    (max_len : Z) : M (list Z * exit) :=
  let sos_idx := token_to_id tokenizer_tgt "[SOS]" in
  let eos_idx := token_to_id tokenizer_tgt "[EOS]" in
  encoder_output ← call_encode model source source_mask;
  decoder_input ← fill_ sos_idx;
  greedy_loop fuel model encoder_output source_mask eos_idx max_len [decoder_input].

Definition greedy_decode (fuel : nat) (model : Model) (source : list (list Z))
    (source_mask : list (list bool)) (tokenizer_src tokenizer_tgt : Tokenizer)
    (max_len : Z) : M (list Z) :=
  r ← greedy_run fuel model source source_mask tokenizer_src tokenizer_tgt max_len;
  mret (fst r).

(** The variant the spec compares with: the encoder state is computed again
    at every step instead of once before the loop. *)
Fixpoint greedy_loop_recompute (fuel : nat) (model : Model) (source : list (list Z))
    (source_mask : list (list bool)) (eos_idx : option Z) (max_len : Z)
    (decoder_input : list Z) : M (list Z * exit) :=
  match fuel with
  | O => out_of_steps
  | S fuel =>
      if Z.of_nat (length decoder_input) =? max_len then
        mret (decoder_input, LengthBreak)
      else
        let decoder_mask := [causal_mask (length decoder_input)] in
        encoder_output ← call_encode model source source_mask;
        out ← call_decode model encoder_output source_mask [decoder_input] decoder_mask;
        last ← last_position out;
        prob ← call_projection model last;
        next_word ← next_word_item prob;
        let decoder_input := decoder_input ++ [next_word] in
        if is_eos eos_idx next_word then mret (decoder_input, EosBreak)
        else greedy_loop_recompute fuel model source source_mask eos_idx max_len
               decoder_input
  end.

Definition greedy_decode_recompute (fuel : nat) (model : Model)
    (source : list (list Z)) (source_mask : list (list bool))
    (tokenizer_src tokenizer_tgt : Tokenizer) (max_len : Z) : M (list Z) :=
  let sos_idx := token_to_id tokenizer_tgt "[SOS]" in
  let eos_idx := token_to_id tokenizer_tgt "[EOS]" in
  decoder_input ← fill_ sos_idx;
  r ← greedy_loop_recompute fuel model source source_mask eos_idx max_len [decoder_input];
  mret (fst r).

End Decoding.
Export Decoding.

(** ** The validation runner *)

Module Validation.

Fixpoint repeat_string (s : string) (n : nat) : string :=
  match n with
  | O => ""
  | S n => (s ++ repeat_string s n)%string
  end.

(** Size of the control window, line 59. *)
Definition console_width : nat := 80.

(** The four lines handed to [print_msg] for one example, lines 89-92. *)
Definition report (source_text tgt_text model_out_text : string) : list string :=
  [ repeat_string "-" console_width;
    ("Source Text: " ++ source_text)%string;
    ("Target Text: " ++ tgt_text)%string;
    ("Predicted Text: " ++ model_out_text)%string ].

(** The body of the loop of [run_validation] for one batch, lines 64-92,
    after [count] has been incremented. *)
Definition validate_batch (fuel : nat) (model : Model) (batch : Batch)
    (tokenizer_src tokenizer_tgt : Tokenizer) (max_len : Z)
    (print_msg : string → M unit) : M unit :=
  let encoder_input := encoder_input batch in
  let encoder_mask := encoder_mask batch in
  _ ← assert (length encoder_input =? 1)%nat;
  model_out ← greedy_decode fuel model encoder_input encoder_mask
                tokenizer_src tokenizer_tgt max_len;
  _ ← emit (StdoutTensor "Model Out: " model_out);
  source_text ← item0 (src_text batch);
  tgt_text ← item0 (tgt_text batch);
  let model_out_text := Tokenizers.decode tokenizer_tgt model_out in
  _ ← emit (Stdout ("Decoded Text: " ++ model_out_text)%string);
  _ ← print_msg (repeat_string "-" console_width);
  _ ← print_msg ("Source Text: " ++ source_text)%string;
  _ ← print_msg ("Target Text: " ++ tgt_text)%string;
  print_msg ("Predicted Text: " ++ model_out_text)%string.

(** [for batch in validation_ds: ...], lines 62-95.  [validation_ds] lists
    the batches that one pass over the loader yields; [NextBatch] marks the
    moment a batch is taken from it. *)
Fixpoint validation_loop (fuel : nat) (model : Model) (validation_ds : list Batch)
    (tokenizer_src tokenizer_tgt : Tokenizer) (max_len : Z)
    (print_msg : string → M unit) (num_examples : Z) (count : Z) : M unit :=
  match validation_ds with
  | [] => mret ()
  | batch :: rest =>
      _ ← emit NextBatch;
      let count := count + 1 in
      _ ← validate_batch fuel model batch tokenizer_src tokenizer_tgt max_len print_msg;
      if count =? num_examples then mret ()
      else validation_loop fuel model rest tokenizer_src tokenizer_tgt max_len
             print_msg num_examples count
  end.

Definition default_num_examples : Z := 2.

Definition run_validation (fuel : nat) (model : Model) (validation_ds : list Batch)
    (tokenizer_src tokenizer_tgt : Tokenizer) (max_len : Z)
    (print_msg : string → M unit) (global_state : Z) (num_examples : Z) : M unit :=
  _ ← modify (set_training false);
  let count := 0 in
  no_grad (validation_loop fuel model validation_ds tokenizer_src tokenizer_tgt
             max_len print_msg num_examples count).

(** The loop without its early exit: every batch of the list is taken and
    validated in turn. *)
Fixpoint validate_all (fuel : nat) (model : Model) (bs : list Batch)
    (tokenizer_src tokenizer_tgt : Tokenizer) (max_len : Z)
    (print_msg : string → M unit) : M unit :=
  match bs with
  | [] => mret ()
  | batch :: rest =>
      _ ← emit NextBatch;
      _ ← validate_batch fuel model batch tokenizer_src tokenizer_tgt max_len print_msg;
      validate_all fuel model rest tokenizer_src tokenizer_tgt max_len print_msg
  end.

End Validation.
Export Validation.

(** ** Configuration and checkpoint paths *)

Module Paths.

Record Config := mkConfig {
  batch_size : Z;
  num_epochs : Z;
  lr : Q;
  seq_len : Z;
  d_model : Z;
  datasource : string;
  lang_src : string;
  lang_tgt : string;
  model_folder : string;
  model_basename : string;
  preload : option string;
  tokenizer_file : string;
  experiment_name : string
}.

(** [f"{n:02d}"]: decimal digits, a minus sign in front of a negative
    number, a zero in front when that would take less than two
    characters. *)
Definition format_02d (n : Z) : string :=
  let s := NilZero.string_of_int (Z.to_int n) in
  if (String.length s <? 2)%nat then ("0" ++ s)%string else s.

(** Modelled from the spec: [get_weights_file_path] of [config.py], whose
    source file is absent.  The spec gives the path pattern
    [{datasource}_{model_folder}/{model_basename}{epoch:02d}.{ext}]; the
    caller formats the epoch (line 233) and [ext] is the extension. *)
Definition get_weights_file_path (ext : string) (config : Config) (epoch : string)
  : string :=
  (datasource config ++ "_" ++ model_folder config ++ "/"
   ++ model_basename config ++ epoch ++ "." ++ ext)%string.

(** The greatest of a list of strings in lexicographic order. *)
Fixpoint greatest (l : list string) : option string :=
  match l with
  | [] => None
  | s :: rest =>
      match greatest rest with
      | None => Some s
      | Some m => if String.ltb m s then Some s else Some m
      end
  end.

(** Modelled from the spec: [latest_weights_file_path] of [config.py], whose
    source file is absent.  By the spec it resolves to the checkpoint with
    the greatest epoch suffix found under the model folder, and to nothing
    when there is none. *)
Definition latest_weights_file_path (config : Config) (files : gmap string File)
  : option string :=
  let stem := (datasource config ++ "_" ++ model_folder config ++ "/"
               ++ model_basename config)%string in
  greatest (List.filter (String.prefix stem) (fst <$> map_to_list files)).

End Paths.
Export Paths.

(** ** Datasets and the training loop *)

Module Training.

(** A row of the raw corpus: its ['translation'] dictionary, from language
    to sentence. *)
Abbreviation RawItem := (gmap string string).

Section WithLibraries.

(** The collaborators that the script takes from libraries or from files
    that are absent, as parameters. *)
Variable cuda_is_available : bool.
Variable load_dataset : string → string → list RawItem.
Variable word_level_words : list string → list string.
Variable encode_ids : Tokenizer → string → list Z.
Variable BilingualDataset :
  list RawItem → Tokenizer → Tokenizer → string → string → Z → option (list Example).
Variable randperm : nat → nat → list nat.
Variable build_transformer : Z → Z → Z → Z → Z → Model.
Variable initial_state_dict : nat → Z → Z → Z → Z → Z → StateDict.
Variable autograd : Model → StateDict → Batch → option Z → StateDict.
Variable Adam : Q → StateDict → StateDict → StateDict → StateDict * StateDict.
Variable ext : string.
(** [str(Path(pattern.format(arg)))], line 108: the path, or the exception
    that [str.format] raises on the pattern.  A file is named by one path. *)
Variable format_path : string → string → exn + string.
(** The event file that [SummaryWriter(log_dir)] creates under [log_dir];
    its name depends on the time and on the host. *)
Variable event_file : string → string.
(** [model.load_state_dict(sd)] is strict: it succeeds when the keys and
    the shapes of [sd] are those of the model's parameters (first
    argument); when it fails it has copied what did match. *)
Variable state_dict_matches : StateDict → StateDict → bool.
Variable partly_loaded : StateDict → StateDict → StateDict.
(** [optimizer.load_state_dict(sd)] checks [sd] against the parameter
    groups of the optimizer, which are those of the model's parameters
    (first argument). *)
Variable optimizer_accepts : StateDict → StateDict → bool.

(** Lines 102-104. *)
Definition get_all_sentences (ds : list RawItem) (lang : string) : M (list string) :=
  match mapM (λ item : RawItem, item !! lang) ds with
  | Some sentences => mret sentences
  | None => raise KeyError
  end.

(** Lines 107-119.  A file that holds something else than a tokenizer
    cannot be read as one. *)
Definition get_or_build_tokenizer (config : Config) (ds : list RawItem) (lang : string)
  : M Tokenizer :=
  match format_path (tokenizer_file config) lang with
  | inl e => raise e
  | inr tokenizer_path =>
      w ← get;
      match files w !! tokenizer_path with
      | None =>
          sentences ← get_all_sentences ds lang;
          let tokenizer := train_from_iterator (word_level_words sentences) in
          _ ← modify (set_files (insert tokenizer_path (TokenizerFile tokenizer)));
          mret tokenizer
      | Some (TokenizerFile tokenizer) => mret tokenizer
      | Some _ => raise ValueError
      end
  end.

(** A fresh random permutation of [0 .. n-1]. *)
Definition draw_permutation (n : nat) : M (list nat) :=
  w ← get;
  _ ← modify (set_rng (S (rng w)));
  mret (randperm (rng w) n).

(** [random_split(ds, [n1, n2])]. *)
Definition random_split {A} (ds : list A) (n1 n2 : Z) : M (list A * list A) :=
  if negb (n1 + n2 =? Z.of_nat (length ds)) then raise ValueError
  else
    order ← draw_permutation (length ds);
    let shuffled := omap (λ i, ds !! i) order in
    mret (take (Z.to_nat n1) shuffled, drop (Z.to_nat n1) shuffled).

Definition new_BilingualDataset (ds : list RawItem) (tokenizer_src tokenizer_tgt : Tokenizer)
    (src_lang tgt_lang : string) (seq_len : Z) : M (list Example) :=
  match BilingualDataset ds tokenizer_src tokenizer_tgt src_lang tgt_lang seq_len with
  | Some examples => mret examples
  | None => raise ValueError
  end.

(** [DataLoader(ds, batch_size=n, shuffle=True)]: the random sampler
    refuses an empty dataset, and the batch size must be positive. *)
Definition new_DataLoader (ds : list Example) (batch_size : Z) : M DataLoader :=
  match ds with
  | [] => raise ValueError
  | _ =>
      if batch_size <=? 0 then raise ValueError
      else mret {| dataset := ds; loader_batch_size := Z.to_nat batch_size |}
  end.

(** One pass over a shuffling loader. *)
Definition iterate (dl : DataLoader) : M (list Batch) :=
  order ← draw_permutation (length (dataset dl));
  mret (batches dl order).

Definition print_int (n : Z) : string := NilZero.string_of_int (Z.to_int n).

(** Lines 139-143. *)
Fixpoint max_lengths (config : Config) (tokenizer_src tokenizer_tgt : Tokenizer)
    (ds_raw : list RawItem) (max_len_src max_len_tgt : Z) : M (Z * Z) :=
  match ds_raw with
  | [] => mret (max_len_src, max_len_tgt)
  | item :: rest =>
      match item !! lang_src config, item !! lang_tgt config with
      | Some src, Some tgt =>
          let src_ids := encode_ids tokenizer_src src in
          let tgt_ids := encode_ids tokenizer_tgt tgt in
          max_lengths config tokenizer_src tokenizer_tgt rest
            (Z.max max_len_src (Z.of_nat (length src_ids)))
            (Z.max max_len_tgt (Z.of_nat (length tgt_ids)))
      | _, _ => raise KeyError
      end
  end.

(** Lines 123-151.  [int(0.9 * n)] is the integer part of nine tenths
    of [n]. *)
Definition get_ds (config : Config)
  : M (DataLoader * DataLoader * Tokenizer * Tokenizer) :=
  let ds_raw := load_dataset (datasource config)
                  (lang_src config ++ "-" ++ lang_tgt config)%string in
  tokenizer_src ← get_or_build_tokenizer config ds_raw (lang_src config);
  tokenizer_tgt ← get_or_build_tokenizer config ds_raw (lang_tgt config);
  let train_ds_size := 9 * Z.of_nat (length ds_raw) / 10 in
  let val_ds_size := Z.of_nat (length ds_raw) - train_ds_size in
  split ← random_split ds_raw train_ds_size val_ds_size;
  let train_ds_raw := fst split in
  let val_ds_raw := snd split in
  train_ds ← new_BilingualDataset train_ds_raw tokenizer_src tokenizer_tgt
               (lang_src config) (lang_tgt config) (seq_len config);
  val_ds ← new_BilingualDataset val_ds_raw tokenizer_src tokenizer_tgt
             (lang_src config) (lang_tgt config) (seq_len config);
  lens ← max_lengths config tokenizer_src tokenizer_tgt ds_raw 0 0;
  _ ← emit (Stdout ("Max length of source sentence: " ++ print_int (fst lens))%string);
  _ ← emit (Stdout ("Max length of target sentence: " ++ print_int (snd lens))%string);
  train_data_loader ← new_DataLoader train_ds (batch_size config);
  val_data_loader ← new_DataLoader val_ds 1;
  mret (train_data_loader, val_data_loader, tokenizer_src, tokenizer_tgt).

(** Lines 154-156. *)
Definition get_model (config : Config) (vocab_src_len vocab_tgt_len : Z) : Model :=
  build_transformer vocab_src_len vocab_tgt_len (seq_len config) (seq_len config)
    (d_model config).

(** [torch.load(path)]. *)
Definition torch_load (path : string) : M Checkpoint :=
  _ ← emit (TorchLoad path);
  w ← get;
  match files w !! path with
  | Some (CheckpointFile c) => mret c
  | Some _ => raise UnpicklingError
  | None => raise FileNotFoundError
  end.

(** [torch.save(obj, path)]: the file at [path] is created, or replaced when
    there is one already. *)
Definition torch_save (c : Checkpoint) (path : string) : M unit :=
  _ ← modify (set_files (insert path (CheckpointFile c)));
  emit (TorchSave path c).

(** Line 180: the file selected by [config['preload']], if any; an empty
    selector counts as none. *)
Definition preload_filename (config : Config) (fs : gmap string File) : option string :=
  match preload config with
  | Some p =>
      if String.eqb p "latest" then latest_weights_file_path config fs
      else if String.eqb p "" then None
      else Some (get_weights_file_path ext config p)
  | None => None
  end.

(** [model.load_state_dict(sd)], line 184: the parameters become those of
    [sd], or a [RuntimeError] is raised once the entries that match have
    been copied. *)
Definition load_state_dict (sd : StateDict) : M unit :=
  w ← get;
  if state_dict_matches (params w) sd then modify (set_params (λ _, sd))
  else
    _ ← modify (set_params (λ _, partly_loaded (params w) sd));
    raise RuntimeError.

(** [optimizer.load_state_dict(sd)], line 186: the state becomes [sd], or
    a [ValueError] is raised and nothing is changed. *)
Definition optimizer_load_state_dict (sd : StateDict) : M unit :=
  w ← get;
  if optimizer_accepts (params w) sd then modify (set_optimizer (λ _, sd))
  else raise ValueError.

(** Lines 176-189: restores the selected checkpoint and returns
    [(initial_epoch, global_step)]. *)
Definition restore (config : Config) : M (Z * Z) :=
  let initial_epoch := 0 in
  let global_step := 0 in
  w ← get;
  match preload_filename config (files w) with
  | Some model_filename =>
      if String.eqb model_filename "" then
        _ ← emit (Stdout "No model to preload, starting from scratch");
        mret (initial_epoch, global_step)
      else
        _ ← emit (Stdout ("Preloading model " ++ model_filename)%string);
        state ← torch_load model_filename;
        _ ← load_state_dict (model_state_dict state);
        let initial_epoch := epoch state + 1 in
        _ ← optimizer_load_state_dict (optimizer_state_dict state);
        let global_step := Runtime.global_step state in
        mret (initial_epoch, global_step)
  | None =>
      _ ← emit (Stdout "No model to preload, starting from scratch");
      mret (initial_epoch, global_step)
  end.

Definition label_smoothing : R := (1 / 10)%R.

(** Line 191: the ignore index is the id of [PAD] in the SOURCE
    vocabulary. *)
Definition loss_fn (tokenizer_src : Tokenizer) : Z → Tensor2 → list Z → loss_value :=
  CrossEntropyLoss (token_to_id tokenizer_src "[PAD]") label_smoothing.

(** Line 213. *)
Definition batch_loss (tokenizer_src tokenizer_tgt : Tokenizer)
    (proj_output : Tensor3) (label : list (list Z)) : M loss_value :=
  let n_classes := get_vocab_size tokenizer_tgt in
  match view_rows n_classes proj_output with
  | None => raise RuntimeError
  | Some input =>
      match loss_fn tokenizer_src n_classes input (view_flat label) with
      | LossError => raise ValueError
      | loss => mret loss
      end
  end.

(** The scalars that the event file at [path] holds. *)
Definition scalars_at (fs : gmap string File) (path : string)
  : list (string * loss_value * Z) :=
  match fs !! path with
  | Some (EventFile scalars) => scalars
  | _ => []
  end.

(** [SummaryWriter(log_dir)], line 172: the event file of the run is
    created; the writer is known by the path of that file. *)
Definition new_SummaryWriter (log_dir : string) : M string :=
  let path := event_file log_dir in
  _ ← modify (set_files (insert path (EventFile [])));
  mret path.

(** [writer.add_scalar(tag, value, step)] and [writer.flush()], lines
    217-218: the scalar is added to the event file of the writer. *)
Definition add_scalar (writer : string) (tag : string) (value : loss_value) (step : Z)
  : M unit :=
  _ ← emit (AddScalar tag value step);
  modify (set_files (λ fs,
    <[writer := EventFile (scalars_at fs writer ++ [(tag, value, step)])]> fs)).

Definition call_projection_all (model : Model) (x : Tensor3) : M Tensor3 :=
  w ← get;
  _ ← emit (ProjectionCall (grad_enabled w) (concat x));
  mret (map (map (projection model (params w))) x).

(** Lines 199-227: one optimisation step; returns the incremented global
    step. *)
Definition train_batch (config : Config) (model : Model) (writer : string)
    (tokenizer_src tokenizer_tgt : Tokenizer) (batch : Batch) (global_step : Z) : M Z :=
  encoder_output ← call_encode model (encoder_input batch) (encoder_mask batch);
  decoder_output ← call_decode model encoder_output (encoder_mask batch)
                     (decoder_input batch) (decoder_mask batch);
  proj_output ← call_projection_all model decoder_output;
  loss ← batch_loss tokenizer_src tokenizer_tgt proj_output (label batch);
  _ ← emit (ProgressPostfix loss);
  _ ← add_scalar writer "train loss" loss global_step;
  w ← get;
  let g := autograd model (params w) batch (token_to_id tokenizer_src "[PAD]") in
  _ ← modify (set_grads (Some g));
  _ ← emit Backward;
  let updated := Adam (lr config) (optimizer w) (params w) g in
  _ ← modify (set_params (λ _, fst updated));
  _ ← modify (set_optimizer (λ _, snd updated));
  _ ← emit OptimizerStep;
  _ ← modify (set_grads None);
  _ ← emit ZeroGrad;
  mret (global_step + 1).

(** Lines 198-227. *)
Fixpoint train_batches (config : Config) (model : Model) (writer : string)
    (tokenizer_src tokenizer_tgt : Tokenizer) (bs : list Batch) (global_step : Z) : M Z :=
  match bs with
  | [] => mret global_step
  | batch :: rest =>
      _ ← emit NextBatch;
      global_step ← train_batch config model writer tokenizer_src tokenizer_tgt batch
                      global_step;
      train_batches config model writer tokenizer_src tokenizer_tgt rest global_step
  end.

(** The body of the epoch loop, lines 194-239; returns the global step
    reached. *)
Definition run_epoch (fuel : nat) (config : Config) (model : Model) (writer : string)
    (train_data_loader val_data_loader : DataLoader)
    (tokenizer_src tokenizer_tgt : Tokenizer) (epoch global_step : Z) : M Z :=
  _ ← modify (set_training true);
  bs ← iterate train_data_loader;
  global_step ← train_batches config model writer tokenizer_src tokenizer_tgt bs
                  global_step;
  val_batches ← iterate val_data_loader;
  _ ← run_validation fuel model val_batches tokenizer_src tokenizer_tgt (seq_len config)
        (λ msg, emit (ProgressWrite msg)) global_step default_num_examples;
  let model_filename := get_weights_file_path ext config (format_02d epoch) in
  w ← get;
  _ ← torch_save {| epoch := epoch;
                    model_state_dict := params w;
                    optimizer_state_dict := optimizer w;
                    global_step := global_step |} model_filename;
  mret global_step.

(** [for epoch in range(initial_epoch, config['num_epochs'])]. *)
Fixpoint epoch_loop (fuel : nat) (config : Config) (model : Model) (writer : string)
    (train_data_loader val_data_loader : DataLoader)
    (tokenizer_src tokenizer_tgt : Tokenizer) (epochs : list Z) (global_step : Z)
  : M Z :=
  match epochs with
  | [] => mret global_step
  | epoch :: rest =>
      global_step ← run_epoch fuel config model writer train_data_loader val_data_loader
                      tokenizer_src tokenizer_tgt epoch global_step;
      epoch_loop fuel config model writer train_data_loader val_data_loader
        tokenizer_src tokenizer_tgt rest global_step
  end.

(** [range(a, b)]. *)
Definition range (a b : Z) : list Z := seqZ a (b - a).

(** Lines 160-167: the device is chosen and printed ([print] separates its
    two arguments by a blank) and the data are loaded.  Creating the model
    folder changes no file. *)
Definition device_line : string :=
  ("using device  " ++ if cuda_is_available then "cuda" else "cpu")%string.

Definition prepare (config : Config)
  : M (DataLoader * DataLoader * Tokenizer * Tokenizer) :=
  _ ← emit (Stdout device_line);
  get_ds config.

(** Lines 159-239; the result is the global step reached. *)
Definition train_model (fuel : nat) (config : Config) : M Z :=
  ds ← prepare config;
  let train_data_loader := fst (fst (fst ds)) in
  let val_data_loader := snd (fst (fst ds)) in
  let tokenizer_src := snd (fst ds) in
  let tokenizer_tgt := snd ds in
  let model := get_model config (get_vocab_size tokenizer_src)
                 (get_vocab_size tokenizer_tgt) in
  w ← get;
  _ ← modify (set_params (λ _, initial_state_dict (rng w)
                 (get_vocab_size tokenizer_src) (get_vocab_size tokenizer_tgt)
                 (seq_len config) (seq_len config) (d_model config)));
  _ ← modify (set_rng (S (rng w)));
  writer ← new_SummaryWriter (experiment_name config);
  _ ← modify (set_optimizer (λ _, ∅));
  start ← restore config;
  let initial_epoch := fst start in
  let global_step := snd start in
  epoch_loop fuel config model writer train_data_loader val_data_loader
    tokenizer_src tokenizer_tgt (range initial_epoch (num_epochs config)) global_step.

End WithLibraries.

End Training.

(** ** Small concrete instances *)

Module Fixtures.

(** A vocabulary as the trainer builds it: [UNK]=0, [PAD]=1, [SOS]=2,
    [EOS]=3, then the words. *)
Definition tok : Tokenizer := train_from_iterator ["hello"; "world"].

(** A vocabulary read from a file in which [PAD] comes first. *)
Definition tok_pad_first : Tokenizer :=
  {| vocab := ["[PAD]"; "[UNK]"; "[SOS]"; "[EOS]"; "hallo"; "welt"];
     special_tokens := trainer_special_tokens |}.

Definition one_hot (n : nat) (k : Z) : Tensor1 :=
  map (λ i, if Z.of_nat i =? k then 1%Q else 0%Q) (seq 0 n).

(** A model that follows a script: at step k (the decoder input has k
    tokens) its logits single out the k-th entry of [script], and the last
    entry once the script is over. *)
Definition scripted (script : list Z) (final : Z) : Model :=
  {| encode := λ _ source _, map (map (λ t, [inject_Z t])) source;
     decode := λ _ _ _ target _,
       map (λ row : list Z, map (λ k, [inject_Z (Z.of_nat k)]) (seq 1 (length row))) target;
     projection := λ _ x,
       match x with
       | [q] => one_hot 6 (nth (Z.to_nat (Qnum q) - 1) script final)
       | _ => []
       end |}.

(** A model that answers every input alike: its logits single out [k]. *)
Definition constant (k : Z) : Model :=
  {| encode := λ _ _ _, [];
     decode := λ _ _ _ _ _, [[[]]];
     projection := λ _ _, one_hot 6 k |}.

Definition w0 : World :=
  {| params := ∅; optimizer := ∅; grads := None; training := true;
     grad_enabled := true; files := ∅; rng := 0%nat; log := [] |}.

Definition example_of (ids : list Z) (src tgt : string) : Example :=
  {| ex_encoder_input := ids; ex_decoder_input := [2]; ex_encoder_mask := map (λ _, true) ids;
     ex_decoder_mask := [[true]]; ex_label := [3]; ex_src_text := src; ex_tgt_text := tgt |}.

Definition toy_val_loader : DataLoader :=
  {| dataset := [example_of [2; 4; 3] "hello" "hallo"]; loader_batch_size := 1 |}.

(** A batch of two examples, as a training loader would yield it. *)
Definition pair_batch : Batch :=
  collate [example_of [2; 4; 3] "hello" "hallo"; example_of [2; 4; 3] "hello" "hallo"].

Definition five_batches : list Batch :=
  map (λ n : nat, collate [example_of [2; 4; 3] "hello" "hallo"]) (seq 0 5).

(** A three-sentence corpus and the collaborators of a tiny run. *)
Definition toy_item : gmap string string := {[ "en" := "hello"; "de" := "hallo" ]}.
Definition toy_load_dataset (name pair : string) : list (gmap string string) :=
  [toy_item; toy_item; toy_item].
Definition toy_words (sentences : list string) : list string := ["hello"; "world"].
Definition toy_encode_ids (t : Tokenizer) (sentence : string) : list Z := [4].
Definition toy_BilingualDataset (ds : list (gmap string string))
    (tokenizer_src tokenizer_tgt : Tokenizer) (src_lang tgt_lang : string) (seq_len : Z)
  : option (list Example) :=
  Some (map (λ _, example_of [2; 4; 3] "hello" "hallo") ds).
Definition toy_randperm (seed n : nat) : list nat := seq 0 n.
Definition toy_build_transformer (vocab_src vocab_tgt src_len tgt_len d : Z) : Model :=
  scripted [4; 3] 4.
Definition toy_initial_state_dict (seed : nat) (vocab_src vocab_tgt src_len tgt_len d : Z)
  : gmap string (list Q) := {[ "proj" := [0%Q] ]}.
Definition toy_autograd (model : Model) (θ : gmap string (list Q)) (batch : Batch)
    (ignore_index : option Z) : gmap string (list Q) := θ.
Definition toy_Adam (lr : Q) (state θ grads : gmap string (list Q))
  : gmap string (list Q) * gmap string (list Q) :=
  (map (Qplus lr) <$> θ, state).

Definition toy_config : Config :=
  {| batch_size := 2; num_epochs := 2; lr := (1 # 10000)%Q; seq_len := 4; d_model := 1;
     datasource := "opus"; lang_src := "en"; lang_tgt := "de";
     model_folder := "weights"; model_basename := "tmodel_"; preload := None;
     tokenizer_file := "tokenizer_{0}.json"; experiment_name := "runs/tmodel" |}.

Definition toy_train_loader : DataLoader :=
  {| dataset := [example_of [2; 4; 3] "hello" "hallo"; example_of [2; 4; 3] "hello" "hallo"];
     loader_batch_size := 2 |}.

(** The file patterns of the fixtures are plain text with [{0}] fields; on
    these [str.format] puts the argument in the place of each field.  Any
    other use of a brace is left to the library and refused here. *)
Fixpoint toy_format (pattern arg : string) : option string :=
  match pattern with
  | EmptyString => Some EmptyString
  | String "{"%char (String "0"%char (String "}"%char rest)) =>
      (λ s, (arg ++ s)%string) <$> toy_format rest arg
  | String "{"%char _ => None
  | String "}"%char _ => None
  | String c rest => String c <$> toy_format rest arg
  end.

Definition toy_format_path (pattern arg : string) : exn + string :=
  match toy_format pattern arg with
  | Some path => inr path
  | None => inl ValueError
  end.

Definition toy_event_file (log_dir : string) : string :=
  (log_dir ++ "/events.out.tfevents.0.host")%string.

(** The event file of the tiny run. *)
Definition toy_writer : string := toy_event_file "runs/tmodel".

(** A state dict is accepted when it has the keys of the model's
    parameters, each with as many entries: the tiny model's tensors are
    vectors. *)
Definition toy_state_dict_matches (θ sd : gmap string (list Q)) : bool :=
  bool_decide (map_to_list (length <$> θ) = map_to_list (length <$> sd)).

Definition toy_partly_loaded (θ sd : gmap string (list Q)) : gmap string (list Q) :=
  map_imap (λ k v, match sd !! k with
                   | Some v' => if (length v' =? length v)%nat then Some v' else Some v
                   | None => Some v
                   end) θ.

(** The optimizer accepts a state that speaks of the model's parameters
    only. *)
Definition toy_optimizer_accepts (θ sd : gmap string (list Q)) : bool :=
  forallb (λ k, bool_decide (is_Some (θ !! k))) (fst <$> map_to_list sd).

Definition toy_train : M Z :=
  Training.train_model false toy_load_dataset toy_words toy_encode_ids toy_BilingualDataset
    toy_randperm toy_build_transformer toy_initial_state_dict toy_autograd toy_Adam
    "pt" toy_format_path toy_event_file toy_state_dict_matches toy_partly_loaded
    toy_optimizer_accepts 10 toy_config.

(** A checkpoint left by an earlier run under the path of epoch 0. *)
Definition stale : Checkpoint :=
  {| epoch := 0; model_state_dict := {[ "proj" := [5%Q] ]}; optimizer_state_dict := ∅;
     global_step := 7 |}.

Definition w_stale : World :=
  set_files (λ _, {[ "opus_weights/tmodel_00.pt" := CheckpointFile stale ]}) w0.

(** The same configuration, asked to resume from the checkpoint of
    epoch 0. *)
Definition toy_config_resume : Config :=
  {| batch_size := 2; num_epochs := 2; lr := (1 # 10000)%Q; seq_len := 4; d_model := 1;
     datasource := "opus"; lang_src := "en"; lang_tgt := "de";
     model_folder := "weights"; model_basename := "tmodel_"; preload := Some "00";
     tokenizer_file := "tokenizer_{0}.json"; experiment_name := "runs/tmodel" |}.

(** The state in which the preparation of the run leaves [w_stale]: the
    two tokenizers have been built and saved. *)
Definition w_loaded : World :=
  Eval vm_compute in
    match Training.prepare false toy_load_dataset toy_words toy_encode_ids
            toy_BilingualDataset toy_randperm toy_format_path toy_config_resume w_stale with
    | Ok _ w => w
    | _ => w_stale
    end.

(** The states reached by the first epoch and by the loop over two epochs
    of the tiny run, started from the empty state. *)
Definition w_epoch0 : World :=
  Eval vm_compute in
    match Training.run_epoch toy_randperm toy_autograd toy_Adam "pt" 10 toy_config
            (scripted [4; 3] 4) toy_writer toy_train_loader toy_val_loader tok tok 0 0
            w0 with
    | Ok _ w => w
    | _ => w0
    end.

Definition w_epochs : World :=
  Eval vm_compute in
    match Training.epoch_loop toy_randperm toy_autograd toy_Adam "pt" 10 toy_config
            (scripted [4; 3] 4) toy_writer toy_train_loader toy_val_loader tok tok
            (Training.range 0 2) 0 w0 with
    | Ok _ w => w
    | _ => w0
    end.

(** The checkpoint that a run has left under a path, if any. *)
Definition checkpoint_at {A} (r : Res A) (path : string) : option Checkpoint :=
  match r with
  | Ok _ w =>
      match files w !! path with
      | Some (CheckpointFile c) => Some c
      | _ => None
      end
  | _ => None
  end.

(** A target vocabulary without the end marker. *)
Definition tok_no_eos : Tokenizer :=
  {| vocab := ["[UNK]"; "[PAD]"; "[SOS]"; "hello"; "world"; "again"];
     special_tokens := ["[UNK]"; "[PAD]"; "[SOS]"] |}.

(** A vocabulary without the start marker. *)
Definition tok_no_sos : Tokenizer :=
  {| vocab := ["[UNK]"; "[PAD]"; "[EOS]"; "hello"]; special_tokens := ["[UNK]"; "[PAD]"; "[EOS]"] |}.

End Fixtures.

(** * Properties *)

(** ** The monad *)

Module MonadFacts.

(** The state [w] with [evs] appended to its log and nothing else
    changed. *)
Definition after (w : World) (evs : list Event) : World :=
  set_log (λ _, log w ++ evs) w.

Lemma after_nil w : after w [] = w.
Proof. destruct w. unfold after, set_log. simpl. by rewrite app_nil_r. Qed.

Lemma after_after w evs1 evs2 : after (after w evs1) evs2 = after w (evs1 ++ evs2).
Proof. unfold after, set_log. simpl. by rewrite app_assoc. Qed.

Lemma emit_after e w : emit e w = Ok () (after w [e]).
Proof. reflexivity. Qed.

Lemma params_after w evs : params (after w evs) = params w.
Proof. reflexivity. Qed.

Lemma bind_ok {A B} (m : M A) (f : A → M B) w a w' :
  m w = Ok a w' → (m ≫= f) w = f a w'.
Proof. intros H. unfold mbind, M_bind. by rewrite H. Qed.

End MonadFacts.
Import MonadFacts.

(** ** The loop of the greedy decoder as a relation *)

Module LoopFacts.

Section Loop.

Variable model : Model.
Variable encoder_output : Tensor3.
Variable source_mask : list (list bool).
Variable eos_idx : option Z.
Variable max_len : Z.
(** The parameters and the gradient switch, which the loop leaves alone. *)
Variable θ : StateDict.
Variable g : bool.

(** What one iteration computes from the decoder input: the vector handed
    to the projection and the word chosen, or the error raised and whether
    the projection had been reached. *)
Definition iteration (decoder_input : list Z) : exn * option Tensor2 + Tensor2 * Z :=
  let out := decode model θ encoder_output source_mask [decoder_input]
               [causal_mask (length decoder_input)] in
  match mapM (λ rows : Tensor2, last rows) out with
  | None => inl (IndexError, None)
  | Some x =>
      match map (projection model θ) x with
      | [row] =>
          match torch_max row with
          | Some (_, i) => inr (x, i)
          | None => inl (IndexError, Some x)
          end
      | _ => inl (RuntimeError, Some x)
      end
  end.

Definition decode_event (decoder_input : list Z) : Event :=
  DecodeCall g encoder_output source_mask [decoder_input]
    [causal_mask (length decoder_input)].

Definition iteration_events (decoder_input : list Z) (x : option Tensor2) : list Event :=
  decode_event decoder_input ::
  match x with
  | Some x => [ProjectionCall g x]
  | None => []
  end.

Inductive outcome :=
  | Returned (out : list Z) (how : exit)
  | Raised (e : exn).

(** [loop_run d o evs]: entered with decoder input [d], the loop ends with
    outcome [o] after the model calls [evs]. *)
Inductive loop_run : list Z → outcome → list Event → Prop :=
  | run_length d :
      Z.of_nat (length d) = max_len →
      loop_run d (Returned d LengthBreak) []
  | run_eos d x next :
      Z.of_nat (length d) ≠ max_len →
      iteration d = inr (x, next) →
      is_eos eos_idx next = true →
      loop_run d (Returned (d ++ [next]) EosBreak) (iteration_events d (Some x))
  | run_more d x next o evs :
      Z.of_nat (length d) ≠ max_len →
      iteration d = inr (x, next) →
      is_eos eos_idx next = false →
      loop_run (d ++ [next]) o evs →
      loop_run d o (iteration_events d (Some x) ++ evs)
  | run_raise d e x :
      Z.of_nat (length d) ≠ max_len →
      iteration d = inl (e, x) →
      loop_run d (Raised e) (iteration_events d x).

Definition result_of (o : outcome) (w : World) : Res (list Z * exit) :=
  match o with
  | Returned out how => Ok (out, how) w
  | Raised e => Raise e w
  end.

End Loop.

End LoopFacts.
Import LoopFacts.

Module LoopProofs.

Section Loop.

Variable model : Model.
Variable encoder_output : Tensor3.
Variable source_mask : list (list bool).
Variable eos_idx : option Z.
Variable max_len : Z.

Local Abbreviation loop fuel := (greedy_loop fuel model encoder_output source_mask eos_idx max_len).
Local Abbreviation run w := (loop_run model encoder_output source_mask eos_idx max_len
                     (params w) (grad_enabled w)).
Local Abbreviation iter w := (iteration model encoder_output source_mask (params w)).
Local Abbreviation events w := (iteration_events encoder_output source_mask (grad_enabled w)).

(** One turn of the loop, from the head of the loop to the decision to go
    round again. *)
Lemma greedy_loop_step fuel d w :
  loop (S fuel) d w =
    if Z.of_nat (length d) =? max_len then Ok (d, LengthBreak) w
    else match iter w d with
         | inr (x, next) =>
             if is_eos eos_idx next
             then Ok (d ++ [next], EosBreak) (after w (events w d (Some x)))
             else loop fuel (d ++ [next]) (after w (events w d (Some x)))
         | inl (e, x) => Raise e (after w (events w d x))
         end.
Proof.
  cbn [greedy_loop]. destruct (Z.of_nat (length d) =? max_len); [reflexivity|].
  unfold iteration, call_decode, call_projection, last_position, next_word_item.
  unfold mbind, M_bind, get, emit, modify, mret, M_ret, raise. cbn.
  destruct (mapM _ _) as [x|]; cbn; [|reflexivity].
  assert (set_log (λ l, l ++ [ProjectionCall (grad_enabled w) x])
            (set_log (λ l, l ++ [DecodeCall (grad_enabled w) encoder_output
                                   source_mask [d] [causal_mask (length d)]]) w)
          = after w (events w d (Some x))) as ->.
  { unfold after, set_log. cbn. by rewrite <- app_assoc. }
  destruct (map _ x) as [|row [|row' rows]]; cbn; try reflexivity.
  destruct (torch_max row) as [[v i]|]; cbn; [|reflexivity].
  destruct (is_eos eos_idx i); reflexivity.
Qed.

(** Whatever the budget, a run that does not exhaust it is a run of the
    relation, and the state changes by the model calls only. *)
Lemma greedy_loop_sound fuel : ∀ d w,
  loop fuel d w = Timeout ∨
  ∃ o evs, run w d o evs ∧ loop fuel d w = result_of o (after w evs).
Proof.
  induction fuel as [|fuel IH]; intros d w; [left; reflexivity|].
  rewrite greedy_loop_step.
  destruct (Z.of_nat (length d) =? max_len) eqn:Hlen.
  - right. exists (Returned d LengthBreak), []. split.
    + apply run_length. lia.
    + by rewrite after_nil.
  - assert (Z.of_nat (length d) ≠ max_len) as Hne by lia.
    destruct (iter w d) as [[e x]|[x next]] eqn:Hit.
    + right. exists (Raised e), (events w d x). split; [|reflexivity].
      by apply run_raise.
    + destruct (is_eos eos_idx next) eqn:Heos.
      * right. exists (Returned (d ++ [next]) EosBreak), (events w d (Some x)).
        split; [|reflexivity]. by eapply run_eos.
      * destruct (IH (d ++ [next]) (after w (events w d (Some x)))) as [Ht|(o & evs & Hrun & Heq)].
        { by left. }
        right. exists o, (events w d (Some x) ++ evs). split.
        { eapply run_more; eauto. }
        by rewrite Heq, after_after.
Qed.

(** With a positive [max_len] not yet passed, a budget of one more than the
    number of tokens still missing is enough. *)
Lemma greedy_loop_total fuel : ∀ d w,
  Z.of_nat (length d) ≤ max_len →
  max_len - Z.of_nat (length d) < Z.of_nat fuel →
  loop fuel d w ≠ Timeout.
Proof.
  induction fuel as [|fuel IH]; intros d w Hle Hfuel; [lia|].
  rewrite greedy_loop_step.
  destruct (Z.of_nat (length d) =? max_len) eqn:Hlen; [done|].
  destruct (iter w d) as [[e x]|[x next]]; [done|].
  destruct (is_eos eos_idx next); [done|].
  apply IH; rewrite length_app; simpl; lia.
Qed.

End Loop.

End LoopProofs.
Import LoopProofs.

(** ** What every run of the loop satisfies *)

Module LoopProperties.

Definition is_decode_call (e : Event) : bool :=
  match e with
  | DecodeCall _ _ _ _ _ => true
  | _ => false
  end.

Definition is_encode_call (e : Event) : bool :=
  match e with
  | EncodeCall _ _ _ => true
  | _ => false
  end.

(** The number of iterations of the decoding loop that a stretch of the log
    records: each iteration starts with one call of [model.decode]. *)
Definition decode_calls (evs : list Event) : nat :=
  length (List.filter is_decode_call evs).

Definition encode_calls (evs : list Event) : nat :=
  length (List.filter is_encode_call evs).

(** The event is a call of the decoder that is given the encoder state
    [enc], or a call of the projection; in particular it is not a call of
    the encoder. *)
Definition reuses (enc : Tensor3) (e : Event) : Prop :=
  match e with
  | DecodeCall _ enc' _ _ _ => enc' = enc
  | ProjectionCall _ _ => True
  | _ => False
  end.

Definition not_eos (eos_idx : option Z) (t : Z) : Prop := is_eos eos_idx t = false.

Lemma decode_calls_app evs1 evs2 :
  decode_calls (evs1 ++ evs2) = (decode_calls evs1 + decode_calls evs2)%nat.
Proof. unfold decode_calls. by rewrite List.filter_app, length_app. Qed.

Lemma encode_calls_app evs1 evs2 :
  encode_calls (evs1 ++ evs2) = (encode_calls evs1 + encode_calls evs2)%nat.
Proof. unfold encode_calls. by rewrite List.filter_app, length_app. Qed.

Lemma encode_calls_reuses enc evs : Forall (reuses enc) evs → encode_calls evs = 0%nat.
Proof.
  induction 1 as [|e evs He _ IH]; [reflexivity|].
  unfold encode_calls in *. simpl. by destruct e.
Qed.

Section Loop.

Variable model : Model.
Variable encoder_output : Tensor3.
Variable source_mask : list (list bool).
Variable eos_idx : option Z.
Variable max_len : Z.
Variable θ : StateDict.
Variable g : bool.

Local Abbreviation run := (loop_run model encoder_output source_mask eos_idx max_len θ g).
Local Abbreviation events := (iteration_events encoder_output source_mask g).

Lemma decode_calls_iteration d x : decode_calls (events d x) = 1%nat.
Proof. by destruct x. Qed.

Lemma reuses_iteration d x : Forall (reuses encoder_output) (events d x).
Proof. destruct x; repeat constructor. Qed.

(** Every iteration starts below [max_len], so there are at most as many
    as tokens are missing; this holds for the runs that raise too. *)
Lemma loop_run_calls d o evs :
  run d o evs →
  Z.of_nat (length d) ≤ max_len →
  Z.of_nat (decode_calls evs) ≤ max_len - Z.of_nat (length d).
Proof.
  induction 1 as [d Hd|d x next Hd _ _|d x next o evs Hd _ _ _ IH|d e x Hd _]; intros Hle.
  - unfold decode_calls. simpl. lia.
  - rewrite decode_calls_iteration. lia.
  - rewrite decode_calls_app, decode_calls_iteration.
    rewrite length_app in IH. simpl in IH. lia.
  - rewrite decode_calls_iteration. lia.
Qed.

(** The encoder is not called in the loop and the decoder always gets the
    same encoder state. *)
Lemma loop_run_reuses d o evs : run d o evs → Forall (reuses encoder_output) evs.
Proof.
  induction 1; try apply reuses_iteration; [constructor|].
  apply Forall_app. split; [apply reuses_iteration|assumption].
Qed.

(** The shape of a returned sequence: the tokens appended to the input, one
    per iteration; none of them but the last is the end marker; no
    iteration started at length [max_len]; and the exit tells which of the
    two conditions ended the loop. *)
Lemma loop_run_returned d out how evs :
  run d (Returned out how) evs →
  ∃ appended,
    out = d ++ appended ∧
    decode_calls evs = length appended ∧
    (∀ k, (k < length appended)%nat → Z.of_nat (length d + k) ≠ max_len) ∧
    match how with
    | EosBreak =>
        ∃ pre t, appended = pre ++ [t] ∧ Forall (not_eos eos_idx) pre ∧
                 is_eos eos_idx t = true
    | LengthBreak =>
        Z.of_nat (length out) = max_len ∧ Forall (not_eos eos_idx) appended
    end.
Proof.
  intros Hrun. remember (Returned out how) as o eqn:Ho.
  induction Hrun as [d Hd|d x next Hd _ Heos|d x next o evs Hd _ Heos _ IH|d e x Hd _];
    try discriminate.
  - injection Ho as <- <-. exists []. rewrite app_nil_r.
    repeat split; [simpl; lia|assumption|constructor].
  - injection Ho as <- <-. exists [next]. rewrite decode_calls_iteration.
    repeat split.
    + intros k Hk. simpl in Hk. replace (length d + k)%nat with (length d) by lia. done.
    + exists [], next. repeat split; [constructor|assumption].
  - destruct (IH Ho) as (appended & -> & Hcalls & Hbefore & Hexit).
    exists (next :: appended). rewrite decode_calls_app, decode_calls_iteration, Hcalls.
    rewrite <- app_assoc. repeat split.
    + intros [|k] Hk; [by rewrite Nat.add_0_r|].
      simpl in Hk. specialize (Hbefore k). rewrite length_app in Hbefore. simpl in Hbefore.
      replace (length d + S k)%nat with (length d + 1 + k)%nat by lia.
      apply Hbefore. lia.
    + destruct how.
      * destruct Hexit as [Hlen Hall]. rewrite <- app_assoc in Hlen.
        split; [assumption|]. by constructor.
      * destruct Hexit as (pre & t & -> & Hall & Ht).
        exists (next :: pre), t. repeat split; [by constructor|assumption].
Qed.

End Loop.

(** Two different tokens of a vocabulary have different ids. *)
Lemma index_from_inj token1 token2 l : ∀ i k,
  index_from i token1 l = Some k → index_from i token2 l = Some k → token1 = token2.
Proof.
  assert (∀ token l i k, index_from i token l = Some k → i ≤ k) as Hge.
  { intros token l'. induction l' as [|t l' IH]; intros i k; simpl; [done|].
    destruct (String.eqb t token); [intros [= ->]; lia|].
    intros H. apply IH in H. lia. }
  induction l as [|t l IH]; intros i k; simpl; [done|].
  destruct (String.eqb_spec t token1) as [E1|H1], (String.eqb_spec t token2) as [E2|H2].
  - congruence.
  - intros [= ->] H. apply Hge in H. lia.
  - intros H [= ->]. apply Hge in H. lia.
  - apply IH.
Qed.

Lemma sos_is_not_eos (t : Tokenizer) sos :
  token_to_id t "[SOS]" = Some sos → is_eos (token_to_id t "[EOS]") sos = false.
Proof.
  intros Hsos. unfold is_eos. destruct (token_to_id t "[EOS]") as [eos|] eqn:Heos; [|done].
  destruct (Z.eqb_spec sos eos) as [->|]; [|done].
  by pose proof (index_from_inj _ _ _ _ _ Hsos Heos).
Qed.

End LoopProperties.
Import LoopProperties.

(** ** The greedy decoder *)

Module DecoderProofs.

(** What the caller gets: the value returned, the exception raised, or
    nothing when the budget is exhausted. *)
Definition answer {A} (r : Res A) : option (exn + A) :=
  match r with
  | Ok a _ => Some (inr a)
  | Raise e _ => Some (inl e)
  | Timeout => None
  end.

(** The loop was left at the first opportunity: no iteration started at
    length [max_len], no token before the last is the end marker, and the
    exit names the condition that held at the end. *)
Definition stopped_at_first_chance (eos_idx : option Z) (max_len : Z)
    (d appended : list Z) (how : exit) : Prop :=
  (∀ k, (k < length appended)%nat → Z.of_nat (length d + k) ≠ max_len) ∧
  match how with
  | EosBreak =>
      ∃ pre t, appended = pre ++ [t] ∧ Forall (not_eos eos_idx) pre ∧
               is_eos eos_idx t = true
  | LengthBreak =>
      Z.of_nat (length (d ++ appended)) = max_len ∧ Forall (not_eos eos_idx) appended
  end.

Section Decoder.

Variable model : Model.
Variable source : list (list Z).
Variable source_mask : list (list bool).
Variable tokenizer_src tokenizer_tgt : Tokenizer.
Variable max_len : Z.

Local Abbreviation eos_idx := (token_to_id tokenizer_tgt "[EOS]").
Local Abbreviation enc w := (encode model (params w) source source_mask).
Local Abbreviation encode_event w := (EncodeCall (grad_enabled w) source source_mask).

Lemma greedy_run_unfold fuel w :
  greedy_run fuel model source source_mask tokenizer_src tokenizer_tgt max_len w =
    match token_to_id tokenizer_tgt "[SOS]" with
    | Some sos =>
        greedy_loop fuel model (enc w) source_mask eos_idx max_len [sos]
          (after w [encode_event w])
    | None => Raise TypeError (after w [encode_event w])
    end.
Proof.
  unfold greedy_run, call_encode, fill_, mbind, M_bind, get, emit, modify, mret, M_ret. cbn.
  destruct (token_to_id tokenizer_tgt "[SOS]"); reflexivity.
Qed.

Lemma greedy_decode_unfold fuel w :
  greedy_decode fuel model source source_mask tokenizer_src tokenizer_tgt max_len w =
    match greedy_run fuel model source source_mask tokenizer_src tokenizer_tgt max_len w with
    | Ok r w' => Ok (fst r) w'
    | Raise e w' => Raise e w'
    | Timeout => Timeout
    end.
Proof. reflexivity. Qed.

(** Every run of the decoder that ends is the encoder call followed by a
    run of the loop from [[SOS]], or the type error of a missing [SOS]. *)
Lemma greedy_run_sound fuel w :
  let r := greedy_run fuel model source source_mask tokenizer_src tokenizer_tgt max_len w in
  r = Timeout ∨
  (token_to_id tokenizer_tgt "[SOS]" = None ∧ r = Raise TypeError (after w [encode_event w])) ∨
  ∃ sos o evs,
    token_to_id tokenizer_tgt "[SOS]" = Some sos ∧
    loop_run model (enc w) source_mask eos_idx max_len (params w) (grad_enabled w) [sos] o evs ∧
    r = result_of o (after w (encode_event w :: evs)).
Proof.
  intros r. subst r. rewrite greedy_run_unfold.
  destruct (token_to_id tokenizer_tgt "[SOS]") as [sos|] eqn:Hsos; [|right; left; done].
  destruct (greedy_loop_sound model (enc w) source_mask eos_idx max_len fuel [sos]
              (after w [encode_event w])) as [Ht|(o & evs & Hrun & Heq)]; [by left|].
  right. right. exists sos, o, evs. split; [done|]. split; [exact Hrun|].
  by rewrite Heq, after_after.
Qed.

Lemma greedy_run_total fuel w :
  1 ≤ max_len → (Z.to_nat max_len ≤ fuel)%nat →
  greedy_run fuel model source source_mask tokenizer_src tokenizer_tgt max_len w ≠ Timeout.
Proof.
  intros Hmax Hfuel. rewrite greedy_run_unfold.
  destruct (token_to_id tokenizer_tgt "[SOS]") as [sos|]; [|done].
  apply greedy_loop_total; simpl; lia.
Qed.

(** The returned sequence starts with [SOS], and the end marker can only be
    its last element. *)
Lemma greedy_run_shape fuel w out how w' :
  greedy_run fuel model source source_mask tokenizer_src tokenizer_tgt max_len w
    = Ok (out, how) w' →
  ∃ sos appended evs,
    token_to_id tokenizer_tgt "[SOS]" = Some sos ∧
    out = sos :: appended ∧
    w' = after w (encode_event w :: evs) ∧
    Forall (reuses (enc w)) evs ∧
    decode_calls evs = length appended ∧
    stopped_at_first_chance eos_idx max_len [sos] appended how.
Proof.
  intros Hrun.
  destruct (greedy_run_sound fuel w) as [Ht|[[_ Hr]|(sos & o & evs & Hsos & Hloop & Hr)]];
    cbv zeta in *; try congruence.
  rewrite Hrun in Hr. destruct o as [out' how'|e]; [|discriminate].
  injection Hr as -> -> ->.
  destruct (loop_run_returned _ _ _ _ _ _ _ _ _ _ _ Hloop) as (appended & -> & Hcalls & Hbefore & Hexit).
  exists sos, appended, evs. repeat split; try done.
  by eapply loop_run_reuses.
Qed.

End Decoder.

End DecoderProofs.
Import DecoderProofs.

(** * The claims of the specification *)

(** ** Termination of the greedy decoder *)

(** C2, as amended.  For [max_len >= 1], [greedy_decode] terminates within
    a budget of [max_len] visits of the loop head: it raises or returns, and
    in both cases its loop has run at most [max_len - 1] iterations.  When
    it returns, the loop was left at the first iteration whose appended
    token is the end marker or that brought the decoder input to length
    [max_len]; when it was left by the length test the sequence has length
    exactly [max_len] and no element of it, the last included, is the end
    marker. *)
Theorem greedy_decode_terminates model source source_mask tokenizer_src tokenizer_tgt
    max_len fuel w :
  1 ≤ max_len →
  (Z.to_nat max_len ≤ fuel)%nat →
  let eos_idx := token_to_id tokenizer_tgt "[EOS]" in
  let decode_it :=
    greedy_decode fuel model source source_mask tokenizer_src tokenizer_tgt max_len in
  ∃ evs,
    Z.of_nat (decode_calls evs) ≤ max_len - 1 ∧
    ((∃ e, decode_it w = Raise e (after w evs)) ∨
     (∃ sos appended how,
        greedy_run fuel model source source_mask tokenizer_src tokenizer_tgt max_len w
          = Ok (sos :: appended, how) (after w evs) ∧
        decode_it w = Ok (sos :: appended) (after w evs) ∧
        decode_calls evs = length appended ∧
        stopped_at_first_chance eos_idx max_len [sos] appended how ∧
        (how = LengthBreak →
         Z.of_nat (length (sos :: appended)) = max_len ∧
         Forall (not_eos eos_idx) (sos :: appended)))).
Proof.
  intros Hmax Hfuel eos_idx decode_it. subst decode_it.
  pose proof (greedy_run_total model source source_mask tokenizer_src tokenizer_tgt
                max_len fuel w Hmax Hfuel) as Htotal.
  rewrite greedy_decode_unfold.
  destruct (greedy_run_sound model source source_mask tokenizer_src tokenizer_tgt
              max_len fuel w) as [Ht|[[_ Hr]|(sos & o & evs & Hsos & Hloop & Hr)]];
    cbv zeta in *; [done| |].
  - eexists. split; [|left; exists TypeError; by rewrite Hr].
    unfold decode_calls. simpl. lia.
  - exists (EncodeCall (grad_enabled w) source source_mask :: evs).
    assert (Z.of_nat (decode_calls evs) ≤ max_len - 1) as Hcalls.
    { apply (loop_run_calls _ _ _ _ _ _ _ _ _ _ Hloop). simpl. lia. }
    split; [exact Hcalls|].
    rewrite Hr. destruct o as [out how|e]; [|left; by exists e].
    right.
    destruct (loop_run_returned _ _ _ _ _ _ _ _ _ _ _ Hloop)
      as (appended & -> & Hn & Hbefore & Hexit).
    exists sos, appended, how. repeat split; try done.
    + subst how. by destruct Hexit.
    + subst how. destruct Hexit as [_ Hall]. constructor; [|exact Hall].
      by apply sos_is_not_eos.
Qed.

(** A run of the theorem above with [max_len = 4]. *)
Lemma greedy_decode_terminates_witness :
  ∃ evs,
    Z.of_nat (decode_calls evs) ≤ 4 - 1 ∧
    ((∃ e, greedy_decode 4 (Fixtures.scripted [4; 5] 4) [[2; 4; 3]] [[true; true; true]]
             Fixtures.tok Fixtures.tok 4 Fixtures.w0 = Raise e (after Fixtures.w0 evs)) ∨
     (∃ sos appended how,
        greedy_run 4 (Fixtures.scripted [4; 5] 4) [[2; 4; 3]] [[true; true; true]]
          Fixtures.tok Fixtures.tok 4 Fixtures.w0
          = Ok (sos :: appended, how) (after Fixtures.w0 evs) ∧
        greedy_decode 4 (Fixtures.scripted [4; 5] 4) [[2; 4; 3]] [[true; true; true]]
          Fixtures.tok Fixtures.tok 4 Fixtures.w0
          = Ok (sos :: appended) (after Fixtures.w0 evs) ∧
        decode_calls evs = length appended ∧
        stopped_at_first_chance (token_to_id Fixtures.tok "[EOS]") 4 [sos] appended how ∧
        (how = LengthBreak →
         Z.of_nat (length (sos :: appended)) = 4 ∧
         Forall (not_eos (token_to_id Fixtures.tok "[EOS]")) (sos :: appended)))).
Proof.
  apply (greedy_decode_terminates (Fixtures.scripted [4; 5] 4) [[2; 4; 3]]
           [[true; true; true]] Fixtures.tok Fixtures.tok 4 4 Fixtures.w0).
  - lia.
  - simpl. lia.
Defined.

(** With [max_len = 0] a model that never produces the end marker keeps
    the loop going whatever the budget. *)
Lemma constant_loop_diverges fuel enc mask eos_idx :
  is_eos eos_idx 4 = false →
  ∀ d w, d ≠ [] → greedy_loop fuel (Fixtures.constant 4) enc mask eos_idx 0 d w = Timeout.
Proof.
  intros Hk. induction fuel as [|fuel IH]; intros d w Hd; [reflexivity|].
  rewrite greedy_loop_step.
  destruct d as [|t d]; [done|].
  destruct (Z.eqb_spec (Z.of_nat (length (t :: d))) 0) as [H|_]; [simpl in H; lia|].
  change (iteration _ _ _ _ (t :: d)) with (@inr (exn * option Tensor2) _ ([[]] : Tensor2, 4)).
  cbn match. rewrite Hk. apply IH. by destruct d.
Qed.

(** C2 as stated fails when [max_len] is not positive: the length test of
    line 30 compares for equality and the decoder input already has
    length 1.  With [max_len = 0] a model that produces the end marker at
    once makes the loop run one iteration, more than [max_len - 1], and
    return a sequence of length 2; and with a model that never produces the
    end marker the loop does not end, whatever the budget. *)
Lemma greedy_decode_diverges_at_zero :
  answer (greedy_decode 1 (Fixtures.constant 3) [[2; 4; 3]] [[true; true; true]]
            Fixtures.tok Fixtures.tok 0 Fixtures.w0) = Some (inr [2; 3]) ∧
  ∀ fuel,
    greedy_decode fuel (Fixtures.constant 4) [[2; 4; 3]] [[true; true; true]]
      Fixtures.tok Fixtures.tok 0 Fixtures.w0 = Timeout.
Proof.
  split; [reflexivity|].
  intros fuel. rewrite greedy_decode_unfold, greedy_run_unfold.
  change (token_to_id Fixtures.tok "[SOS]") with (Some 2). cbv beta iota.
  by rewrite constant_loop_diverges.
Qed.

(** ** The end marker at the first step *)

Lemma max_scan_keeps l : ∀ best best_i i,
  (∀ j x, l !! j = Some x → (x <= best)%Q) →
  max_scan best best_i i l = (best, best_i).
Proof.
  induction l as [|y l IH]; intros best best_i i Hall; [reflexivity|].
  simpl. assert (Qle_bool y best = true) as ->.
  { apply Qle_bool_iff. apply (Hall 0%nat). reflexivity. }
  apply IH. intros j x Hj. by apply (Hall (S j)).
Qed.

Lemma max_scan_finds l : ∀ n best best_i i v,
  l !! n = Some v →
  (best < v)%Q →
  (∀ j x, (j < n)%nat → l !! j = Some x → (x < v)%Q) →
  (∀ j x, l !! j = Some x → (x <= v)%Q) →
  max_scan best best_i i l = (v, i + Z.of_nat n).
Proof.
  induction l as [|y l IH]; intros n best best_i i v Hn Hbest Hbefore Hall; [done|].
  assert (∀ j x, l !! j = Some x → (x <= v)%Q) as Hall'.
  { intros j x Hj. by apply (Hall (S j)). }
  destruct n as [|n]; simpl in Hn |- *.
  - injection Hn as ->.
    destruct (Qle_bool v best) eqn:Hle.
    { apply Qle_bool_iff in Hle. exfalso. by apply (Qlt_not_le best v). }
    rewrite max_scan_keeps by exact Hall'. f_equal. lia.
  - assert (y < v)%Q as Hy by (apply (Hbefore 0%nat); [lia|reflexivity]).
    assert (∀ j x, (j < n)%nat → l !! j = Some x → (x < v)%Q) as Hb'.
    { intros j x Hj Hx. apply (Hbefore (S j)); [lia|exact Hx]. }
    destruct (Qle_bool y best).
    + rewrite (IH n best best_i (i + 1) v) by done. f_equal. lia.
    + rewrite (IH n y i (i + 1) v) by done. f_equal. lia.
Qed.

(** [torch.max] returns the first position of the greatest value: the
    index whose value bounds every value and exceeds all those before
    it. *)
Lemma torch_max_first_maximum (row : Tensor1) (n : nat) (v : Q) :
  row !! n = Some v →
  (∀ j x, row !! j = Some x → (x <= v)%Q) →
  (∀ j x, (j < n)%nat → row !! j = Some x → (x < v)%Q) →
  torch_max row = Some (v, Z.of_nat n).
Proof.
  destruct row as [|x0 rest]; [done|]. intros Hn Hall Hbefore. simpl. f_equal.
  assert (∀ j x, rest !! j = Some x → (x <= v)%Q) as Hall'.
  { intros j x Hj. by apply (Hall (S j)). }
  destruct n as [|n]; simpl in Hn.
  - injection Hn as ->. by apply max_scan_keeps.
  - rewrite (max_scan_finds rest n x0 0 1 v); try done.
    + f_equal. lia.
    + apply (Hbefore 0%nat); [lia|reflexivity].
    + intros j x Hj Hx. apply (Hbefore (S j)); [lia|exact Hx].
Qed.

(** A tie goes to the smaller index. *)
Example torch_max_tie : torch_max [5; 0; 0; 5]%Q = Some (5%Q, 0).
Proof. reflexivity. Qed.



(** ** Shape of the decoded sequence *)

Lemma eos_only_last (eos_idx : option Z) (pre : list Z) (t : Z) i x :
  Forall (not_eos eos_idx) pre →
  (pre ++ [t]) !! i = Some x →
  is_eos eos_idx x = true →
  S i = length (pre ++ [t]).
Proof.
  intros Hall Hi Hx. rewrite length_app. simpl.
  destruct (decide (i < length pre)%nat) as [Hlt|Hge].
  - rewrite lookup_app_l in Hi by exact Hlt.
    rewrite Forall_lookup in Hall. specialize (Hall i x Hi). unfold not_eos in Hall. congruence.
  - apply lookup_lt_Some in Hi. rewrite length_app in Hi. simpl in Hi. lia.
Qed.

(** C10.  Whenever [greedy_decode] returns, the sequence begins with the
    id of [SOS], and the end marker occurs in it only as its last element
    (hence at most once): no token appended before the terminating one is
    the end marker. *)
Theorem greedy_decode_sos_first_eos_last model source source_mask tokenizer_src
    tokenizer_tgt max_len fuel w out w' :
  greedy_decode fuel model source source_mask tokenizer_src tokenizer_tgt max_len w
    = Ok out w' →
  ∃ sos rest,
    token_to_id tokenizer_tgt "[SOS]" = Some sos ∧
    out = sos :: rest ∧
    ∀ i t, out !! i = Some t →
           is_eos (token_to_id tokenizer_tgt "[EOS]") t = true →
           S i = length out.
Proof.
  rewrite greedy_decode_unfold.
  destruct (greedy_run _ _ _ _ _ _ _ _) as [[out' how] w''| |] eqn:Hrun; try discriminate.
  intros [= <- <-].
  destruct (greedy_run_shape _ _ _ _ _ _ _ _ _ _ _ Hrun)
    as (sos & appended & evs & Hsos & -> & _ & _ & _ & _ & Hexit).
  exists sos, appended. split; [done|]. split; [done|].
  intros i t Hi Ht.
  pose proof (sos_is_not_eos _ _ Hsos) as Hsos'.
  destruct how.
  - destruct Hexit as [_ Hall]. exfalso.
    assert (Forall (not_eos (token_to_id tokenizer_tgt "[EOS]")) (sos :: appended)) as Hall'
      by (by constructor).
    rewrite Forall_lookup in Hall'. specialize (Hall' i t Hi). unfold not_eos in Hall'.
    congruence.
  - destruct Hexit as (pre & t0 & -> & Hall & Ht0).
    change (sos :: pre ++ [t0]) with ((sos :: pre) ++ [t0]) in *.
    eapply eos_only_last; [|exact Hi|exact Ht]. by constructor.
Qed.

(** A run of the theorem above that ends with the end marker. *)
Lemma greedy_decode_sos_first_eos_last_witness :
  ∃ sos rest,
    token_to_id Fixtures.tok "[SOS]" = Some sos ∧
    [2; 4; 5; 3] = sos :: rest ∧
    ∀ i t, [2; 4; 5; 3] !! i = Some t →
           is_eos (token_to_id Fixtures.tok "[EOS]") t = true →
           S i = length [2; 4; 5; 3].
Proof.
  eapply (greedy_decode_sos_first_eos_last (Fixtures.scripted [4; 5; 3] 4) [[2; 4; 3]]
            [[true; true; true]] Fixtures.tok Fixtures.tok 10 10 Fixtures.w0).
  vm_compute. reflexivity.
Defined.

(** ** The encoder state is computed once *)

Section Recompute.

Variable model : Model.
Variable source : list (list Z).
Variable source_mask : list (list bool).
Variable eos_idx : option Z.
Variable max_len : Z.

Local Abbreviation enc w := (encode model (params w) source source_mask).
Local Abbreviation encode_event w := (EncodeCall (grad_enabled w) source source_mask).

Lemma greedy_loop_recompute_step fuel d w :
  greedy_loop_recompute (S fuel) model source source_mask eos_idx max_len d w =
    if Z.of_nat (length d) =? max_len then Ok (d, LengthBreak) w
    else
      let evs x := encode_event w
                   :: iteration_events (enc w) source_mask (grad_enabled w) d x in
      match iteration model (enc w) source_mask (params w) d with
      | inr (x, next) =>
          if is_eos eos_idx next
          then Ok (d ++ [next], EosBreak) (after w (evs (Some x)))
          else greedy_loop_recompute fuel model source source_mask eos_idx max_len
                 (d ++ [next]) (after w (evs (Some x)))
      | inl (e, x) => Raise e (after w (evs x))
      end.
Proof.
  cbn [greedy_loop_recompute]. destruct (Z.of_nat (length d) =? max_len); [reflexivity|].
  unfold iteration, call_encode, call_decode, call_projection, last_position, next_word_item.
  unfold mbind, M_bind, get, emit, modify, mret, M_ret, raise. cbn.
  destruct (mapM _ _) as [x|]; cbn.
  2:{ f_equal. unfold after, set_log. cbn. by rewrite <- app_assoc. }
  match goal with |- context [set_log ?f (set_log ?g (set_log ?h w))] =>
    assert (set_log f (set_log g (set_log h w))
            = after w (encode_event w
                       :: iteration_events (enc w) source_mask (grad_enabled w) d (Some x)))
      as ->
  end.
  { unfold after, set_log. cbn. by rewrite <- !app_assoc. }
  destruct (map _ x) as [|row [|row' rows]]; cbn; try reflexivity.
  destruct (torch_max row) as [[v i]|]; cbn; [|reflexivity].
  destruct (is_eos eos_idx i); reflexivity.
Qed.

(** From states with the same parameters, the loop that reuses the encoder
    state and the loop that computes it at every step give the same
    answer. *)
Lemma greedy_loop_recompute_answer fuel : ∀ d w1 w2,
  params w1 = params w2 →
  answer (greedy_loop fuel model (enc w1) source_mask eos_idx max_len d w1) =
  answer (greedy_loop_recompute fuel model source source_mask eos_idx max_len d w2).
Proof.
  induction fuel as [|fuel IH]; intros d w1 w2 Hp; [reflexivity|].
  rewrite greedy_loop_step, greedy_loop_recompute_step. cbv zeta.
  destruct (Z.of_nat (length d) =? max_len); [reflexivity|].
  rewrite <- Hp.
  destruct (iteration _ _ _ _ d) as [[e x]|[x next]]; [reflexivity|].
  destruct (is_eos eos_idx next); [reflexivity|].
  rewrite <- (IH (d ++ [next])
                (after w1 (iteration_events (enc w1) source_mask (grad_enabled w1) d (Some x)))
                (after w2 (encode_event w2
                   :: iteration_events (enc w1) source_mask (grad_enabled w2) d (Some x)))).
  - reflexivity.
  - by rewrite !params_after.
Qed.

End Recompute.


(** ** Computations that only add to the log *)

Module Frames.

(** [logs g P m]: run from a state whose gradient switch is [g], [m] changes
    nothing but the log, to which it appends events that satisfy [P]. *)
Definition logs (g : bool) (P : Event → Prop) {A} (m : M A) : Prop :=
  ∀ w, grad_enabled w = g →
    match m w with
    | Ok _ w' | Raise _ w' => ∃ evs, w' = after w evs ∧ Forall P evs
    | Timeout => True
    end.

Lemma logs_ret g P {A} (a : A) : logs g P (mret a).
Proof. intros w _. exists []. by rewrite after_nil. Qed.

Lemma logs_raise g P {A} e : logs g P (raise e : M A).
Proof. intros w _. exists []. by rewrite after_nil. Qed.

Lemma logs_out_of_steps g P {A} : logs g P (out_of_steps : M A).
Proof. by intros w _. Qed.

Lemma logs_emit g (P : Event → Prop) e : P e → logs g P (emit e).
Proof. intros He w _. exists [e]. split; [reflexivity|by constructor]. Qed.

Lemma logs_bind g P {A B} (m : M A) (f : A → M B) :
  logs g P m → (∀ a, logs g P (f a)) → logs g P (m ≫= f).
Proof.
  intros Hm Hf w Hg. specialize (Hm w Hg). unfold mbind, M_bind.
  destruct (m w) as [a w1|e w1|]; [|exact Hm|exact I].
  destruct Hm as (evs1 & -> & H1).
  specialize (Hf a (after w evs1) Hg).
  destruct (f a (after w evs1)) as [b w2|e w2|]; [| |exact I];
    destruct Hf as (evs2 & -> & H2); exists (evs1 ++ evs2);
    (split; [by rewrite after_after|by apply Forall_app]).
Qed.

(** Reading the state changes nothing; what follows may depend on it. *)
Lemma logs_get g P {B} (f : World → M B) :
  (∀ w, grad_enabled w = g → logs g P (f w)) → logs g P (get ≫= f).
Proof. intros Hf w Hg. unfold mbind, M_bind, get. by apply Hf. Qed.

(** The events of a validation run: model calls made with the gradient
    switch at [g], batches taken from the loader, and console output.
    No backward pass, no optimizer step, no file access. *)
Definition quiet (g : bool) (e : Event) : Prop :=
  match e with
  | EncodeCall g' _ _ | DecodeCall g' _ _ _ _ | ProjectionCall g' _ => g' = g
  | NextBatch | Stdout _ | StdoutTensor _ _ | ProgressWrite _ => True
  | _ => False
  end.

Lemma logs_call_encode g model source source_mask :
  logs g (quiet g) (call_encode model source source_mask).
Proof.
  unfold call_encode. apply logs_get. intros w Hg.
  apply logs_bind; [by apply logs_emit|intros _; apply logs_ret].
Qed.

Lemma logs_call_decode g model enc source_mask target target_mask :
  logs g (quiet g) (call_decode model enc source_mask target target_mask).
Proof.
  unfold call_decode. apply logs_get. intros w Hg.
  apply logs_bind; [by apply logs_emit|intros _; apply logs_ret].
Qed.

Lemma logs_call_projection g model x : logs g (quiet g) (call_projection model x).
Proof.
  unfold call_projection. apply logs_get. intros w Hg.
  apply logs_bind; [by apply logs_emit|intros _; apply logs_ret].
Qed.

Lemma logs_greedy_loop g model enc source_mask eos_idx max_len fuel : ∀ d,
  logs g (quiet g) (greedy_loop fuel model enc source_mask eos_idx max_len d).
Proof.
  induction fuel as [|fuel IH]; intros d; [apply logs_out_of_steps|].
  cbn [greedy_loop]. destruct (_ =? _); [apply logs_ret|].
  apply logs_bind; [apply logs_call_decode|intros out].
  apply logs_bind.
  { unfold last_position. destruct (mapM _ _); [apply logs_ret|apply logs_raise]. }
  intros x. apply logs_bind; [apply logs_call_projection|intros prob].
  apply logs_bind.
  { unfold next_word_item. destruct prob as [|row [|? ?]]; try apply logs_raise.
    destruct (torch_max row) as [[? ?]|]; [apply logs_ret|apply logs_raise]. }
  intros next. destruct (is_eos eos_idx next); [apply logs_ret|apply IH].
Qed.

Lemma logs_greedy_decode g model source source_mask tokenizer_src tokenizer_tgt max_len fuel :
  logs g (quiet g)
    (greedy_decode fuel model source source_mask tokenizer_src tokenizer_tgt max_len).
Proof.
  unfold greedy_decode, greedy_run.
  apply logs_bind; [|intros r; apply logs_ret].
  apply logs_bind; [apply logs_call_encode|intros enc].
  apply logs_bind; [|intros d; apply logs_greedy_loop].
  unfold fill_. destruct (token_to_id tokenizer_tgt "[SOS]"); [apply logs_ret|apply logs_raise].
Qed.

Lemma logs_item0 g P {A} (l : list A) : logs g P (item0 l).
Proof. destruct l; [apply logs_raise|apply logs_ret]. Qed.

Lemma logs_assert g P b : logs g P (assert b).
Proof. destruct b; [apply logs_ret|apply logs_raise]. Qed.

Section Validation.

Variable g : bool.
Variable print_msg : string → M unit.
Hypothesis print_msg_quiet : ∀ msg, logs g (quiet g) (print_msg msg).

Lemma logs_validate_batch fuel model batch tokenizer_src tokenizer_tgt max_len :
  logs g (quiet g)
    (validate_batch fuel model batch tokenizer_src tokenizer_tgt max_len print_msg).
Proof.
  unfold validate_batch.
  apply logs_bind; [apply logs_assert|intros _].
  apply logs_bind; [apply logs_greedy_decode|intros model_out].
  apply logs_bind; [by apply logs_emit|intros _].
  apply logs_bind; [apply logs_item0|intros source_text].
  apply logs_bind; [apply logs_item0|intros tgt_text].
  apply logs_bind; [by apply logs_emit|intros _].
  repeat (apply logs_bind; [apply print_msg_quiet|intros _]).
  apply print_msg_quiet.
Qed.

Lemma logs_validation_loop fuel model tokenizer_src tokenizer_tgt max_len num_examples :
  ∀ validation_ds count,
  logs g (quiet g)
    (validation_loop fuel model validation_ds tokenizer_src tokenizer_tgt max_len
       print_msg num_examples count).
Proof.
  induction validation_ds as [|batch rest IH]; intros count; [apply logs_ret|].
  cbn [validation_loop].
  apply logs_bind; [by apply logs_emit|intros _].
  apply logs_bind; [apply logs_validate_batch|intros _].
  destruct (_ =? _); [apply logs_ret|apply IH].
Qed.

End Validation.

(** What [run_validation] leaves as it was, whether it returns or
    raises. *)
Lemma run_validation_frame fuel model validation_ds tokenizer_src tokenizer_tgt max_len
    print_msg global_state num_examples w :
  (∀ msg, logs false (quiet false) (print_msg msg)) →
  match run_validation fuel model validation_ds tokenizer_src tokenizer_tgt max_len
          print_msg global_state num_examples w with
  | Ok _ w' | Raise _ w' =>
      params w' = params w ∧ optimizer w' = optimizer w ∧ files w' = files w ∧
      grad_enabled w' = grad_enabled w ∧
      ∃ evs, log w' = log w ++ evs ∧ Forall (quiet false) evs
  | Timeout => True
  end.
Proof.
  intros Hprint. unfold run_validation, mbind, M_bind, modify, no_grad.
  pose proof (logs_validation_loop false print_msg Hprint fuel model tokenizer_src
                tokenizer_tgt max_len num_examples validation_ds 0
                (set_grad_enabled false (set_training false w)) eq_refl) as Hloop.
  destruct (validation_loop _ _ _ _ _ _ _ _ _ _) as [a w'|e w'|]; [| |exact I];
    destruct Hloop as (evs & -> & Hevs); (repeat split; try reflexivity);
    exists evs; (split; [reflexivity|exact Hevs]).
Qed.

End Frames.
Import Frames.

(** ** The validation runner leaves the model alone *)

(** C9.  [run_validation] changes no model parameter: whether it returns
    or raises, the parameters (and the optimizer state) are what they were
    before the call, for every list of validation batches and every
    [num_examples].  All its model calls are made with gradient computation
    switched off, the switch is put back afterwards, and the run contains
    no backward pass and no optimizer step.  [print_msg] is any callback
    that only writes to the console. *)
Theorem run_validation_preserves_parameters fuel model validation_ds tokenizer_src
    tokenizer_tgt max_len print_msg global_state num_examples w :
  (∀ msg, logs false (quiet false) (print_msg msg)) →
  match run_validation fuel model validation_ds tokenizer_src tokenizer_tgt max_len
          print_msg global_state num_examples w with
  | Ok _ w' | Raise _ w' =>
      params w' = params w ∧
      optimizer w' = optimizer w ∧
      grad_enabled w' = grad_enabled w ∧
      ∃ evs, log w' = log w ++ evs ∧ Forall (quiet false) evs
  | Timeout => True
  end.
Proof.
  intros Hprint.
  pose proof (run_validation_frame fuel model validation_ds tokenizer_src tokenizer_tgt
                max_len print_msg global_state num_examples w Hprint) as Hframe.
  destruct (run_validation _ _ _ _ _ _ _ _ _ _) as [a w'|e w'|]; [| |exact I];
    destruct Hframe as (Hp & Ho & _ & Hg & Hevs); done.
Qed.

(** A run of the theorem above, with the callback of the training loop. *)
Lemma run_validation_preserves_parameters_witness :
  match run_validation 10 (Fixtures.scripted [4; 3] 4) Fixtures.five_batches
          Fixtures.tok Fixtures.tok 10 (λ msg, emit (ProgressWrite msg)) 0 2
          Fixtures.w0 with
  | Ok _ w' | Raise _ w' =>
      params w' = params Fixtures.w0 ∧
      optimizer w' = optimizer Fixtures.w0 ∧
      grad_enabled w' = grad_enabled Fixtures.w0 ∧
      ∃ evs, log w' = log Fixtures.w0 ++ evs ∧ Forall (quiet false) evs
  | Timeout => True
  end.
Proof.
  apply (run_validation_preserves_parameters 10 (Fixtures.scripted [4; 3] 4)
           Fixtures.five_batches Fixtures.tok Fixtures.tok 10
           (λ msg, emit (ProgressWrite msg)) 0 2 Fixtures.w0).
  intros msg. apply logs_emit. exact I.
Defined.

(** The run of the witness does return. *)
Example run_validation_returns :
  answer (run_validation 10 (Fixtures.scripted [4; 3] 4) Fixtures.five_batches
            Fixtures.tok Fixtures.tok 10 (λ msg, emit (ProgressWrite msg)) 0 2
            Fixtures.w0) = Some (inr ()).
Proof. vm_compute. reflexivity. Qed.

(** ** Validation batches hold one example *)

Lemma bind_inv_ok {A B} (m : M A) (f : A → M B) w b w' :
  (m ≫= f) w = Ok b w' → ∃ a w1, m w = Ok a w1 ∧ f a w1 = Ok b w'.
Proof.
  unfold mbind, M_bind. destruct (m w) as [a w1|e w1|]; try discriminate.
  intros H. by exists a, w1.
Qed.

Ltac bind_inv H :=
  let a := fresh "a" in
  let w := fresh "w" in
  let Ha := fresh "Ha" in
  apply bind_inv_ok in H; destruct H as (a & w & Ha & H).

Lemma chunks_one {A} (l : list A) : ∀ fuel,
  (length l ≤ fuel)%nat → chunks fuel 1 l = map (λ x, [x]) l.
Proof.
  induction l as [|x l IH]; intros fuel Hfuel.
  - by destruct fuel.
  - destruct fuel as [|fuel]; [simpl in Hfuel; lia|].
    simpl. rewrite drop_0. f_equal. apply IH. simpl in Hfuel. lia.
Qed.

(** A loader of batch size 1 yields batches of exactly one example. *)
Lemma batches_of_size_one (dl : DataLoader) (order : list nat) :
  loader_batch_size dl = 1%nat →
  Forall (λ b, length (encoder_input b) = 1%nat) (batches dl order).
Proof.
  intros H1. unfold batches. rewrite H1, chunks_one by done.
  rewrite Forall_map. apply Forall_forall. intros chunk Hin.
  apply list_elem_of_In, in_map_iff in Hin. destruct Hin as (x & <- & _). reflexivity.
Qed.

(** C5.  The validation loader that [get_ds] returns has batch size 1, so
    every batch of every pass over it holds exactly one example; and when
    the validation loop takes a batch whose leading dimension is not 1, the
    assertion of line 67 fails at once: [run_validation] raises
    [AssertionError] and the only event since the batch was taken is the
    taking itself, the greedy decoder has not been called on it. *)
Theorem validation_batches_have_size_one
    load_dataset word_level_words encode_ids BilingualDataset randperm format_path config w
    train_data_loader val_data_loader ts tt w'
    fuel model batch rest tokenizer_src tokenizer_tgt max_len print_msg global_state
    num_examples w0 :
  (Training.get_ds load_dataset word_level_words encode_ids BilingualDataset randperm
     format_path config w = Ok (train_data_loader, val_data_loader, ts, tt) w' →
   loader_batch_size val_data_loader = 1%nat ∧
   ∀ order, Forall (λ b, length (encoder_input b) = 1%nat) (batches val_data_loader order)) ∧
  (length (encoder_input batch) ≠ 1%nat →
   (∀ count,
      validation_loop fuel model (batch :: rest) tokenizer_src tokenizer_tgt max_len
        print_msg num_examples count w0
      = Raise AssertionError (after w0 [NextBatch])) ∧
   ∃ w1,
     run_validation fuel model (batch :: rest) tokenizer_src tokenizer_tgt max_len
       print_msg global_state num_examples w0 = Raise AssertionError w1 ∧
     log w1 = log w0 ++ [NextBatch]).
Proof.
  split.
  - intros H. unfold Training.get_ds in H.
    do 10 bind_inv H.
    unfold mret, M_ret in H. injection H as <- <- <- <- <-.
    match goal with
    | Hdl : Training.new_DataLoader ?ds 1 _ = Ok _ _ |- _ =>
        unfold Training.new_DataLoader in Hdl; destruct ds; [discriminate|];
        simpl in Hdl; injection Hdl as <- _
    end.
    split; [reflexivity|]. intros order. by apply batches_of_size_one.
  - intros Hsize.
    assert (∀ count w2,
      validation_loop fuel model (batch :: rest) tokenizer_src tokenizer_tgt max_len
        print_msg num_examples count w2 = Raise AssertionError (after w2 [NextBatch])) as Hloop.
    { intros count w2. cbn [validation_loop]. unfold validate_batch.
      destruct (Nat.eqb_spec (length (encoder_input batch)) 1) as [|_]; [done|].
      reflexivity. }
    split; [intros count; apply Hloop|].
    unfold run_validation, mbind, M_bind, modify, no_grad. rewrite Hloop.
    eexists. split; reflexivity.
Qed.

(** A run of the theorem above: the loader of the three-sentence corpus, and
    a batch of two examples at the head of the validation loop. *)
Lemma validation_batches_have_size_one_witness :
  (∀ order, Forall (λ b, length (encoder_input b) = 1%nat)
              (batches Fixtures.toy_val_loader order)) ∧
  validation_loop 10 (Fixtures.scripted [4; 3] 4) (Fixtures.pair_batch :: Fixtures.five_batches)
    Fixtures.tok Fixtures.tok 10 (λ msg, emit (ProgressWrite msg)) 2 0 Fixtures.w0
  = Raise AssertionError (after Fixtures.w0 [NextBatch]).
Proof.
  split.
  - refine (proj2 (proj1 (validation_batches_have_size_one
              Fixtures.toy_load_dataset Fixtures.toy_words Fixtures.toy_encode_ids
              Fixtures.toy_BilingualDataset Fixtures.toy_randperm Fixtures.toy_format_path
              Fixtures.toy_config
              Fixtures.w0 _ Fixtures.toy_val_loader _ _ _
              10 (Fixtures.scripted [4; 3] 4) Fixtures.pair_batch Fixtures.five_batches
              Fixtures.tok Fixtures.tok 10 (λ msg, emit (ProgressWrite msg)) 0 2
              Fixtures.w0) _)).
    vm_compute. reflexivity.
  - refine (proj1 (proj2 (validation_batches_have_size_one
              Fixtures.toy_load_dataset Fixtures.toy_words Fixtures.toy_encode_ids
              Fixtures.toy_BilingualDataset Fixtures.toy_randperm Fixtures.toy_format_path
              Fixtures.toy_config
              Fixtures.w0 Fixtures.toy_val_loader Fixtures.toy_val_loader
              Fixtures.tok Fixtures.tok Fixtures.w0
              10 (Fixtures.scripted [4; 3] 4) Fixtures.pair_batch Fixtures.five_batches
              Fixtures.tok Fixtures.tok 10 (λ msg, emit (ProgressWrite msg)) 0 2
              Fixtures.w0) _) 0).
    simpl. lia.
Defined.

(** ** The validation runner stops after [num_examples] batches *)

Module ValidationProofs.

Definition is_next_batch (e : Event) : bool :=
  match e with
  | NextBatch => true
  | _ => false
  end.

(** The number of batches taken from the loader in a stretch of the log. *)
Definition batches_taken (evs : list Event) : nat :=
  length (List.filter is_next_batch evs).

(** The lines handed to the progress bar in a stretch of the log. *)
Definition progress_writes (evs : list Event) : list string :=
  omap (λ e, match e with ProgressWrite s => Some s | _ => None end) evs.

Lemma batches_taken_app evs1 evs2 :
  batches_taken (evs1 ++ evs2) = (batches_taken evs1 + batches_taken evs2)%nat.
Proof. unfold batches_taken. by rewrite List.filter_app, length_app. Qed.

Lemma progress_writes_app evs1 evs2 :
  progress_writes (evs1 ++ evs2) = progress_writes evs1 ++ progress_writes evs2.
Proof. unfold progress_writes. apply omap_app. Qed.

Lemma reuses_no_batch enc evs :
  Forall (reuses enc) evs → batches_taken evs = 0%nat ∧ progress_writes evs = [].
Proof.
  induction 1 as [|e evs He _ [IH1 IH2]]; [done|].
  unfold batches_taken, progress_writes in *. destruct e; simpl in *; done.
Qed.

(** The model answers every decoding step: the decoder returns one sequence
    of at least one position and the projection a non-empty row. *)
Definition answers (model : Model) (θ : StateDict) : Prop :=
  ∀ enc mask d, ∃ x next, iteration model enc mask θ d = inr (x, next).

(** A batch that the body of the loop can report on. *)
Definition ready (b : Batch) : Prop :=
  length (encoder_input b) = 1%nat ∧ src_text b ≠ [] ∧ tgt_text b ≠ [].

(** The report that the loop prints for a batch whose decoded sequence
    is [out]. *)
Definition report_of (tokenizer_tgt : Tokenizer) (b : Batch) (out : list Z) : list string :=
  report (hd "" (src_text b)) (hd "" (tgt_text b)) (Tokenizers.decode tokenizer_tgt out).

Section Runner.

Variable fuel : nat.
Variable model : Model.
Variable tokenizer_src tokenizer_tgt : Tokenizer.
Variable max_len : Z.

Local Abbreviation print_msg := (λ msg : string, emit (ProgressWrite msg)).

(** [out] is what the greedy decoder returns for the batch from some state
    with the parameters [θ]. *)
Definition decoded_by (θ : StateDict) (b : Batch) (out : list Z) : Prop :=
  ∃ w, params w = θ ∧
       answer (greedy_decode fuel model (encoder_input b) (encoder_mask b)
                 tokenizer_src tokenizer_tgt max_len w) = Some (inr out).

(** With its early exit the loop does what the plain loop does on the first
    [num_examples - count] batches. *)
Lemma validation_loop_take pm num_examples : ∀ bs count w,
  count < num_examples →
  validation_loop fuel model bs tokenizer_src tokenizer_tgt max_len pm num_examples count w =
  validate_all fuel model (take (Z.to_nat (num_examples - count)) bs)
    tokenizer_src tokenizer_tgt max_len pm w.
Proof.
  induction bs as [|b rest IH]; intros count w Hlt.
  - by rewrite take_nil.
  - replace (Z.to_nat (num_examples - count))
      with (S (Z.to_nat (num_examples - (count + 1)))) by lia.
    cbn [validation_loop validate_all take]. unfold mbind, M_bind.
    destruct (emit NextBatch w) as [[] w1| |]; try reflexivity.
    destruct (validate_batch _ _ _ _ _ _ _ w1) as [[] w2| |]; try reflexivity.
    destruct (Z.eqb_spec (count + 1) num_examples) as [Heq|Hne].
    + replace (Z.to_nat (num_examples - (count + 1))) with 0%nat by lia.
      by rewrite take_0.
    + apply IH. lia.
Qed.

Lemma loop_run_raised enc mask eos_idx θ g d e evs :
  loop_run model enc mask eos_idx max_len θ g d (Raised e) evs →
  ∃ d' x, iteration model enc mask θ d' = inl (e, x).
Proof.
  intros Hrun. remember (Raised e) as o eqn:Ho.
  induction Hrun; try discriminate; [by apply IHHrun|].
  injection Ho as ->. eauto.
Qed.

(** A model that answers every step makes the decoder return. *)
Lemma greedy_decode_returns source source_mask sos w :
  answers model (params w) →
  token_to_id tokenizer_tgt "[SOS]" = Some sos →
  1 ≤ max_len → (Z.to_nat max_len ≤ fuel)%nat →
  ∃ out evs,
    greedy_decode fuel model source source_mask tokenizer_src tokenizer_tgt max_len w
      = Ok out (after w (EncodeCall (grad_enabled w) source source_mask :: evs)) ∧
    Forall (reuses (encode model (params w) source source_mask)) evs.
Proof.
  intros Hans Hsos Hmax Hfuel.
  pose proof (greedy_run_total model source source_mask tokenizer_src tokenizer_tgt
                max_len fuel w Hmax Hfuel) as Htotal.
  rewrite greedy_decode_unfold.
  destruct (greedy_run_sound model source source_mask tokenizer_src tokenizer_tgt
              max_len fuel w) as [Ht|[[Hnone _]|(sos' & o & evs & _ & Hloop & Hr)]];
    cbv zeta in *; [done|congruence|].
  rewrite Hr. destruct o as [out how|e].
  - exists out, evs. split; [reflexivity|]. by eapply loop_run_reuses.
  - apply loop_run_raised in Hloop. destruct Hloop as (d' & x & Hit).
    destruct (Hans (encode model (params w) source source_mask) source_mask d')
      as (x' & next & Hit').
    congruence.
Qed.

End Runner.

End ValidationProofs.
Import ValidationProofs.

Section RunnerReturns.

Variable fuel : nat.
Variable model : Model.
Variable tokenizer_src tokenizer_tgt : Tokenizer.
Variable max_len : Z.
Variable sos : Z.
Hypothesis sos_known : token_to_id tokenizer_tgt "[SOS]" = Some sos.
Hypothesis max_len_positive : 1 ≤ max_len.
Hypothesis enough_fuel : (Z.to_nat max_len ≤ fuel)%nat.

Local Abbreviation print_msg := (λ msg : string, emit (ProgressWrite msg)).

(** On a batch that is ready, the body of the loop returns: it has run the
    greedy decoder once and handed the report of the batch to the progress
    bar. *)
Lemma validate_batch_returns b w :
  answers model (params w) →
  ready b →
  ∃ out evs,
    decoded_by fuel model tokenizer_src tokenizer_tgt max_len (params w) b out ∧
    validate_batch fuel model b tokenizer_src tokenizer_tgt max_len print_msg w
      = Ok () (after w evs) ∧
    batches_taken evs = 0%nat ∧
    encode_calls evs = 1%nat ∧
    progress_writes evs = report_of tokenizer_tgt b out.
Proof.
  intros Hans (Hone & Hsrc & Htgt).
  destruct (greedy_decode_returns fuel model tokenizer_src tokenizer_tgt max_len
              (encoder_input b) (encoder_mask b) sos w Hans sos_known max_len_positive
              enough_fuel) as (out & evs & Hdec & Hre).
  destruct (reuses_no_batch _ _ Hre) as [Hnb Hnw].
  pose proof (encode_calls_reuses _ _ Hre) as Hne.
  exists out.
  exists (EncodeCall (grad_enabled w) (encoder_input b) (encoder_mask b) :: evs
          ++ [StdoutTensor "Model Out: " out;
              Stdout ("Decoded Text: " ++ Tokenizers.decode tokenizer_tgt out)%string]
          ++ map ProgressWrite (report_of tokenizer_tgt b out)).
  split; [exists w; by rewrite Hdec|].
  unfold report_of, report, validate_batch.
  generalize (repeat_string "-" console_width). intros dashes.
  split.
  - rewrite Hone. cbn [Nat.eqb assert].
    unfold mbind at 1. unfold M_bind at 1. cbn [mret M_ret].
    rewrite (bind_ok _ _ _ _ _ Hdec).
    destruct (src_text b) as [|s ?]; [done|]. destruct (tgt_text b) as [|t ?]; [done|].
    rewrite (bind_ok _ _ _ _ _ (emit_after _ _)).
    rewrite (bind_ok (item0 (s :: _)) _ _ _ _ eq_refl).
    rewrite (bind_ok (item0 (t :: _)) _ _ _ _ eq_refl).
    do 4 rewrite (bind_ok _ _ _ _ _ (emit_after _ _)).
    rewrite emit_after, !after_after. reflexivity.
  - change (?e :: evs ++ ?l) with ([e] ++ evs ++ l).
    rewrite !batches_taken_app, !encode_calls_app, !progress_writes_app, Hnb, Hnw, Hne.
    repeat split; reflexivity.
Qed.

(** The plain loop over batches that are all ready returns, having taken
    each batch, run the decoder on it and reported on it, in order. *)
Lemma validate_all_returns : ∀ bs w,
  answers model (params w) →
  Forall ready bs →
  ∃ outs evs,
    Forall2 (decoded_by fuel model tokenizer_src tokenizer_tgt max_len (params w)) bs outs ∧
    validate_all fuel model bs tokenizer_src tokenizer_tgt max_len print_msg w
      = Ok () (after w evs) ∧
    batches_taken evs = length bs ∧
    encode_calls evs = length bs ∧
    progress_writes evs = concat (zip_with (report_of tokenizer_tgt) bs outs).
Proof.
  induction bs as [|b rest IH]; intros w Hans Hready.
  - exists [], []. rewrite after_nil. repeat split. constructor.
  - apply Forall_cons in Hready. destruct Hready as [Hb Hrest].
    destruct (validate_batch_returns b (after w [NextBatch]) Hans Hb)
      as (out & evs1 & Hout & Hrun1 & Hb1 & He1 & Hw1).
    destruct (IH (after (after w [NextBatch]) evs1) Hans Hrest)
      as (outs & evs2 & Houts & Hrun2 & Hb2 & He2 & Hw2).
    exists (out :: outs), ([NextBatch] ++ evs1 ++ evs2). split; [by constructor|]. split.
    + cbn [validate_all].
      rewrite (bind_ok _ _ _ _ _ (emit_after NextBatch w)).
      rewrite (bind_ok _ _ _ _ _ Hrun1), Hrun2. by rewrite !after_after.
    + rewrite !batches_taken_app, !encode_calls_app, !progress_writes_app.
      rewrite Hb1, Hb2, He1, He2, Hw1, Hw2. repeat split.
Qed.

End RunnerReturns.



(** The default: of five available batches exactly two are processed. *)
Example run_validation_default_two_of_five :
  ∃ w',
    run_validation 10 (Fixtures.scripted [4; 3] 4) Fixtures.five_batches
      Fixtures.tok Fixtures.tok 10 (λ msg, emit (ProgressWrite msg)) 0
      default_num_examples Fixtures.w0 = Ok () w' ∧
    batches_taken (log w') = 2%nat ∧
    encode_calls (log w') = 2%nat ∧
    progress_writes (log w')
    = report "hello" "hallo" "hello" ++ report "hello" "hallo" "hello".
Proof. eexists. vm_compute. repeat split. Qed.


(** ** The causal mask *)

Lemma lookup_map {A B} (f : A → B) (l : list A) : ∀ i, map f l !! i = f <$> (l !! i).
Proof. induction l as [|x l IH]; intros [|i]; simpl; auto. Qed.

Lemma causal_mask_entry (L i j : nat) :
  (i < L)%nat → (j < L)%nat → entry (causal_mask L) i j = Some (j <=? i)%nat.
Proof.
  intros Hi Hj. unfold entry, causal_mask.
  rewrite lookup_map, lookup_seq_lt by exact Hi. simpl.
  rewrite lookup_map, lookup_seq_lt by exact Hj. reflexivity.
Qed.

(** C3.  For every length [L >= 1] the causal mask is an L x L boolean
    matrix whose entry (i, j) is [true] (allowed) if and only if [j <= i]:
    it is lower-triangular with the diagonal, and every position strictly
    above the diagonal is [false] (forbidden). *)
Theorem causal_mask_lower_triangular (L i j : nat) :
  (1 ≤ L)%nat → (i < L)%nat → (j < L)%nat →
  length (causal_mask L) = L ∧
  Forall (λ row, length row = L) (causal_mask L) ∧
  (entry (causal_mask L) i j = Some true ↔ (j ≤ i)%nat) ∧
  (entry (causal_mask L) i j = Some false ↔ (i < j)%nat).
Proof.
  intros _ Hi Hj. split; [|split].
  - unfold causal_mask. by rewrite length_map, length_seq.
  - unfold causal_mask. rewrite Forall_map. apply Forall_forall. intros k _. simpl.
    by rewrite length_map, length_seq.
  - rewrite causal_mask_entry by done.
    destruct (Nat.leb_spec j i); split; split; intros H'; try done; try lia.
Qed.

(** The mask of length 3 at the entry (1, 2), above the diagonal. *)
Lemma causal_mask_lower_triangular_witness :
  length (causal_mask 3) = 3%nat ∧
  Forall (λ row, length row = 3%nat) (causal_mask 3) ∧
  (entry (causal_mask 3) 1 2 = Some true ↔ (2 ≤ 1)%nat) ∧
  (entry (causal_mask 3) 1 2 = Some false ↔ (1 < 2)%nat).
Proof. apply (causal_mask_lower_triangular 3 1 2); lia. Defined.

Example causal_mask_3 :
  causal_mask 3 = [[true; false; false]; [true; true; false]; [true; true; true]].
Proof. reflexivity. Qed.

(** ** Checkpoints *)

Module CheckpointProofs.

(** [keeps proj m]: on every way out of [m] the component [proj] of the
    state is what it was. *)
Definition keeps {X} (proj : World → X) {A} (m : M A) : Prop :=
  ∀ w, match m w with
       | Ok _ w' | Raise _ w' => proj w' = proj w
       | Timeout => True
       end.

Lemma keeps_ret {X} (proj : World → X) {A} (a : A) : keeps proj (mret a).
Proof. by intros w. Qed.

Lemma keeps_raise {X} (proj : World → X) {A} e : keeps proj (raise e : M A).
Proof. by intros w. Qed.

Lemma keeps_modify {X} (proj : World → X) (f : World → World) :
  (∀ w, proj (f w) = proj w) → keeps proj (modify f).
Proof. intros H w. apply H. Qed.

Lemma keeps_emit {X} (proj : World → X) e :
  (∀ w evs, proj (after w evs) = proj w) → keeps proj (emit e).
Proof. intros H w. apply (H w [e]). Qed.

Lemma keeps_bind {X} (proj : World → X) {A B} (m : M A) (f : A → M B) :
  keeps proj m → (∀ a, keeps proj (f a)) → keeps proj (m ≫= f).
Proof.
  intros Hm Hf w. specialize (Hm w). unfold mbind, M_bind.
  destruct (m w) as [a w1|e w1|]; [|exact Hm|exact I].
  specialize (Hf a w1). destruct (f a w1); [| |exact I]; congruence.
Qed.

Lemma keeps_get {X} (proj : World → X) {B} (f : World → M B) :
  (∀ w, keeps proj (f w)) → keeps proj (get ≫= f).
Proof. intros Hf w. unfold mbind, M_bind, get. apply Hf. Qed.

Ltac keeps_step :=
  first
    [ apply keeps_ret
    | apply keeps_raise
    | apply keeps_emit; reflexivity
    | apply keeps_modify; reflexivity
    | apply keeps_get; intros ?
    | apply keeps_bind; [|intros ?] ].

Lemma keeps_files_call_encode model source source_mask :
  keeps files (call_encode model source source_mask).
Proof. unfold call_encode. repeat keeps_step. Qed.

Lemma keeps_files_call_decode model enc source_mask target target_mask :
  keeps files (call_decode model enc source_mask target target_mask).
Proof. unfold call_decode. repeat keeps_step. Qed.

(** What leaves the files alone leaves every single file alone. *)
Lemma keeps_file {A} (m : M A) p : keeps files m → keeps (λ w, files w !! p) m.
Proof. intros H w. specialize (H w). destruct (m w); [| |done]; by rewrite H. Qed.

(** Writing a scalar touches the event file of the writer only. *)
Lemma keeps_other_add_scalar writer tag value step p :
  p ≠ writer → keeps (λ w, files w !! p) (Training.add_scalar writer tag value step).
Proof.
  intros Hp. unfold Training.add_scalar.
  apply keeps_bind; [apply keeps_emit; reflexivity|intros _].
  apply keeps_modify. intros w. cbn. by apply lookup_insert_ne.
Qed.

Lemma keeps_other_train_batch autograd Adam config model writer tokenizer_src tokenizer_tgt
    batch global_step p :
  p ≠ writer →
  keeps (λ w, files w !! p)
    (Training.train_batch autograd Adam config model writer tokenizer_src tokenizer_tgt
       batch global_step).
Proof.
  intros Hp. unfold Training.train_batch.
  apply keeps_bind; [apply keeps_file, keeps_files_call_encode|intros enc].
  apply keeps_bind; [apply keeps_file, keeps_files_call_decode|intros dec].
  apply keeps_bind; [unfold Training.call_projection_all; repeat keeps_step|intros proj].
  apply keeps_bind.
  { unfold Training.batch_loss. destruct (view_rows _ _); [|apply keeps_raise].
    destruct (Training.loss_fn _ _ _ _); repeat keeps_step. }
  intros loss.
  apply keeps_bind; [apply keeps_emit; reflexivity|intros _].
  apply keeps_bind; [by apply keeps_other_add_scalar|intros _].
  repeat keeps_step.
Qed.

Lemma keeps_other_train_batches autograd Adam config model writer tokenizer_src
    tokenizer_tgt p :
  p ≠ writer →
  ∀ bs global_step,
  keeps (λ w, files w !! p)
    (Training.train_batches autograd Adam config model writer tokenizer_src tokenizer_tgt
       bs global_step).
Proof.
  intros Hp. induction bs as [|b rest IH]; intros gs; [apply keeps_ret|].
  cbn [Training.train_batches].
  apply keeps_bind; [apply keeps_emit; reflexivity|intros _].
  apply keeps_bind; [by apply keeps_other_train_batch|intros gs'; apply IH].
Qed.

Lemma keeps_files_iterate randperm dl : keeps files (Training.iterate randperm dl).
Proof. unfold Training.iterate, Training.draw_permutation. repeat keeps_step. Qed.

End CheckpointProofs.
Import CheckpointProofs.

Module PathProofs.

Lemma length_append (a b : string) :
  String.length (a +:+ b) = (String.length a + String.length b)%nat.
Proof. induction a as [|c a IH]; simpl; [reflexivity|by rewrite IH]. Qed.

Lemma append_inv_head (p x y : string) : p +:+ x = p +:+ y → x = y.
Proof. induction p as [|c p IH]; simpl; [done|]. intros [= H]. by apply IH. Qed.

Lemma append_inv_tail (s : string) : ∀ x y : string, x +:+ s = y +:+ s → x = y.
Proof.
  intros x y H.
  assert (String.length x = String.length y) as Hlen.
  { apply (f_equal String.length) in H. rewrite !length_append in H. lia. }
  revert y H Hlen. induction x as [|c x IH]; intros [|c' y] H Hlen; simpl in *;
    try done.
  injection H as -> H. f_equal. apply IH; [done|lia].
Qed.

(** The decimal text of an integer is never empty. *)
Lemma string_of_uint_length (u : uint) :
  (1 ≤ String.length (NilZero.string_of_uint u))%nat.
Proof. destruct u; simpl; lia. Qed.

(** Reading back what [format_02d] writes gives the number. *)
Lemma parse_format_02d (n : Z) :
  option_map Z.of_int (NilZero.int_of_string (format_02d n)) = Some n.
Proof.
  unfold format_02d.
  assert (Z.to_int n ≠ Pos Nil ∧ Z.to_int n ≠ Neg Nil) as [Hp Hn].
  { destruct n as [|p|p]; simpl; split; try discriminate;
      intros [= H]; by apply (DecimalPos.Unsigned.to_uint_nonnil p). }
  destruct (String.length _ <? 2)%nat eqn:Hshort.
  - destruct n as [|p|p].
    + reflexivity.
    + cbn [Z.to_int NilZero.string_of_int] in *.
      pose proof (DecimalPos.Unsigned.to_uint_nonnil p) as Hnil.
      pose proof (NilZero.usu _ Hnil) as Husu.
      destruct (NilZero.string_of_uint (Pos.to_uint p)) as [|c s] eqn:Hs; [done|].
      cbn [NilZero.uint_of_string] in Husu.
      change ("0" +:+ String c s) with (String "0" (String c s)).
      cbn [NilZero.int_of_string NilZero.uint_of_string NilEmpty.uint_of_string].
      change ("0" =? "-")%char with false. cbv iota.
      cbn [NilEmpty.uint_of_string] in Husu. rewrite Husu.
      transitivity (Some (Z.of_int (Z.to_int (Z.pos p)))); [reflexivity|].
      by rewrite DecimalZ.of_to.
    + cbn [Z.to_int NilZero.string_of_int] in Hshort.
      pose proof (string_of_uint_length (Pos.to_uint p)) as Hlen.
      apply Nat.ltb_lt in Hshort. simpl in Hshort. lia.
  - rewrite NilZero.isi by done. simpl. by rewrite DecimalZ.of_to.
Qed.

Lemma format_02d_inj (a b : Z) : format_02d a = format_02d b → a = b.
Proof.
  intros H. pose proof (parse_format_02d a) as Ha. rewrite H, parse_format_02d in Ha.
  by injection Ha.
Qed.

Lemma get_weights_file_path_inj ext config (s1 s2 : string) :
  get_weights_file_path ext config s1 = get_weights_file_path ext config s2 → s1 = s2.
Proof.
  unfold get_weights_file_path. intros H.
  do 5 apply append_inv_head in H. by apply append_inv_tail in H.
Qed.

(** Different epochs are saved under different paths. *)
Lemma epoch_paths_differ ext config (e1 e2 : Z) :
  e1 ≠ e2 →
  get_weights_file_path ext config (format_02d e1)
  ≠ get_weights_file_path ext config (format_02d e2).
Proof.
  intros Hne H. apply Hne. by apply format_02d_inj, (get_weights_file_path_inj ext config).
Qed.

End PathProofs.
Import PathProofs.

Module TrainingProofs.

Lemma keeps_ok {X} (proj : World → X) {A} (m : M A) w a w' :
  keeps proj m → m w = Ok a w' → proj w' = proj w.
Proof. intros Hk Hm. specialize (Hk w). by rewrite Hm in Hk. Qed.

Section Training.

Variable randperm : nat → nat → list nat.
Variable autograd : Model → StateDict → Batch → option Z → StateDict.
Variable Adam : Q → StateDict → StateDict → StateDict → StateDict * StateDict.
Variable ext : string.
Variable state_dict_matches : StateDict → StateDict → bool.
Variable partly_loaded : StateDict → StateDict → StateDict.
Variable optimizer_accepts : StateDict → StateDict → bool.
Variable fuel : nat.
Variable config : Config.
Variable model : Model.
Variable writer : string.
Variable train_data_loader val_data_loader : DataLoader.
Variable tokenizer_src tokenizer_tgt : Tokenizer.

Local Abbreviation path e := (get_weights_file_path ext config (format_02d e)).
Local Abbreviation epoch_body :=
  (Training.run_epoch randperm autograd Adam ext fuel config model writer train_data_loader
     val_data_loader tokenizer_src tokenizer_tgt).
Local Abbreviation epochs_loop :=
  (Training.epoch_loop randperm autograd Adam ext fuel config model writer train_data_loader
     val_data_loader tokenizer_src tokenizer_tgt).

(** The checkpoint of an epoch: the epoch index, the parameters and the
    optimizer state as they are at the end of the epoch, and the global
    step reached. *)
Definition checkpoint_of (e : Z) (w : World) (global_step : Z) : Checkpoint :=
  {| epoch := e;
     model_state_dict := params w;
     optimizer_state_dict := optimizer w;
     global_step := global_step |}.

(** An epoch that completes ends by writing its checkpoint under its own
    path; the only other file that it touches is the event file of the
    metric writer. *)
Lemma run_epoch_saves e gs w gs' w' :
  epoch_body e gs w = Ok gs' w' →
  files w' !! path e = Some (CheckpointFile (checkpoint_of e w' gs')) ∧
  (∀ p, p ≠ path e → p ≠ writer → files w' !! p = files w !! p) ∧
  ∃ evs, log w' = evs ++ [TorchSave (path e) (checkpoint_of e w' gs')].
Proof.
  unfold Training.run_epoch. intros H.
  apply bind_inv_ok in H as ([] & w1 & H1 & H).
  apply bind_inv_ok in H as (bs & w2 & H2 & H).
  apply bind_inv_ok in H as (gs1 & w3 & H3 & H).
  apply bind_inv_ok in H as (vbs & w4 & H4 & H).
  apply bind_inv_ok in H as ([] & w5 & H5 & H).
  apply bind_inv_ok in H as (w6 & w6' & H6 & H).
  apply bind_inv_ok in H as ([] & w7 & H7 & H).
  injection H as <- <-. injection H6 as <- <-. injection H1 as <-.
  unfold Training.torch_save, mbind, M_bind, modify, emit in H7. injection H7 as <-.
  split; [cbn; apply lookup_insert_eq|]. split; [|eexists; reflexivity].
  intros p Hp Hw. cbn. rewrite lookup_insert_ne by done.
  apply (keeps_ok files) in H2; [|apply keeps_files_iterate].
  apply (keeps_ok (λ w, files w !! p)) in H3; [|by apply keeps_other_train_batches].
  apply (keeps_ok files) in H4; [|apply keeps_files_iterate].
  pose proof (run_validation_frame fuel model vbs tokenizer_src tokenizer_tgt
                (seq_len config) (λ msg, emit (ProgressWrite msg)) gs1
                default_num_examples w4 (λ msg, logs_emit false _ _ I)) as Hval.
  rewrite H5 in Hval. destruct Hval as (_ & _ & Hfiles & _).
  cbn in H3. by rewrite Hfiles, H4, H3, H2.
Qed.

(** After a loop over distinct epochs none of which is saved under the
    path of the event file, the file of each epoch holds the checkpoint of
    that epoch, and every other file but the event file is as it was. *)
Lemma epoch_loop_saves : ∀ epochs gs w gs' w',
  NoDup epochs →
  (∀ e, e ∈ epochs → path e ≠ writer) →
  epochs_loop epochs gs w = Ok gs' w' →
  (∀ e, e ∈ epochs →
        ∃ c, files w' !! path e = Some (CheckpointFile c) ∧ epoch c = e) ∧
  (∀ p, (∀ e, e ∈ epochs → p ≠ path e) → p ≠ writer → files w' !! p = files w !! p).
Proof.
  induction epochs as [|e rest IH]; intros gs w gs' w' Hnd Hwriter H.
  - injection H as <- <-. split; [intros e He; by apply elem_of_nil in He|done].
  - cbn [Training.epoch_loop] in H.
    apply bind_inv_ok in H as (gs1 & w1 & H1 & H).
    apply NoDup_cons in Hnd as [Hnotin Hnd].
    assert (∀ e', e' ∈ rest → path e' ≠ writer) as Hwriter'.
    { intros e' He'. apply Hwriter. by right. }
    destruct (IH gs1 w1 gs' w' Hnd Hwriter' H) as [IHin IHout].
    destruct (run_epoch_saves _ _ _ _ _ H1) as (Hsaved & Hothers & _).
    split.
    + intros e' He'. apply elem_of_cons in He' as [->|He']; [|by apply IHin].
      exists (checkpoint_of e w1 gs1). split; [|reflexivity].
      rewrite IHout; [exact Hsaved| |apply Hwriter; by left].
      intros e' He'. apply epoch_paths_differ. intros ->. done.
    + intros p Hp Hw. rewrite IHout.
      * apply Hothers; [|done]. apply Hp. by left.
      * intros e' He'. apply Hp. by right.
      * done.
Qed.

(** Restoring a selected checkpoint that the model and the optimizer
    accept: the parameters and the optimizer state are those of the file,
    the first epoch is the one after the saved epoch and the global step
    is the saved one. *)
Lemma restore_resumes w model_filename c :
  Training.preload_filename ext config (files w) = Some model_filename →
  model_filename ≠ "" →
  files w !! model_filename = Some (CheckpointFile c) →
  state_dict_matches (params w) (model_state_dict c) = true →
  optimizer_accepts (model_state_dict c) (optimizer_state_dict c) = true →
  ∃ w',
    Training.restore ext state_dict_matches partly_loaded optimizer_accepts config w
      = Ok (epoch c + 1, global_step c) w' ∧
    params w' = model_state_dict c ∧
    optimizer w' = optimizer_state_dict c ∧
    files w' = files w ∧
    rng w' = rng w.
Proof.
  intros Hsel Hne Hfile Hmodel Hopt. unfold Training.restore, mbind, M_bind, get. rewrite Hsel.
  destruct (String.eqb_spec model_filename "") as [|_]; [done|].
  unfold Training.torch_load, Training.load_state_dict, Training.optimizer_load_state_dict,
    mbind, M_bind, get, emit, modify. cbn.
  rewrite Hfile. cbn. rewrite Hmodel. cbn. rewrite Hopt. eexists. repeat split.
Qed.

End Training.

End TrainingProofs.
Import TrainingProofs.

(** ** Checkpoints of the training loop *)

Section Checkpoints.

Variable cuda_is_available : bool.
Variable load_dataset : string → string → list (gmap string string).
Variable word_level_words : list string → list string.
Variable encode_ids : Tokenizer → string → list Z.
Variable BilingualDataset :
  list (gmap string string) → Tokenizer → Tokenizer → string → string → Z
  → option (list Example).
Variable randperm : nat → nat → list nat.
Variable build_transformer : Z → Z → Z → Z → Z → Model.
Variable initial_state_dict : nat → Z → Z → Z → Z → Z → StateDict.
Variable autograd : Model → StateDict → Batch → option Z → StateDict.
Variable Adam : Q → StateDict → StateDict → StateDict → StateDict * StateDict.
Variable ext : string.
Variable format_path : string → string → exn + string.
Variable event_file : string → string.
Variable state_dict_matches : StateDict → StateDict → bool.
Variable partly_loaded : StateDict → StateDict → StateDict.
Variable optimizer_accepts : StateDict → StateDict → bool.
Variable fuel : nat.
Variable config : Config.

Local Abbreviation path e := (get_weights_file_path ext config (format_02d e)).
Local Abbreviation train :=
  (Training.train_model cuda_is_available load_dataset word_level_words encode_ids BilingualDataset
     randperm build_transformer initial_state_dict autograd Adam ext format_path event_file
     state_dict_matches partly_loaded optimizer_accepts fuel config).
Local Abbreviation load_data :=
  (Training.prepare cuda_is_available load_dataset word_level_words encode_ids
     BilingualDataset randperm format_path config).

(** The event file of the run, line 172. *)
Definition writer_of : string := event_file (experiment_name config).

(** The parameters with which the model is built, line 168. *)
Definition fresh_params (tokenizer_src tokenizer_tgt : Tokenizer) (w : World) : StateDict :=
  initial_state_dict (rng w) (get_vocab_size tokenizer_src) (get_vocab_size tokenizer_tgt)
    (seq_len config) (seq_len config) (d_model config).

(** The state in which [train_model] reaches line 176: the model has been
    built with fresh parameters, the event file of the metric writer has
    been created and the optimizer is new. *)
Definition initialised (tokenizer_src tokenizer_tgt : Tokenizer) (w : World) : World :=
  set_optimizer (λ _, ∅)
    (set_files (insert writer_of (EventFile []))
       (set_rng (S (rng w))
          (set_params (λ _, fresh_params tokenizer_src tokenizer_tgt w) w))).

(** [train_model] from line 176 on. *)
Lemma train_model_unfold w train_data_loader val_data_loader tokenizer_src tokenizer_tgt w1 :
  load_data w = Ok (train_data_loader, val_data_loader, tokenizer_src, tokenizer_tgt) w1 →
  train w =
    (Training.restore ext state_dict_matches partly_loaded optimizer_accepts config
     ≫= λ start,
     Training.epoch_loop randperm autograd Adam ext fuel config
       (Training.get_model build_transformer config (get_vocab_size tokenizer_src)
          (get_vocab_size tokenizer_tgt))
       writer_of train_data_loader val_data_loader tokenizer_src tokenizer_tgt
       (Training.range (fst start) (num_epochs config)) (snd start))
      (initialised tokenizer_src tokenizer_tgt w1).
Proof.
  intros Hds. unfold Training.train_model. rewrite (bind_ok _ _ _ _ _ Hds).
  reflexivity.
Qed.

(** When the selected checkpoint exists and is accepted by the model and by
    the optimizer, [train_model] is the epoch loop over
    [range(epoch + 1, num_epochs)] started from the saved global step, in a
    state whose parameters and optimizer state are the saved ones. *)
Lemma train_model_resumes w train_data_loader val_data_loader tokenizer_src tokenizer_tgt
    w1 model_filename c :
  load_data w = Ok (train_data_loader, val_data_loader, tokenizer_src, tokenizer_tgt) w1 →
  Training.preload_filename ext config (<[writer_of := EventFile []]> (files w1))
    = Some model_filename →
  model_filename ≠ "" →
  <[writer_of := EventFile []]> (files w1) !! model_filename = Some (CheckpointFile c) →
  state_dict_matches (fresh_params tokenizer_src tokenizer_tgt w1) (model_state_dict c)
    = true →
  optimizer_accepts (model_state_dict c) (optimizer_state_dict c) = true →
  ∃ w2,
    params w2 = model_state_dict c ∧
    optimizer w2 = optimizer_state_dict c ∧
    files w2 = <[writer_of := EventFile []]> (files w1) ∧
    train w =
      Training.epoch_loop randperm autograd Adam ext fuel config
        (Training.get_model build_transformer config (get_vocab_size tokenizer_src)
           (get_vocab_size tokenizer_tgt))
        writer_of train_data_loader val_data_loader tokenizer_src tokenizer_tgt
        (Training.range (epoch c + 1) (num_epochs config)) (global_step c) w2.
Proof.
  intros Hds Hsel Hne Hfile Hmodel Hopt.
  rewrite (train_model_unfold _ _ _ _ _ _ Hds).
  destruct (restore_resumes ext state_dict_matches partly_loaded optimizer_accepts config
              (initialised tokenizer_src tokenizer_tgt w1) model_filename c
              Hsel Hne Hfile Hmodel Hopt) as (w2 & Hres & Hp & Ho & Hf & _).
  exists w2. repeat split; try done.
  by rewrite (bind_ok _ _ _ _ _ Hres).
Qed.


End Checkpoints.



(** ** The loss ignores the padded positions *)

Lemma kept_overwrite_where pad : ∀ target input other,
  kept pad (overwrite_where pad target input other) target = kept pad input target.
Proof.
  induction target as [|t ts IH]; intros [|x xs] [|y ys]; try reflexivity.
  unfold kept in *. cbn [overwrite_where zip zip_with List.filter snd].
  destruct (Z.eqb_spec t pad) as [->|Hne]; cbn [negb]; [apply IH|].
  f_equal. apply IH.
Qed.

Lemma length_overwrite_where pad : ∀ target input other,
  length (overwrite_where pad target input other) = length input.
Proof.
  induction target as [|t ts IH]; intros [|x xs] [|y ys]; try reflexivity.
  cbn [overwrite_where length]. by rewrite IH.
Qed.

(** The loss is a function of the kept positions only. *)
Lemma CrossEntropyLoss_kept ignore_index eps n_classes input1 input2 target :
  length input1 = length input2 →
  kept ignore_index input1 target = kept ignore_index input2 target →
  CrossEntropyLoss (Some ignore_index) eps n_classes input1 target
  = CrossEntropyLoss (Some ignore_index) eps n_classes input2 target.
Proof. intros Hlen Hkept. unfold CrossEntropyLoss. by rewrite Hlen, Hkept. Qed.

(** The tokenizers that [get_or_build_tokenizer] trains give [PAD] the
    id 1, whatever the corpus. *)
Lemma trained_pad_id words : token_to_id (train_from_iterator words) "[PAD]" = Some 1.
Proof. reflexivity. Qed.

Lemma kept_of_kept ignore_index input target :
  let ks := kept ignore_index input target in
  kept ignore_index (map fst ks) (map snd ks) = ks.
Proof.
  intros ks. subst ks. unfold kept.
  induction (zip input target) as [|[x t] l IH]; [reflexivity|].
  cbn [List.filter snd]. destruct (negb (t =? ignore_index)) eqn:Ht; [|exact IH].
  cbn [map fst snd zip zip_with List.filter]. rewrite Ht. f_equal. exact IH.
Qed.

(** C1.  When the two tokenizers give [PAD] the same id, the loss of the
    training loop leaves out every position whose label is the target
    [PAD].  The logits at these positions can be replaced by any others
    without changing the loss, so the derivative of the loss in these
    logits is zero; and the loss of the batch is the loss of the batch from
    which these positions have been removed, so they count neither in the
    sums nor in the number of positions of the mean. *)
Theorem loss_ignores_pad_positions tokenizer_src tokenizer_tgt pad n_classes
    (input other : Tensor2) (target : list Z) :
  token_to_id tokenizer_tgt "[PAD]" = Some pad →
  token_to_id tokenizer_src "[PAD]" = token_to_id tokenizer_tgt "[PAD]" →
  length input = length target →
  Training.loss_fn tokenizer_src n_classes (overwrite_where pad target input other) target
  = Training.loss_fn tokenizer_src n_classes input target ∧
  Training.loss_fn tokenizer_src n_classes input target
  = Training.loss_fn tokenizer_src n_classes
      (map fst (kept pad input target)) (map snd (kept pad input target)).
Proof.
  intros Hpad Hsame Hlen. unfold Training.loss_fn. rewrite Hsame, Hpad. split.
  - apply CrossEntropyLoss_kept.
    + apply length_overwrite_where.
    + apply kept_overwrite_where.
  - unfold CrossEntropyLoss. rewrite kept_of_kept, !length_map, Hlen, !Nat.eqb_refl.
    reflexivity.
Qed.

(** A batch of three positions, the last two labelled [PAD]. *)
Lemma loss_ignores_pad_positions_witness :
  Training.loss_fn Fixtures.tok 6
    (overwrite_where 1 [4; 1; 1]
       [Fixtures.one_hot 6 4; Fixtures.one_hot 6 1; Fixtures.one_hot 6 1]
       [Fixtures.one_hot 6 0; Fixtures.one_hot 6 5; Fixtures.one_hot 6 3])
    [4; 1; 1]
  = Training.loss_fn Fixtures.tok 6
      [Fixtures.one_hot 6 4; Fixtures.one_hot 6 1; Fixtures.one_hot 6 1] [4; 1; 1] ∧
  Training.loss_fn Fixtures.tok 6
    [Fixtures.one_hot 6 4; Fixtures.one_hot 6 1; Fixtures.one_hot 6 1] [4; 1; 1]
  = Training.loss_fn Fixtures.tok 6
      (map fst (kept 1 [Fixtures.one_hot 6 4; Fixtures.one_hot 6 1; Fixtures.one_hot 6 1]
                  [4; 1; 1]))
      (map snd (kept 1 [Fixtures.one_hot 6 4; Fixtures.one_hot 6 1; Fixtures.one_hot 6 1]
                  [4; 1; 1])).
Proof.
  apply (loss_ignores_pad_positions Fixtures.tok Fixtures.tok 1 6
           [Fixtures.one_hot 6 4; Fixtures.one_hot 6 1; Fixtures.one_hot 6 1]
           [Fixtures.one_hot 6 0; Fixtures.one_hot 6 5; Fixtures.one_hot 6 3] [4; 1; 1]).
  - reflexivity.
  - reflexivity.
  - reflexivity.
Defined.

(** With tokenizers that number [PAD] differently the condition of C1 is
    needed: here the source vocabulary has [PAD] at 0 and the target
    vocabulary at 1, the only position of the batch is labelled with the
    target [PAD], and changing its logits changes the loss. *)
Lemma loss_counts_target_pad_when_ids_differ :
  token_to_id Fixtures.tok_pad_first "[PAD]" = Some 0 ∧
  token_to_id Fixtures.tok "[PAD]" = Some 1 ∧
  Training.loss_fn Fixtures.tok_pad_first 6
    (overwrite_where 1 [1] [[0; 0; 0; 0; 0; 0]%Q] [[1; 0; 0; 0; 0; 0]%Q]) [1]
  ≠ Training.loss_fn Fixtures.tok_pad_first 6 [[0; 0; 0; 0; 0; 0]%Q] [1].
Proof.
  split; [reflexivity|]. split; [reflexivity|].
  unfold Training.loss_fn, CrossEntropyLoss, Training.label_smoothing.
  change (token_to_id Fixtures.tok_pad_first "[PAD]") with (Some 0).
  cbn -[Rplus Rminus Rmult Rdiv Ropp Rinv exp ln Q2R IZR INR nll_term smooth_term].
  unfold nll_term, smooth_term, log_softmax.
  cbn -[Rplus Rminus Rmult Rdiv Ropp Rinv exp ln Q2R IZR INR].
  replace (Q2R 0) with 0%R by (unfold Q2R; simpl; lra).
  replace (Q2R 1) with 1%R by (unfold Q2R; simpl; lra).
  rewrite exp_0.
  change (Z.to_nat 1) with 1%nat.
  cbn [lookup list_lookup fmap option_fmap option_map mbind option_bind mret option_ret
       sum_R fold_right].
  set (l6 := ln (1 + (1 + (1 + (1 + (1 + (1 + 0))))))%R).
  set (l7 := ln (exp 1 + (1 + (1 + (1 + (1 + (1 + 0))))))%R).
  intros [= H].
  assert (l6 + 1 / 60 < l7)%R as Hlt.
  { subst l6 l7.
    replace (1 + (1 + (1 + (1 + (1 + (1 + 0))))))%R with 6%R by lra.
    replace (exp 1 + (1 + (1 + (1 + (1 + (1 + 0))))))%R with (exp 1 + 5)%R by lra.
    assert (2 < exp 1)%R as He by (pose proof (exp_ineq1 1 ltac:(lra)); lra).
    assert (exp (1 / 60) < 61 / 60 + 1 / 60)%R as Hsmall.
    { pose proof (exp_ineq1 (- (1 / 60)) ltac:(lra)) as Hneg.
      pose proof (exp_pos (1 / 60)) as Hpos.
      assert (exp (1 / 60) * exp (- (1 / 60)) = 1)%R as Hinv.
      { rewrite <- exp_plus. replace (1 / 60 + - (1 / 60))%R with 0%R by lra. apply exp_0. }
      nra. }
    apply exp_lt_inv. rewrite exp_plus, !exp_ln by lra. nra. }
  simpl INR in H. lra.
Qed.

(** * Further properties of the script *)

(** ** Edge cases of the greedy decoder *)

(** X1.  For [max_len >= 1] a sequence returned by [greedy_decode] has at
    least one and at most [max_len] tokens, whatever the model does. *)
Theorem greedy_decode_length_bounds model source source_mask tokenizer_src tokenizer_tgt
    max_len fuel w out w' :
  1 ≤ max_len →
  greedy_decode fuel model source source_mask tokenizer_src tokenizer_tgt max_len w
    = Ok out w' →
  1 ≤ Z.of_nat (length out) ≤ max_len.
Proof.
  intros Hmax. rewrite greedy_decode_unfold.
  destruct (greedy_run _ _ _ _ _ _ _ _) as [[out' how] w''| |] eqn:Hrun; try discriminate.
  intros [= <- <-].
  destruct (greedy_run_shape _ _ _ _ _ _ _ _ _ _ _ Hrun)
    as (sos & appended & evs & _ & -> & _ & _ & _ & Hbefore & _).
  simpl length. split; [lia|].
  destruct (decide (Z.of_nat (length appended) ≤ max_len - 1)) as [|Hlong]; [lia|].
  exfalso. apply (Hbefore (Z.to_nat (max_len - 1))); simpl; lia.
Qed.

Lemma greedy_decode_length_bounds_witness :
  1 ≤ Z.of_nat (length [2%Z; 4%Z; 5%Z; 4%Z]) ≤ 4.
Proof.
  eapply (greedy_decode_length_bounds (Fixtures.scripted [4; 5] 4) [[2; 4; 3]]
            [[true; true; true]] Fixtures.tok Fixtures.tok 4 10 Fixtures.w0).
  - lia.
  - vm_compute. reflexivity.
Defined.

(** X2.  With [max_len = 1] the decoder returns the bare [[SOS]]: the
    encoder is called once, the decoder and the projection never. *)
Theorem greedy_decode_max_len_one model source source_mask tokenizer_src tokenizer_tgt
    fuel w sos :
  token_to_id tokenizer_tgt "[SOS]" = Some sos →
  (1 ≤ fuel)%nat →
  greedy_decode fuel model source source_mask tokenizer_src tokenizer_tgt 1 w
  = Ok [sos] (after w [EncodeCall (grad_enabled w) source source_mask]).
Proof.
  intros Hsos Hfuel. rewrite greedy_decode_unfold, greedy_run_unfold, Hsos.
  destruct fuel as [|fuel]; [lia|]. by rewrite greedy_loop_step.
Qed.

Lemma greedy_decode_max_len_one_witness :
  greedy_decode 1 (Fixtures.scripted [4; 5] 4) [[2; 4; 3]] [[true; true; true]]
    Fixtures.tok Fixtures.tok 1 Fixtures.w0
  = Ok [2] (after Fixtures.w0 [EncodeCall true [[2; 4; 3]] [[true; true; true]]]).
Proof.
  apply (greedy_decode_max_len_one (Fixtures.scripted [4; 5] 4) [[2; 4; 3]]
           [[true; true; true]] Fixtures.tok Fixtures.tok 1 Fixtures.w0 2).
  - reflexivity.
  - lia.
Defined.

(** The loop itself raises index and runtime errors only. *)
Lemma loop_run_no_type_error model enc mask eos_idx max_len θ g d evs :
  ¬ loop_run model enc mask eos_idx max_len θ g d (Raised TypeError) evs.
Proof.
  intros Hrun. apply loop_run_raised in Hrun. destruct Hrun as (d' & x & Hit).
  unfold iteration in Hit. destruct (mapM _ _); [|discriminate].
  destruct (map _ _) as [|row [|? ?]]; try discriminate.
  destruct (torch_max row) as [[? ?]|]; discriminate.
Qed.

(** X3.  [greedy_decode] raises a [TypeError] exactly when the target
    vocabulary has no [SOS] token, and then it has called the encoder and
    nothing else. *)
Theorem greedy_decode_type_error model source source_mask tokenizer_src tokenizer_tgt
    max_len fuel w :
  (token_to_id tokenizer_tgt "[SOS]" = None →
   greedy_decode fuel model source source_mask tokenizer_src tokenizer_tgt max_len w
   = Raise TypeError (after w [EncodeCall (grad_enabled w) source source_mask])) ∧
  (∀ w',
     greedy_decode fuel model source source_mask tokenizer_src tokenizer_tgt max_len w
     = Raise TypeError w' →
     token_to_id tokenizer_tgt "[SOS]" = None).
Proof.
  split.
  - intros Hsos. by rewrite greedy_decode_unfold, greedy_run_unfold, Hsos.
  - intros w'. rewrite greedy_decode_unfold.
    destruct (greedy_run_sound model source source_mask tokenizer_src tokenizer_tgt
                max_len fuel w) as [Ht|[[Hnone _]|(sos & o & evs & _ & Hloop & Hr)]];
      cbv zeta in *; [by rewrite Ht|done|].
    rewrite Hr. destruct o as [out how|e]; [discriminate|].
    intros [= -> _]. by apply loop_run_no_type_error in Hloop.
Qed.

Lemma greedy_decode_type_error_witness :
  greedy_decode 5 (Fixtures.scripted [4; 5] 4) [[2; 4; 3]] [[true; true; true]]
    Fixtures.tok Fixtures.tok_no_sos 5 Fixtures.w0
  = Raise TypeError (after Fixtures.w0 [EncodeCall true [[2; 4; 3]] [[true; true; true]]]).
Proof.
  apply (greedy_decode_type_error (Fixtures.scripted [4; 5] 4) [[2; 4; 3]]
           [[true; true; true]] Fixtures.tok Fixtures.tok_no_sos 5 5 Fixtures.w0).
  reflexivity.
Defined.

(** X4.  When the target vocabulary has no [EOS] token the comparison of
    line 44 never succeeds: every sequence that [greedy_decode] returns was
    ended by the length test and has exactly [max_len] tokens. *)
Theorem greedy_decode_without_eos model source source_mask tokenizer_src tokenizer_tgt
    max_len fuel w out how w' :
  token_to_id tokenizer_tgt "[EOS]" = None →
  greedy_run fuel model source source_mask tokenizer_src tokenizer_tgt max_len w
    = Ok (out, how) w' →
  how = LengthBreak ∧ Z.of_nat (length out) = max_len.
Proof.
  intros Heos Hrun.
  destruct (greedy_run_shape _ _ _ _ _ _ _ _ _ _ _ Hrun)
    as (sos & appended & evs & _ & -> & _ & _ & _ & _ & Hexit).
  rewrite Heos in Hexit. destruct how.
  - by destruct Hexit.
  - by destruct Hexit as (pre & t & _ & _ & Ht).
Qed.

Lemma greedy_decode_without_eos_witness :
  LengthBreak = LengthBreak ∧ Z.of_nat (length [2%Z; 4%Z; 3%Z; 4%Z; 4%Z]) = 5.
Proof.
  eapply (greedy_decode_without_eos (Fixtures.scripted [4; 3] 4) [[2; 4; 3]]
            [[true; true; true]] Fixtures.tok Fixtures.tok_no_eos 5 10 Fixtures.w0).
  - reflexivity.
  - vm_compute. reflexivity.
Defined.

(** ** Edge cases of the validation runner *)

(** Once the counter has reached [num_examples] the test of line 94 can no
    longer succeed, and the loop is the plain loop over what is left. *)
Lemma validation_loop_past fuel model tokenizer_src tokenizer_tgt max_len pm num_examples :
  ∀ bs count w,
  num_examples ≤ count →
  validation_loop fuel model bs tokenizer_src tokenizer_tgt max_len pm num_examples count w =
  validate_all fuel model bs tokenizer_src tokenizer_tgt max_len pm w.
Proof.
  induction bs as [|b rest IH]; intros count w Hle; [reflexivity|].
  cbn [validation_loop validate_all]. unfold mbind, M_bind.
  destruct (emit NextBatch w) as [[] w1| |]; try reflexivity.
  destruct (validate_batch _ _ _ _ _ _ _ w1) as [[] w2| |]; try reflexivity.
  destruct (Z.eqb_spec (count + 1) num_examples) as [Heq|Hne]; [lia|].
  apply IH. lia.
Qed.

(** X5.  [run_validation] stops early only for [1 <= num_examples < number
    of batches]: with [num_examples <= 0], and with [num_examples] at least
    the number of batches, it does what the loop without the test of line
    94 does, going through every batch of the loader. *)
Theorem run_validation_takes_all_batches fuel model validation_ds tokenizer_src tokenizer_tgt
    max_len print_msg global_state num_examples w :
  num_examples ≤ 0 ∨ Z.of_nat (length validation_ds) ≤ num_examples →
  run_validation fuel model validation_ds tokenizer_src tokenizer_tgt max_len print_msg
    global_state num_examples w
  = (modify (set_training false) ≫= λ _,
     no_grad (validate_all fuel model validation_ds tokenizer_src tokenizer_tgt max_len
                print_msg)) w.
Proof.
  intros Hn. unfold run_validation, mbind, M_bind, modify, no_grad.
  destruct (decide (num_examples ≤ 0)) as [Hle|Hpos].
  - by rewrite validation_loop_past.
  - rewrite validation_loop_take by lia.
    rewrite take_ge; [reflexivity|]. destruct Hn; lia.
Qed.

Lemma run_validation_takes_all_batches_witness :
  run_validation 10 (Fixtures.scripted [4; 3] 4) Fixtures.five_batches Fixtures.tok
    Fixtures.tok 10 (λ msg, emit (ProgressWrite msg)) 0 7 Fixtures.w0
  = (modify (set_training false) ≫= λ _,
     no_grad (validate_all 10 (Fixtures.scripted [4; 3] 4) Fixtures.five_batches
                Fixtures.tok Fixtures.tok 10 (λ msg, emit (ProgressWrite msg))))
      Fixtures.w0.
Proof.
  apply (run_validation_takes_all_batches 10 (Fixtures.scripted [4; 3] 4)
           Fixtures.five_batches Fixtures.tok Fixtures.tok 10
           (λ msg, emit (ProgressWrite msg)) 0 7 Fixtures.w0).
  right. simpl. lia.
Defined.



(** ** Tokenizer files and the data loaders of [get_ds] *)

Module DatasetProofs.

(** The sentences of a language, when every row has one. *)
Definition sentences_of (ds : list (gmap string string)) (lang : string)
  : option (list string) :=
  mapM (λ item : gmap string string, item !! lang) ds.

(** What a call of [get_or_build_tokenizer] that returns has done: the
    pattern has given a path, and the call has read the tokenizer from the
    file at that path, or there was no file and it has trained the
    tokenizer on the sentences and written the file. *)
Lemma get_or_build_tokenizer_ok words format_path config ds lang w t w' :
  Training.get_or_build_tokenizer words format_path config ds lang w = Ok t w' →
  ∃ path,
    format_path (tokenizer_file config) lang = inr path ∧
    ((files w !! path = Some (TokenizerFile t) ∧ w' = w) ∨
     (files w !! path = None ∧
      w' = set_files (insert path (TokenizerFile t)) w ∧
      ∃ sentences, sentences_of ds lang = Some sentences ∧
                   t = train_from_iterator (words sentences))).
Proof.
  unfold Training.get_or_build_tokenizer, sentences_of, mbind, M_bind, get,
    Training.get_all_sentences, modify.
  destruct (format_path _ _) as [e|path]; [discriminate|].
  intros H. exists path. split; [done|].
  destruct (files w !! path) as [[t0|c|scalars]|] eqn:Hfile.
  - injection H as <- <-. by left.
  - discriminate.
  - discriminate.
  - destruct (mapM _ ds) as [sentences|]; [|discriminate].
    injection H as <- <-. right. eauto.
Qed.

Lemma get_or_build_tokenizer_saved words format_path config ds lang w t w' :
  Training.get_or_build_tokenizer words format_path config ds lang w = Ok t w' →
  ∃ path, format_path (tokenizer_file config) lang = inr path ∧
          files w' !! path = Some (TokenizerFile t).
Proof.
  intros H.
  apply get_or_build_tokenizer_ok in H as (path & Hpath & [[Hfile ->]|(_ & -> & _)]);
    exists path; (split; [done|]); [done|].
  apply lookup_insert_eq.
Qed.

Lemma get_or_build_tokenizer_loads words format_path config ds lang path w t :
  format_path (tokenizer_file config) lang = inr path →
  files w !! path = Some (TokenizerFile t) →
  Training.get_or_build_tokenizer words format_path config ds lang w = Ok t w.
Proof.
  intros Hpath H. unfold Training.get_or_build_tokenizer, mbind, M_bind, get.
  by rewrite Hpath, H.
Qed.

Lemma keeps_files_random_split randperm {A} (ds : list A) n1 n2 :
  keeps files (Training.random_split randperm ds n1 n2).
Proof.
  unfold Training.random_split, Training.draw_permutation.
  destruct (negb _); repeat keeps_step.
Qed.

Lemma keeps_files_new_BilingualDataset BilingualDataset ds ts tt l1 l2 n :
  keeps files (Training.new_BilingualDataset BilingualDataset ds ts tt l1 l2 n).
Proof.
  unfold Training.new_BilingualDataset. destruct (BilingualDataset _ _ _ _ _ _); keeps_step.
Qed.

Lemma keeps_files_new_DataLoader ds n : keeps files (Training.new_DataLoader ds n).
Proof.
  unfold Training.new_DataLoader. destruct ds; [keeps_step|].
  destruct (_ <=? _); keeps_step.
Qed.

(** A loader that has been made. *)
Lemma new_DataLoader_ok ds n w dl w' :
  Training.new_DataLoader ds n w = Ok dl w' →
  0 < n ∧ ds ≠ [] ∧ dl = {| dataset := ds; loader_batch_size := Z.to_nat n |} ∧ w' = w.
Proof.
  unfold Training.new_DataLoader. destruct ds as [|x ds]; [discriminate|].
  destruct (Z.leb_spec n 0) as [|Hpos]; [discriminate|].
  by intros [= <- <-].
Qed.

(** The scan of lines 139-143 changes nothing. *)
Lemma max_lengths_pure encode_ids config ts tt : ∀ ds a b w,
  match Training.max_lengths encode_ids config ts tt ds a b w with
  | Ok _ w' | Raise _ w' => w' = w
  | Timeout => False
  end.
Proof.
  induction ds as [|item rest IH]; intros a b w; [reflexivity|].
  cbn [Training.max_lengths].
  destruct (item !! lang_src config); [|reflexivity].
  destruct (item !! lang_tgt config); [|reflexivity].
  apply IH.
Qed.

(** The steps of a call of [get_ds] that returns. *)
Lemma get_ds_ok load_dataset words encode_ids BilingualDataset randperm format_path config
    w tl vl ts tt w' :
  Training.get_ds load_dataset words encode_ids BilingualDataset randperm format_path config w
    = Ok (tl, vl, ts, tt) w' →
  let ds_raw := load_dataset (datasource config)
                  (lang_src config ++ "-" ++ lang_tgt config)%string in
  ∃ w1 w2,
    Training.get_or_build_tokenizer words format_path config ds_raw (lang_src config) w
      = Ok ts w1 ∧
    Training.get_or_build_tokenizer words format_path config ds_raw (lang_tgt config) w1
      = Ok tt w2 ∧
    files w' = files w2 ∧
    0 < batch_size config ∧
    loader_batch_size tl = Z.to_nat (batch_size config) ∧
    loader_batch_size vl = 1%nat.
Proof.
  intros H ds_raw. unfold Training.get_ds in H. fold ds_raw in H.
  apply bind_inv_ok in H as (ts' & w1 & H1 & H).
  apply bind_inv_ok in H as (tt' & w2 & H2 & H).
  apply bind_inv_ok in H as (split & w3 & H3 & H).
  apply bind_inv_ok in H as (train_ds & w4 & H4 & H).
  apply bind_inv_ok in H as (val_ds & w5 & H5 & H).
  apply bind_inv_ok in H as (lens & w6 & H6 & H).
  apply bind_inv_ok in H as ([] & w7 & H7 & H).
  apply bind_inv_ok in H as ([] & w8 & H8 & H).
  apply bind_inv_ok in H as (tdl & w9 & H9 & H).
  apply bind_inv_ok in H as (vdl & w10 & H10 & H).
  injection H as <- <- <- <- <-.
  exists w1, w2. split; [done|]. split; [done|].
  apply (keeps_ok files) in H3; [|apply keeps_files_random_split].
  apply (keeps_ok files) in H4; [|apply keeps_files_new_BilingualDataset].
  apply (keeps_ok files) in H5; [|apply keeps_files_new_BilingualDataset].
  pose proof (max_lengths_pure encode_ids config ts' tt' ds_raw 0 0 w5) as Hlen.
  rewrite H6 in Hlen. subst w6.
  injection H7 as <-. injection H8 as <-.
  apply new_DataLoader_ok in H9 as (Hpos & _ & -> & ->).
  apply new_DataLoader_ok in H10 as (_ & _ & -> & ->).
  repeat split; try done. cbn. congruence.
Qed.

End DatasetProofs.
Import DatasetProofs.

(** X7.  Building a tokenizer and reading it back: when the pattern gives
    a path for the language and there is no file at that path, a call that
    returns has trained the tokenizer on the sentences of that language
    and saved it at the path; every later call for the language returns
    that same tokenizer from the file, whatever corpus it is given, and
    changes nothing. *)
Theorem get_or_build_tokenizer_round_trip words format_path config ds lang path w t w' :
  format_path (tokenizer_file config) lang = inr path →
  files w !! path = None →
  Training.get_or_build_tokenizer words format_path config ds lang w = Ok t w' →
  (∃ sentences, sentences_of ds lang = Some sentences ∧
                t = train_from_iterator (words sentences)) ∧
  files w' = <[path := TokenizerFile t]> (files w) ∧
  ∀ words' ds',
    Training.get_or_build_tokenizer words' format_path config ds' lang w' = Ok t w'.
Proof.
  intros Hpath Hnone H.
  apply get_or_build_tokenizer_ok in H as (path' & Hpath' & H).
  assert (path' = path) as -> by congruence.
  destruct H as [[Hfile _]|(_ & -> & Hbuilt)]; [congruence|].
  repeat split; [done|].
  intros words' ds'. apply (get_or_build_tokenizer_loads _ _ _ _ _ path); [done|].
  apply lookup_insert_eq.
Qed.

Lemma get_or_build_tokenizer_round_trip_witness :
  (∃ sentences,
     sentences_of (Fixtures.toy_load_dataset "opus" "en-de") "en" = Some sentences ∧
     Fixtures.tok = train_from_iterator (Fixtures.toy_words sentences)) ∧
  files (set_files (insert "tokenizer_en.json" (TokenizerFile Fixtures.tok)) Fixtures.w0)
    = <["tokenizer_en.json" := TokenizerFile Fixtures.tok]> (files Fixtures.w0) ∧
  ∀ words' ds',
    Training.get_or_build_tokenizer words' Fixtures.toy_format_path Fixtures.toy_config ds'
      "en" (set_files (insert "tokenizer_en.json" (TokenizerFile Fixtures.tok)) Fixtures.w0)
    = Ok Fixtures.tok
        (set_files (insert "tokenizer_en.json" (TokenizerFile Fixtures.tok)) Fixtures.w0).
Proof.
  apply (get_or_build_tokenizer_round_trip Fixtures.toy_words Fixtures.toy_format_path
           Fixtures.toy_config (Fixtures.toy_load_dataset "opus" "en-de") "en"
           "tokenizer_en.json" Fixtures.w0).
  - reflexivity.
  - reflexivity.
  - reflexivity.
Defined.

(** X8.  When the pattern gives a path for the language, there is no file
    at that path and some row of the corpus has no sentence in the
    language, [get_or_build_tokenizer] raises a [KeyError] and leaves no
    file behind: the state is unchanged. *)
Theorem get_or_build_tokenizer_missing_language words format_path config ds lang path w
    item :
  format_path (tokenizer_file config) lang = inr path →
  files w !! path = None →
  item ∈ ds →
  item !! lang = None →
  Training.get_or_build_tokenizer words format_path config ds lang w = Raise KeyError w.
Proof.
  intros Hpath Hnone Hin Hitem.
  unfold Training.get_or_build_tokenizer, mbind, M_bind, get, Training.get_all_sentences.
  rewrite Hpath, Hnone.
  assert (mapM (λ item : gmap string string, item !! lang) ds = None) as ->; [|reflexivity].
  induction Hin as [item rest|item other rest Hin IH].
  - cbn. by rewrite Hitem.
  - cbn. destruct (other !! lang); [|reflexivity]. cbn. by rewrite IH.
Qed.

Lemma get_or_build_tokenizer_missing_language_witness :
  Training.get_or_build_tokenizer Fixtures.toy_words Fixtures.toy_format_path
    Fixtures.toy_config [Fixtures.toy_item; ({[ "en" := "bye" ]} : gmap string string)] "de"
    Fixtures.w0
  = Raise KeyError Fixtures.w0.
Proof.
  apply (get_or_build_tokenizer_missing_language Fixtures.toy_words Fixtures.toy_format_path
           Fixtures.toy_config
           [Fixtures.toy_item; ({[ "en" := "bye" ]} : gmap string string)] "de"
           "tokenizer_de.json" Fixtures.w0 {[ "en" := "bye" ]}).
  - reflexivity.
  - reflexivity.
  - apply elem_of_cons. right. apply elem_of_cons. by left.
  - reflexivity.
Defined.

Module DatasetFixtures.

(** A configuration whose tokenizer file pattern has no field for the
    language: both languages share one file. *)
Definition shared_file_config : Config :=
  {| batch_size := 2; num_epochs := 2; lr := (1 # 10000)%Q; seq_len := 4; d_model := 1;
     datasource := "opus"; lang_src := "en"; lang_tgt := "de";
     model_folder := "weights"; model_basename := "tmodel_"; preload := None;
     tokenizer_file := "tokenizer.json"; experiment_name := "runs/tmodel" |}.

(** A configuration with batch size zero. *)
Definition zero_batch_config : Config :=
  {| batch_size := 0; num_epochs := 2; lr := (1 # 10000)%Q; seq_len := 4; d_model := 1;
     datasource := "opus"; lang_src := "en"; lang_tgt := "de";
     model_folder := "weights"; model_basename := "tmodel_"; preload := None;
     tokenizer_file := "tokenizer_{0}.json"; experiment_name := "runs/tmodel" |}.

(** A trainer that keeps the words of the sentences it is given. *)
Definition keep_words (sentences : list string) : list string := sentences.

(** An encoder that yields one id per character. *)
Definition char_ids (t : Tokenizer) (sentence : string) : list Z :=
  map (λ _, 0) (list_ascii_of_string sentence).

Definition two_rows : list (gmap string string) :=
  [ {[ "en" := "hello"; "de" := "hallo" ]}; {[ "en" := "hi"; "de" := "servus" ]} ].

End DatasetFixtures.

(** X9.  When the pattern [config['tokenizer_file']] gives both languages
    the same path, the two tokenizers that [get_ds] returns are one and the
    same: the second call of [get_or_build_tokenizer] finds the file that
    the first call has read or written, and the target language gets the
    vocabulary of the source language. *)
Theorem get_ds_shared_tokenizer_file load_dataset words encode_ids BilingualDataset randperm
    format_path config w tl vl ts tt w' :
  format_path (tokenizer_file config) (lang_src config)
    = format_path (tokenizer_file config) (lang_tgt config) →
  Training.get_ds load_dataset words encode_ids BilingualDataset randperm format_path config w
    = Ok (tl, vl, ts, tt) w' →
  tt = ts.
Proof.
  intros Hpath H. apply get_ds_ok in H as (w1 & w2 & H1 & H2 & _).
  apply get_or_build_tokenizer_saved in H1 as (path & Hsrc & H1).
  rewrite Hpath in Hsrc.
  rewrite (get_or_build_tokenizer_loads _ _ _ _ _ _ _ _ Hsrc H1) in H2. congruence.
Qed.

Lemma get_ds_shared_tokenizer_file_witness :
  ∃ tl vl ts tt w',
    Training.get_ds Fixtures.toy_load_dataset DatasetFixtures.keep_words Fixtures.toy_encode_ids
      Fixtures.toy_BilingualDataset Fixtures.toy_randperm Fixtures.toy_format_path
      DatasetFixtures.shared_file_config Fixtures.w0 = Ok (tl, vl, ts, tt) w' ∧
    ts = train_from_iterator ["hello"; "hello"; "hello"] ∧
    tt = ts.
Proof.
  eexists _, _, _, _, _. split; [vm_compute; reflexivity|]. split; [reflexivity|].
  eapply (get_ds_shared_tokenizer_file Fixtures.toy_load_dataset DatasetFixtures.keep_words
            Fixtures.toy_encode_ids Fixtures.toy_BilingualDataset Fixtures.toy_randperm
            Fixtures.toy_format_path DatasetFixtures.shared_file_config Fixtures.w0).
  - reflexivity.
  - vm_compute. reflexivity.
Defined.

(** X10.  When the pattern gives a path for each language and neither
    tokenizer file exists, a call of [get_ds] that returns has trained
    both tokenizers: in both vocabularies [UNK], [PAD], [SOS] and [EOS]
    have the ids 0, 1, 2 and 3, so that the [PAD] id of the source
    vocabulary, which the loss ignores, is the [PAD] id of the target
    vocabulary; and the tokenizer files are the only files written. *)
Theorem get_ds_fresh_tokenizers load_dataset words encode_ids BilingualDataset randperm
    format_path config path_src path_tgt w tl vl ts tt w' :
  format_path (tokenizer_file config) (lang_src config) = inr path_src →
  format_path (tokenizer_file config) (lang_tgt config) = inr path_tgt →
  files w !! path_src = None →
  files w !! path_tgt = None →
  Training.get_ds load_dataset words encode_ids BilingualDataset randperm format_path config w
    = Ok (tl, vl, ts, tt) w' →
  Forall (λ t, token_to_id t "[UNK]" = Some 0 ∧ token_to_id t "[PAD]" = Some 1 ∧
               token_to_id t "[SOS]" = Some 2 ∧ token_to_id t "[EOS]" = Some 3 ∧
               4 ≤ get_vocab_size t) [ts; tt] ∧
  files w' = <[path_tgt := TokenizerFile tt]> (<[path_src := TokenizerFile ts]> (files w)).
Proof.
  intros Hps Hpt Hsrc Htgt H. apply get_ds_ok in H as (w1 & w2 & H1 & H2 & -> & _).
  apply get_or_build_tokenizer_ok in H1 as (p1 & Hp1 & H1).
  assert (p1 = path_src) as -> by congruence.
  destruct H1 as [[Hfile _]|(_ & -> & s1 & _ & ->)]; [congruence|].
  assert (∀ ws, token_to_id (train_from_iterator ws) "[UNK]" = Some 0 ∧
                token_to_id (train_from_iterator ws) "[PAD]" = Some 1 ∧
                token_to_id (train_from_iterator ws) "[SOS]" = Some 2 ∧
                token_to_id (train_from_iterator ws) "[EOS]" = Some 3 ∧
                4 ≤ get_vocab_size (train_from_iterator ws)) as Hids.
  { intros ws. repeat split; try reflexivity.
    unfold get_vocab_size, train_from_iterator. cbn [vocab].
    rewrite length_app. cbn. lia. }
  apply get_or_build_tokenizer_ok in H2 as (p2 & Hp2 & H2).
  assert (p2 = path_tgt) as -> by congruence.
  destruct H2 as [[Hfile ->]|(_ & -> & s2 & _ & ->)].
  - cbn [files set_files] in Hfile.
    destruct (decide (path_src = path_tgt)) as [Heq|Hne].
    + rewrite Heq, lookup_insert_eq in Hfile. injection Hfile as <-.
      split; [constructor; [apply Hids|constructor; [apply Hids|constructor]]|].
      cbn [files set_files]. by rewrite Heq, insert_insert_eq.
    + rewrite lookup_insert_ne in Hfile by done. congruence.
  - split; [constructor; [apply Hids|constructor; [apply Hids|constructor]]|]. reflexivity.
Qed.

Lemma get_ds_fresh_tokenizers_witness :
  ∃ tl vl ts tt w',
    Training.get_ds Fixtures.toy_load_dataset Fixtures.toy_words Fixtures.toy_encode_ids
      Fixtures.toy_BilingualDataset Fixtures.toy_randperm Fixtures.toy_format_path
      Fixtures.toy_config Fixtures.w0 = Ok (tl, vl, ts, tt) w' ∧
    Forall (λ t, token_to_id t "[UNK]" = Some 0 ∧ token_to_id t "[PAD]" = Some 1 ∧
                 token_to_id t "[SOS]" = Some 2 ∧ token_to_id t "[EOS]" = Some 3 ∧
                 4 ≤ get_vocab_size t) [ts; tt] ∧
    files w' = <["tokenizer_de.json" := TokenizerFile tt]>
                 (<["tokenizer_en.json" := TokenizerFile ts]> (files Fixtures.w0)).
Proof.
  eexists _, _, _, _, _. split; [vm_compute; reflexivity|].
  eapply (get_ds_fresh_tokenizers Fixtures.toy_load_dataset Fixtures.toy_words
            Fixtures.toy_encode_ids Fixtures.toy_BilingualDataset Fixtures.toy_randperm
            Fixtures.toy_format_path Fixtures.toy_config "tokenizer_en.json"
            "tokenizer_de.json" Fixtures.w0).
  - reflexivity.
  - reflexivity.
  - reflexivity.
  - reflexivity.
  - vm_compute. reflexivity.
Defined.

(** X11.  With [config['batch_size'] <= 0] the call of [get_ds] never
    returns its loaders: the data loader of line 148 refuses the batch
    size. *)
Theorem get_ds_rejects_batch_size load_dataset words encode_ids BilingualDataset randperm
    format_path config w :
  batch_size config ≤ 0 →
  match Training.get_ds load_dataset words encode_ids BilingualDataset randperm format_path
          config w with
  | Ok _ _ => False
  | Raise _ _ | Timeout => True
  end.
Proof.
  intros Hle.
  destruct (Training.get_ds _ _ _ _ _ _ _ _) as [[[[tl vl] ts] tt] w'| |] eqn:H; [|done..].
  apply get_ds_ok in H as (w1 & w2 & _ & _ & _ & Hpos & _). lia.
Qed.

Lemma get_ds_rejects_batch_size_witness :
  match Training.get_ds Fixtures.toy_load_dataset Fixtures.toy_words Fixtures.toy_encode_ids
          Fixtures.toy_BilingualDataset Fixtures.toy_randperm Fixtures.toy_format_path
          DatasetFixtures.zero_batch_config Fixtures.w0 with
  | Ok _ _ => False
  | Raise _ _ | Timeout => True
  end.
Proof.
  apply (get_ds_rejects_batch_size Fixtures.toy_load_dataset Fixtures.toy_words
           Fixtures.toy_encode_ids Fixtures.toy_BilingualDataset Fixtures.toy_randperm
           Fixtures.toy_format_path DatasetFixtures.zero_batch_config Fixtures.w0).
  simpl. lia.
Defined.

(** The run of the witness raises the [ValueError] of the data loader, after
    the tokenizer files have been written. *)
Example get_ds_zero_batch_size_raises :
  ∃ w',
    Training.get_ds Fixtures.toy_load_dataset Fixtures.toy_words Fixtures.toy_encode_ids
      Fixtures.toy_BilingualDataset Fixtures.toy_randperm Fixtures.toy_format_path
      DatasetFixtures.zero_batch_config Fixtures.w0 = Raise ValueError w' ∧
    files w' !! "tokenizer_en.json" = Some (TokenizerFile Fixtures.tok).
Proof. eexists. split; vm_compute; reflexivity. Qed.

(** X12.  The two lengths that [get_ds] prints (lines 136-146): the scan
    returns, for each language, a value that no encoded sentence of the
    corpus exceeds and that is the starting value or the length of some
    encoded sentence; it changes nothing. *)
Theorem max_lengths_are_maxima encode_ids config ts tt : ∀ ds a b w a' b' w',
  Training.max_lengths encode_ids config ts tt ds a b w = Ok (a', b') w' →
  w' = w ∧
  Forall (λ item : gmap string string,
            ∃ src tgt, item !! lang_src config = Some src ∧
                       item !! lang_tgt config = Some tgt ∧
                       Z.of_nat (length (encode_ids ts src)) ≤ a' ∧
                       Z.of_nat (length (encode_ids tt tgt)) ≤ b') ds ∧
  (a' = a ∨ ∃ item src, item ∈ ds ∧ item !! lang_src config = Some src ∧
                        a < a' ∧ a' = Z.of_nat (length (encode_ids ts src))) ∧
  (b' = b ∨ ∃ item tgt, item ∈ ds ∧ item !! lang_tgt config = Some tgt ∧
                        b < b' ∧ b' = Z.of_nat (length (encode_ids tt tgt))).
Proof.
  induction ds as [|item rest IH]; intros a b w a' b' w' H.
  - injection H as <- <- <-. repeat split; [constructor|by left..].
  - cbn [Training.max_lengths] in H.
    destruct (item !! lang_src config) as [src|] eqn:Hs; [|discriminate].
    destruct (item !! lang_tgt config) as [tgt|] eqn:Ht; [|discriminate].
    apply IH in H as (-> & Hall & Ha & Hb).
    assert (Z.max a (Z.of_nat (length (encode_ids ts src))) ≤ a' ∧
            Z.max b (Z.of_nat (length (encode_ids tt tgt))) ≤ b') as [Hle1 Hle2].
    { split.
      - destruct Ha as [->|(i & s & _ & _ & Hlt & _)]; lia.
      - destruct Hb as [->|(i & s & _ & _ & Hlt & _)]; lia. }
    split; [done|]. split; [|split].
    + constructor; [|done]. exists src, tgt. repeat split; try done; lia.
    + destruct Ha as [->|(i & s & Hin & Hi & Hlt & Heq)].
      * destruct (Z.max_spec a (Z.of_nat (length (encode_ids ts src)))) as [[Hlt ->]|[_ ->]];
          [|by left].
        right. exists item, src. repeat split; try done. by left.
      * right. exists i, s. repeat split; try done; [by right|lia].
    + destruct Hb as [->|(i & s & Hin & Hi & Hlt & Heq)].
      * destruct (Z.max_spec b (Z.of_nat (length (encode_ids tt tgt)))) as [[Hlt ->]|[_ ->]];
          [|by left].
        right. exists item, tgt. repeat split; try done. by left.
      * right. exists i, s. repeat split; try done; [by right|lia].
Qed.

Lemma max_lengths_are_maxima_witness :
  Fixtures.w0 = Fixtures.w0 ∧
  Forall (λ item : gmap string string,
            ∃ src tgt, item !! "en" = Some src ∧ item !! "de" = Some tgt ∧
                       Z.of_nat (length (DatasetFixtures.char_ids Fixtures.tok src)) ≤ 5 ∧
                       Z.of_nat (length (DatasetFixtures.char_ids Fixtures.tok tgt)) ≤ 6)
    DatasetFixtures.two_rows ∧
  (5 = 0 ∨ ∃ item src, item ∈ DatasetFixtures.two_rows ∧ item !! "en" = Some src ∧
                       0 < 5 ∧ 5 = Z.of_nat (length (DatasetFixtures.char_ids Fixtures.tok src))) ∧
  (6 = 0 ∨ ∃ item tgt, item ∈ DatasetFixtures.two_rows ∧ item !! "de" = Some tgt ∧
                       0 < 6 ∧ 6 = Z.of_nat (length (DatasetFixtures.char_ids Fixtures.tok tgt))).
Proof.
  apply (max_lengths_are_maxima DatasetFixtures.char_ids Fixtures.toy_config Fixtures.tok
           Fixtures.tok DatasetFixtures.two_rows 0 0 Fixtures.w0 5 6 Fixtures.w0).
  vm_compute. reflexivity.
Defined.

(** ** One optimisation step *)

Module StepProofs.

Lemma bind_inv_raise {A B} (m : M A) (f : A → M B) w e w' :
  (m ≫= f) w = Raise e w' →
  m w = Raise e w' ∨ ∃ a w1, m w = Ok a w1 ∧ f a w1 = Raise e w'.
Proof.
  unfold mbind, M_bind. destruct (m w) as [a w1|e1 w1|]; try discriminate.
  - intros H. right. by exists a, w1.
  - intros [= -> ->]. by left.
Qed.

Definition is_backward (e : Event) : bool :=
  match e with
  | Backward => true
  | _ => false
  end.

Definition is_optimizer_step (e : Event) : bool :=
  match e with
  | OptimizerStep => true
  | _ => false
  end.

(** The number of backward passes and of optimizer steps in a stretch of
    the log, and the steps under which scalars were written. *)
Definition backward_passes (evs : list Event) : nat := length (List.filter is_backward evs).
Definition optimizer_steps (evs : list Event) : nat :=
  length (List.filter is_optimizer_step evs).
Definition scalar_steps (evs : list Event) : list Z :=
  omap (λ e, match e with AddScalar _ _ step => Some step | _ => None end) evs.

Section Step.

Variable autograd : Model → StateDict → Batch → option Z → StateDict.
Variable Adam : Q → StateDict → StateDict → StateDict → StateDict * StateDict.
Variable config : Config.
Variable model : Model.
Variable writer : string.
Variable tokenizer_src tokenizer_tgt : Tokenizer.

Local Abbreviation step := (Training.train_batch autograd Adam config model writer
                              tokenizer_src tokenizer_tgt).
Local Abbreviation steps := (Training.train_batches autograd Adam config model writer
                               tokenizer_src tokenizer_tgt).

(** The output of the decoder for a batch, lines 205-206. *)
Definition decoder_output (batch : Batch) (θ : StateDict) : Tensor3 :=
  decode model θ (encode model θ (encoder_input batch) (encoder_mask batch))
    (encoder_mask batch) (decoder_input batch) (decoder_mask batch).

(** The logits of a batch, line 207. *)
Definition proj_output (batch : Batch) (θ : StateDict) : Tensor3 :=
  map (map (projection model θ)) (decoder_output batch θ).

(** The three model calls of the forward pass. *)
Definition forward_events (batch : Batch) (w : World) : list Event :=
  [ EncodeCall (grad_enabled w) (encoder_input batch) (encoder_mask batch);
    DecodeCall (grad_enabled w)
      (encode model (params w) (encoder_input batch) (encoder_mask batch))
      (encoder_mask batch) (decoder_input batch) (decoder_mask batch);
    ProjectionCall (grad_enabled w) (concat (decoder_output batch (params w))) ].

(** What follows the loss, lines 214-225. *)
Definition update_events (loss : loss_value) (global_step : Z) : list Event :=
  [ ProgressPostfix loss; AddScalar "train loss" loss global_step;
    Backward; OptimizerStep; ZeroGrad ].

(** The gradients of a batch and the update that the optimizer makes of
    them. *)
Definition gradients (batch : Batch) (w : World) : StateDict :=
  autograd model (params w) batch (token_to_id tokenizer_src "[PAD]").

Definition updated (batch : Batch) (w : World) : StateDict * StateDict :=
  Adam (lr config) (optimizer w) (params w) (gradients batch w).

(** The scalar that a step writes, line 217. *)
Definition scalar_of (loss : loss_value) (global_step : Z) : string * loss_value * Z :=
  ("train loss", loss, global_step).

(** The state after a completed step: the event file of the writer holds
    one scalar more. *)
Definition stepped (batch : Batch) (loss : loss_value) (global_step : Z) (w : World)
  : World :=
  {| params := fst (updated batch w);
     optimizer := snd (updated batch w);
     grads := None;
     training := training w;
     grad_enabled := grad_enabled w;
     files := <[writer := EventFile (Training.scalars_at (files w) writer
                                     ++ [scalar_of loss global_step])]> (files w);
     rng := rng w;
     log := log w ++ forward_events batch w ++ update_events loss global_step |}.

(** The loss of a batch, or the fact that computing it fails. *)
Definition loss_of (batch : Batch) (θ : StateDict) : option loss_value :=
  match view_rows (get_vocab_size tokenizer_tgt) (proj_output batch θ) with
  | None => None
  | Some input =>
      match Training.loss_fn tokenizer_src (get_vocab_size tokenizer_tgt) input
              (view_flat (label batch)) with
      | LossError => None
      | loss => Some loss
      end
  end.

Lemma set_log_after e w : set_log (λ l, l ++ [e]) w = after w [e].
Proof. reflexivity. Qed.

Lemma set_grads_after g w evs : set_grads g (after w evs) = after (set_grads g w) evs.
Proof. reflexivity. Qed.

Lemma set_params_after f w evs : set_params f (after w evs) = after (set_params f w) evs.
Proof. reflexivity. Qed.

Lemma set_optimizer_after f w evs :
  set_optimizer f (after w evs) = after (set_optimizer f w) evs.
Proof. reflexivity. Qed.

Lemma set_files_after f w evs : set_files f (after w evs) = after (set_files f w) evs.
Proof. reflexivity. Qed.

Lemma modify_ok f w : modify f w = Ok () (f w).
Proof. reflexivity. Qed.

Lemma get_ok w : get w = Ok w w.
Proof. reflexivity. Qed.

Lemma bind_raise {A B} (m : M A) (f : A → M B) w e w' :
  m w = Raise e w' → (m ≫= f) w = Raise e w'.
Proof. intros H. unfold mbind, M_bind. by rewrite H. Qed.

Lemma call_encode_ok source source_mask w :
  call_encode model source source_mask w
  = Ok (encode model (params w) source source_mask)
      (after w [EncodeCall (grad_enabled w) source source_mask]).
Proof. reflexivity. Qed.

Lemma call_decode_ok enc source_mask target target_mask w :
  call_decode model enc source_mask target target_mask w
  = Ok (decode model (params w) enc source_mask target target_mask)
      (after w [DecodeCall (grad_enabled w) enc source_mask target target_mask]).
Proof. reflexivity. Qed.

Lemma call_projection_all_ok x w :
  Training.call_projection_all model x w
  = Ok (map (map (projection model (params w))) x)
      (after w [ProjectionCall (grad_enabled w) (concat x)]).
Proof. reflexivity. Qed.

(** A step either completes, or the computation of the loss fails and the
    step stops after the forward pass. *)
Lemma train_batch_cases batch global_step w :
  match loss_of batch (params w) with
  | Some loss =>
      step batch global_step w = Ok (global_step + 1) (stepped batch loss global_step w)
  | None =>
      ∃ e, step batch global_step w = Raise e (after w (forward_events batch w))
  end.
Proof.
  unfold loss_of, Training.train_batch.
  rewrite (bind_ok _ _ _ _ _ (call_encode_ok _ _ _)).
  rewrite (bind_ok _ _ _ _ _ (call_decode_ok _ _ _ _ _)).
  rewrite (bind_ok _ _ _ _ _ (call_projection_all_ok _ _)).
  rewrite !after_after. cbn [app params after set_log grad_enabled].
  fold (decoder_output batch (params w)). fold (proj_output batch (params w)).
  unfold Training.batch_loss.
  destruct (view_rows _ _) as [input|]; [|eexists; reflexivity].
  destruct (Training.loss_fn _ _ _ _) as [| |r] eqn:Hloss; [eexists; reflexivity| |].
  all: unfold Training.add_scalar, mbind, M_bind, emit, modify, get, mret, M_ret.
  all: unfold stepped, updated, gradients, forward_events, update_events, scalar_of.
  all: f_equal; rewrite !set_log_after;
    repeat rewrite ?set_grads_after, ?set_params_after, ?set_optimizer_after,
      ?set_files_after, ?after_after;
    by destruct w.
Qed.

(** What a step that completes has done. *)
Lemma train_batch_ok batch global_step w gs' w' :
  step batch global_step w = Ok gs' w' →
  ∃ loss, loss_of batch (params w) = Some loss ∧ gs' = global_step + 1 ∧
          w' = stepped batch loss global_step w.
Proof.
  intros H. pose proof (train_batch_cases batch global_step w) as Hc.
  destruct (loss_of batch (params w)) as [loss|].
  - rewrite Hc in H. injection H as <- <-. by exists loss.
  - destruct Hc as [e He]. congruence.
Qed.

(** A pass over the batches that completes. *)
Lemma train_batches_ok : ∀ bs global_step w gs' w',
  steps bs global_step w = Ok gs' w' →
  gs' = global_step + Z.of_nat (length bs) ∧
  (∀ p, p ≠ writer → files w' !! p = files w !! p) ∧
  rng w' = rng w ∧ training w' = training w ∧
  grad_enabled w' = grad_enabled w ∧
  grads w' = match bs with [] => grads w | _ => None end ∧
  ∃ evs, log w' = log w ++ evs ∧
         batches_taken evs = length bs ∧
         backward_passes evs = length bs ∧
         optimizer_steps evs = length bs ∧
         scalar_steps evs = seqZ global_step (Z.of_nat (length bs)).
Proof.
  induction bs as [|b rest IH]; intros gs w gs' w' H.
  - injection H as <- <-. repeat split; [simpl; lia|].
    exists []. by rewrite app_nil_r.
  - cbn [Training.train_batches] in H.
    rewrite (bind_ok _ _ _ _ _ (emit_after _ _)) in H.
    apply bind_inv_ok in H as (gs1 & w1 & H1 & H).
    apply train_batch_ok in H1 as (loss & _ & -> & ->).
    apply IH in H as (-> & Hf & Hr & Ht & Hg & Hgrads & evs & Hlog & Hb & Hbw & Ho & Hs).
    split; [rewrite length_cons; lia|].
    split; [intros p Hp; rewrite (Hf p Hp); cbn [files stepped];
            by rewrite lookup_insert_ne|].
    split; [by rewrite Hr|]. split; [by rewrite Ht|].
    split; [by rewrite Hg|]. split; [by destruct rest|].
    exists (NextBatch :: forward_events b w ++ update_events loss gs ++ evs).
    split; [rewrite Hlog; cbn; by rewrite <- !app_assoc|].
    unfold batches_taken, backward_passes, optimizer_steps, scalar_steps in *.
    cbn. rewrite Hb, Hbw, Ho, Hs. repeat split.
    rewrite (seqZ_cons gs) by lia. do 2 f_equal; lia.
Qed.

(** The event file after a pass that completes: after what it held, one
    scalar per batch, under the consecutive steps. *)
Lemma train_batches_scalars : ∀ bs global_step w gs' w',
  steps bs global_step w = Ok gs' w' →
  ∃ losses,
    length losses = length bs ∧
    Training.scalars_at (files w') writer
    = Training.scalars_at (files w) writer
      ++ zip_with scalar_of losses (seqZ global_step (Z.of_nat (length bs))).
Proof.
  induction bs as [|b rest IH]; intros gs w gs' w' H.
  - injection H as <- <-. exists []. by rewrite app_nil_r.
  - cbn [Training.train_batches] in H.
    rewrite (bind_ok _ _ _ _ _ (emit_after _ _)) in H.
    apply bind_inv_ok in H as (gs1 & w1 & H1 & H).
    apply train_batch_ok in H1 as (loss & _ & -> & ->).
    apply IH in H as (losses & Hlen & Hs).
    exists (loss :: losses). split; [cbn [length]; by rewrite Hlen|].
    rewrite Hs. unfold Training.scalars_at at 1. cbn [files stepped after set_log].
    rewrite lookup_insert_eq, <- app_assoc. f_equal.
    rewrite length_cons, (seqZ_cons gs) by lia. cbn [zip_with app].
    do 3 f_equal; lia.
Qed.

(** A step whose loss cannot be computed stops after the forward pass. *)
Lemma train_batch_raise batch global_step w e w' :
  step batch global_step w = Raise e w' →
  loss_of batch (params w) = None ∧ w' = after w (forward_events batch w).
Proof.
  intros H. pose proof (train_batch_cases batch global_step w) as Hc.
  destruct (loss_of batch (params w)) as [loss|]; [congruence|].
  destruct Hc as [e' He]. split; congruence.
Qed.

End Step.

End StepProofs.
Import StepProofs.

Module StepFixtures.

(** A batch of one example whose only label is the padding id. *)
Definition padding_batch : Batch :=
  {| encoder_input := [[2; 4; 3]]; decoder_input := [[2]];
     encoder_mask := [[true; true; true]]; decoder_mask := [[[true]]];
     label := [[1]]; src_text := ["hello"]; tgt_text := ["hallo"] |}.

Definition three_batches : list Batch :=
  [Fixtures.pair_batch; Fixtures.pair_batch; Fixtures.pair_batch].

(** The state after a pass over [three_batches] from the empty state, the
    step counter starting at 5. *)
Definition w_three_steps : World :=
  Eval vm_compute in
    match Training.train_batches Fixtures.toy_autograd Fixtures.toy_Adam Fixtures.toy_config
            (Fixtures.scripted [4; 3] 4) Fixtures.toy_writer Fixtures.tok Fixtures.tok
            three_batches 5 Fixtures.w0 with
    | Ok _ w => w
    | _ => Fixtures.w0
    end.

End StepFixtures.



(** X14.  A training step that raises has changed nothing but the log: the
    exception comes from the computation of the loss, after the three
    model calls of the forward pass and before the backward pass, so the
    parameters, the optimizer state, the gradients and the files are what
    they were and no scalar was written. *)
Theorem train_batch_failure_changes_nothing autograd Adam config model writer tokenizer_src
    tokenizer_tgt batch global_step w e w' :
  Training.train_batch autograd Adam config model writer tokenizer_src tokenizer_tgt batch
    global_step w = Raise e w' →
  params w' = params w ∧ optimizer w' = optimizer w ∧ grads w' = grads w ∧
  files w' = files w ∧
  log w' = log w ++ forward_events model batch w.
Proof.
  intros H. apply train_batch_raise in H as [_ ->]. done.
Qed.

Lemma train_batch_failure_changes_nothing_witness :
  ∃ e w',
    Training.train_batch Fixtures.toy_autograd Fixtures.toy_Adam Fixtures.toy_config
      (Fixtures.scripted [4; 3] 4) Fixtures.toy_writer Fixtures.tok Fixtures.tok_no_sos
      Fixtures.pair_batch 0 Fixtures.w0 = Raise e w' ∧
    params w' = params Fixtures.w0 ∧ optimizer w' = optimizer Fixtures.w0 ∧
    grads w' = grads Fixtures.w0 ∧ files w' = files Fixtures.w0 ∧
    log w' = log Fixtures.w0
             ++ forward_events (Fixtures.scripted [4; 3] 4) Fixtures.pair_batch Fixtures.w0.
Proof.
  eexists _, _. split; [vm_compute; reflexivity|].
  apply (train_batch_failure_changes_nothing Fixtures.toy_autograd Fixtures.toy_Adam
           Fixtures.toy_config (Fixtures.scripted [4; 3] 4) Fixtures.toy_writer Fixtures.tok
           Fixtures.tok_no_sos Fixtures.pair_batch 0 Fixtures.w0 ValueError).
  vm_compute. reflexivity.
Defined.

(** ** Shapes at the loss *)

Module ShapeProofs.

Lemma rows_of_row width : ∀ row acc rest,
  row ≠ [] → (length acc + length row = width)%nat →
  rows_of width acc (row ++ rest) = (acc ++ row) :: rows_of width [] rest.
Proof.
  induction row as [|x row IH]; intros acc rest Hne Hlen; [done|].
  cbn [app rows_of length] in *. rewrite length_app. cbn [length].
  destruct (Nat.eqb_spec (length acc + 1) width) as [Heq|Hneq].
  - destruct row as [|y row]; [reflexivity|cbn [length] in Hlen; lia].
  - destruct row as [|y row]; [cbn [length] in Hlen; lia|].
    rewrite IH; [|done|rewrite length_app; cbn [length] in *; lia].
    by rewrite <- app_assoc.
Qed.

Lemma rows_of_concat width (rows : Tensor2) :
  (0 < width)%nat → Forall (λ row : Tensor1, length row = width) rows →
  rows_of width [] (concat rows) = rows.
Proof.
  intros Hpos. induction 1 as [|row rows Hrow _ IH]; [reflexivity|].
  cbn [concat]. rewrite rows_of_row; [by rewrite IH| |by cbn].
  destruct row; [cbn in Hrow; lia|done].
Qed.

Lemma length_concat_uniform {A} n (rows : list (list A)) :
  Forall (λ row, length row = n) rows → length (concat rows) = (length rows * n)%nat.
Proof.
  induction 1 as [|row rows Hrow _ IH]; [reflexivity|].
  cbn [concat length]. rewrite length_app, IH, Hrow. lia.
Qed.

(** A (B, S, V) tensor viewed as rows of width V: its B * S rows in
    order. *)
Lemma view_rows_concat V (t : Tensor3) :
  0 < V → Forall (Forall (λ row : Tensor1, Z.of_nat (length row) = V)) t →
  view_rows V t = Some (concat t).
Proof.
  intros Hpos Hshape. unfold view_rows.
  assert (Forall (λ row : Tensor1, length row = Z.to_nat V) (concat t)) as Hrows.
  { apply Forall_concat. eapply Forall_impl; [exact Hshape|].
    intros rows Hr. eapply Forall_impl; [exact Hr|]. cbn. lia. }
  rewrite (length_concat_uniform _ _ Hrows).
  destruct (Z.ltb_spec 0 V) as [_|]; [|lia]. cbn [andb].
  rewrite Nat2Z.inj_mul, Z2Nat.id by lia.
  rewrite Z.mod_mul by lia. cbn. f_equal. apply rows_of_concat; [lia|done].
Qed.

Lemma length_concat_Forall2 {A B} (xs : list (list A)) (ys : list (list B)) :
  Forall2 (λ x y, length x = length y) xs ys → length (concat xs) = length (concat ys).
Proof.
  induction 1 as [|x y xs ys Hxy _ IH]; [reflexivity|].
  cbn [concat]. rewrite !length_app. lia.
Qed.

(** No position is kept when every label is the ignored id. *)
Lemma kept_all_ignored pad : ∀ (input : Tensor2) target,
  Forall (λ t, t = pad) target → kept pad input target = [].
Proof.
  unfold kept. induction input as [|x input IH]; intros target Hall; [reflexivity|].
  destruct Hall as [|t target -> Hall]; [reflexivity|].
  cbn. rewrite Z.eqb_refl. cbn. by apply IH.
Qed.

End ShapeProofs.
Import ShapeProofs.

(** X15.  Line 213 pairs every position with its own label: for logits of
    shape (B, S, V) with [V > 0] and labels of shape (B, S), the view
    [proj_output.view(-1, V)] succeeds and lists the rows of the batch in
    order, sequence after sequence, and there are as many of them as there
    are labels in [label.view(-1)]. *)
Theorem loss_rows_align_with_labels V (proj_output : Tensor3) (label : list (list Z)) :
  0 < V →
  Forall (Forall (λ row : Tensor1, Z.of_nat (length row) = V)) proj_output →
  Forall2 (λ p l, length p = length l) proj_output label →
  view_rows V proj_output = Some (concat proj_output) ∧
  length (concat proj_output) = length (view_flat label).
Proof.
  intros Hpos Hshape Hlabel. split; [by apply view_rows_concat|].
  by apply length_concat_Forall2.
Qed.

Lemma loss_rows_align_with_labels_witness :
  view_rows 2 [[[1%Q; 0%Q]; [0%Q; 1%Q]]; [[1%Q; 1%Q]; [0%Q; 0%Q]]]
  = Some (concat [[[1%Q; 0%Q]; [0%Q; 1%Q]]; [[1%Q; 1%Q]; [0%Q; 0%Q]]]) ∧
  length (concat [[[1%Q; 0%Q]; [0%Q; 1%Q]]; [[1%Q; 1%Q]; [0%Q; 0%Q]]])
  = length (view_flat [[0; 1]; [1; 1]]).
Proof.
  apply (loss_rows_align_with_labels 2 [[[1%Q; 0%Q]; [0%Q; 1%Q]]; [[1%Q; 1%Q]; [0%Q; 0%Q]]]
           [[0; 1]; [1; 1]]).
  - lia.
  - repeat constructor.
  - repeat constructor.
Defined.

(** X16.  A batch whose labels are all the padding id of the source
    vocabulary does not stop the training: its loss is the not-a-number of
    a mean over no position, that value is logged, and the backward pass
    and the optimizer step are made all the same. *)
Theorem padding_only_batch_is_nan autograd Adam config model writer tokenizer_src
    tokenizer_tgt batch global_step w pad :
  token_to_id tokenizer_src "[PAD]" = Some pad →
  0 < get_vocab_size tokenizer_tgt →
  Forall (Forall (λ row : Tensor1, Z.of_nat (length row) = get_vocab_size tokenizer_tgt))
    (proj_output model batch (params w)) →
  Forall2 (λ p l, length p = length l) (proj_output model batch (params w)) (label batch) →
  Forall (Forall (λ t, t = pad)) (label batch) →
  Training.train_batch autograd Adam config model writer tokenizer_src tokenizer_tgt batch
    global_step w
  = Ok (global_step + 1)
      (stepped autograd Adam config model writer tokenizer_src batch LossNaN global_step w).
Proof.
  intros Hpad Hpos Hshape Hlabel Hall.
  pose proof (train_batch_cases autograd Adam config model writer tokenizer_src
                tokenizer_tgt batch global_step w) as Hc.
  assert (loss_of model tokenizer_src tokenizer_tgt batch (params w) = Some LossNaN) as Hloss.
  { unfold loss_of. rewrite (view_rows_concat _ _ Hpos Hshape).
    unfold Training.loss_fn, CrossEntropyLoss. rewrite Hpad.
    rewrite (length_concat_Forall2 _ _ Hlabel). unfold view_flat.
    rewrite Nat.eqb_refl. cbn [negb].
    rewrite kept_all_ignored by by apply Forall_concat. reflexivity. }
  by rewrite Hloss in Hc.
Qed.

Lemma padding_only_batch_is_nan_witness :
  Training.train_batch Fixtures.toy_autograd Fixtures.toy_Adam Fixtures.toy_config
    (Fixtures.scripted [4; 3] 4) Fixtures.toy_writer Fixtures.tok Fixtures.tok
    StepFixtures.padding_batch 0 Fixtures.w0
  = Ok (0 + 1)
      (stepped Fixtures.toy_autograd Fixtures.toy_Adam Fixtures.toy_config
         (Fixtures.scripted [4; 3] 4) Fixtures.toy_writer Fixtures.tok
         StepFixtures.padding_batch LossNaN 0 Fixtures.w0).
Proof.
  apply (padding_only_batch_is_nan Fixtures.toy_autograd Fixtures.toy_Adam
           Fixtures.toy_config (Fixtures.scripted [4; 3] 4) Fixtures.toy_writer Fixtures.tok
           Fixtures.tok StepFixtures.padding_batch 0 Fixtures.w0 1).
  - reflexivity.
  - reflexivity.
  - repeat constructor.
  - repeat constructor.
  - repeat constructor.
Defined.

(** ** How a run starts *)

Module StartFixtures.

(** The state in which the preparation of the run leaves the empty state:
    the two tokenizer files exist, nothing else does. *)
Definition w_prepared : World :=
  Eval vm_compute in
    match Training.prepare false Fixtures.toy_load_dataset Fixtures.toy_words
            Fixtures.toy_encode_ids Fixtures.toy_BilingualDataset Fixtures.toy_randperm
            Fixtures.toy_format_path Fixtures.toy_config Fixtures.w0 with
    | Ok _ w => w
    | _ => Fixtures.w0
    end.

(** One epoch asked for, and a resumption from the checkpoint of
    epoch 0. *)
Definition one_epoch_resume : Config :=
  {| batch_size := 2; num_epochs := 1; lr := (1 # 10000)%Q; seq_len := 4; d_model := 1;
     datasource := "opus"; lang_src := "en"; lang_tgt := "de";
     model_folder := "weights"; model_basename := "tmodel_"; preload := Some "00";
     tokenizer_file := "tokenizer_{0}.json"; experiment_name := "runs/tmodel" |}.

(** A checkpoint of another model: its state dict has a key that the tiny
    model has not. *)
Definition foreign : Checkpoint :=
  {| epoch := 0; model_state_dict := {[ "other" := [5%Q] ]}; optimizer_state_dict := ∅;
     global_step := 7 |}.

Definition w_foreign : World :=
  set_files (λ _, {[ "opus_weights/tmodel_00.pt" := CheckpointFile foreign ]}) Fixtures.w0.

End StartFixtures.

Section Starts.

Variable cuda_is_available : bool.
Variable load_dataset : string → string → list (gmap string string).
Variable word_level_words : list string → list string.
Variable encode_ids : Tokenizer → string → list Z.
Variable BilingualDataset :
  list (gmap string string) → Tokenizer → Tokenizer → string → string → Z
  → option (list Example).
Variable randperm : nat → nat → list nat.
Variable build_transformer : Z → Z → Z → Z → Z → Model.
Variable initial_state_dict : nat → Z → Z → Z → Z → Z → StateDict.
Variable autograd : Model → StateDict → Batch → option Z → StateDict.
Variable Adam : Q → StateDict → StateDict → StateDict → StateDict * StateDict.
Variable ext : string.
Variable format_path : string → string → exn + string.
Variable event_file : string → string.
Variable state_dict_matches : StateDict → StateDict → bool.
Variable partly_loaded : StateDict → StateDict → StateDict.
Variable optimizer_accepts : StateDict → StateDict → bool.
Variable fuel : nat.
Variable config : Config.

Local Abbreviation train :=
  (Training.train_model cuda_is_available load_dataset word_level_words encode_ids BilingualDataset
     randperm build_transformer initial_state_dict autograd Adam ext format_path event_file
     state_dict_matches partly_loaded optimizer_accepts fuel config).
Local Abbreviation load_data :=
  (Training.prepare cuda_is_available load_dataset word_level_words encode_ids
     BilingualDataset randperm format_path config).
Local Abbreviation writer := (writer_of event_file config).
Local Abbreviation started := (initialised initial_state_dict event_file config).
Local Abbreviation fresh := (fresh_params initial_state_dict config).
Local Abbreviation restored :=
  (Training.restore ext state_dict_matches partly_loaded optimizer_accepts config).
Local Abbreviation unfolded :=
  (train_model_unfold cuda_is_available load_dataset word_level_words encode_ids
     BilingualDataset randperm build_transformer initial_state_dict autograd Adam ext
     format_path event_file state_dict_matches partly_loaded optimizer_accepts fuel config).

Lemma preload_filename_none fs :
  preload config = None ∨ preload config = Some "" →
  Training.preload_filename ext config fs = None.
Proof. unfold Training.preload_filename. by intros [->| ->]. Qed.

Lemma range_empty a b : b ≤ a → Training.range a b = [].
Proof. intros H. unfold Training.range. apply seqZ_nil. lia. Qed.

(** A selected checkpoint is read by [torch.load], line 183. *)
Lemma restore_loads w model_filename :
  Training.preload_filename ext config (files w) = Some model_filename →
  model_filename ≠ "" →
  restored w =
    (Training.torch_load model_filename ≫= λ state,
     Training.load_state_dict state_dict_matches partly_loaded (model_state_dict state)
     ≫= λ _,
     Training.optimizer_load_state_dict optimizer_accepts (optimizer_state_dict state)
     ≫= λ _, mret (epoch state + 1, global_step state))
      (after w [Stdout ("Preloading model " ++ model_filename)%string]).
Proof.
  intros Hsel Hne. unfold Training.restore, mbind at 1, M_bind at 1, get at 1.
  rewrite Hsel. destruct (String.eqb_spec model_filename "") as [|_]; [done|].
  by rewrite (bind_ok _ _ _ _ _ (emit_after _ _)).
Qed.

Lemma torch_load_checkpoint w path c :
  files w !! path = Some (CheckpointFile c) →
  Training.torch_load path w = Ok c (after w [TorchLoad path]).
Proof.
  intros Hfile. unfold Training.torch_load.
  rewrite (bind_ok _ _ _ _ _ (emit_after _ _)).
  unfold mbind, M_bind, get. cbn [files after set_log]. by rewrite Hfile.
Qed.

(** X17.  Without a preload selector ([None] or the empty string) nothing
    is read back: [train_model] runs the epochs [range(0, num_epochs)] from
    global step 0, with the freshly initialised parameters and a new
    optimizer; when [num_epochs <= 0] it returns at once with global step 0
    and has written no checkpoint: the only file made since the data were
    prepared is the empty event file of the metric writer. *)
Theorem train_model_from_scratch w train_data_loader val_data_loader tokenizer_src
    tokenizer_tgt w1 :
  load_data w = Ok (train_data_loader, val_data_loader, tokenizer_src, tokenizer_tgt) w1 →
  preload config = None ∨ preload config = Some "" →
  ∃ w2,
    params w2 = initial_state_dict (rng w1) (get_vocab_size tokenizer_src)
                  (get_vocab_size tokenizer_tgt) (seq_len config) (seq_len config)
                  (d_model config) ∧
    optimizer w2 = ∅ ∧
    files w2 = <[writer := EventFile []]> (files w1) ∧
    train w =
      Training.epoch_loop randperm autograd Adam ext fuel config
        (Training.get_model build_transformer config (get_vocab_size tokenizer_src)
           (get_vocab_size tokenizer_tgt))
        writer train_data_loader val_data_loader tokenizer_src tokenizer_tgt
        (Training.range 0 (num_epochs config)) 0 w2 ∧
    (num_epochs config ≤ 0 → train w = Ok 0 w2).
Proof.
  intros Hds Hpre.
  exists (after (started tokenizer_src tokenizer_tgt w1)
            [Stdout "No model to preload, starting from scratch"]).
  assert (restored (started tokenizer_src tokenizer_tgt w1)
          = Ok (0, 0) (after (started tokenizer_src tokenizer_tgt w1)
                         [Stdout "No model to preload, starting from scratch"])) as Hres.
  { unfold Training.restore, mbind, M_bind, get.
    by rewrite (preload_filename_none _ Hpre). }
  rewrite (unfolded _ _ _ _ _ _ Hds), (bind_ok _ _ _ _ _ Hres).
  repeat split; try done.
  intros Hn. cbn [fst snd]. by rewrite range_empty.
Qed.


(** When the model refuses the state dict of the selected checkpoint,
    [train_model] raises the [RuntimeError] of [load_state_dict]. *)
Lemma train_model_refused w train_data_loader val_data_loader tokenizer_src tokenizer_tgt
    w1 model_filename c :
  load_data w = Ok (train_data_loader, val_data_loader, tokenizer_src, tokenizer_tgt) w1 →
  Training.preload_filename ext config (<[writer := EventFile []]> (files w1))
    = Some model_filename →
  model_filename ≠ "" →
  <[writer := EventFile []]> (files w1) !! model_filename = Some (CheckpointFile c) →
  state_dict_matches (fresh tokenizer_src tokenizer_tgt w1) (model_state_dict c) = false →
  ∃ w2, train w = Raise RuntimeError w2.
Proof.
  intros Hds Hsel Hne Hfile Hmodel.
  rewrite (unfolded _ _ _ _ _ _ Hds).
  eexists. apply bind_raise. rewrite (restore_loads (started tokenizer_src tokenizer_tgt w1) model_filename Hsel
               Hne).
  rewrite (bind_ok _ _ _ _ _
             (torch_load_checkpoint
                (after (started tokenizer_src tokenizer_tgt w1)
                   [Stdout ("Preloading model " ++ model_filename)%string])
                model_filename c Hfile)).
  apply bind_raise. unfold Training.load_state_dict, mbind, M_bind, get.
  change (params (after (after (started tokenizer_src tokenizer_tgt w1) _) _))
    with (fresh tokenizer_src tokenizer_tgt w1).
  rewrite Hmodel. reflexivity.
Qed.

(** X19.  Resuming from a checkpoint of the last epoch or a later one,
    whose state dicts the model and the optimizer accept: when
    [saved epoch + 1 >= num_epochs] no epoch is run, [train_model] returns
    the saved global step, and the parameters and the optimizer state are
    the restored ones; no checkpoint is written, the only file made since
    the data were prepared being the empty event file of the metric
    writer. *)
Theorem train_model_nothing_left w train_data_loader val_data_loader tokenizer_src
    tokenizer_tgt w1 model_filename c :
  load_data w = Ok (train_data_loader, val_data_loader, tokenizer_src, tokenizer_tgt) w1 →
  Training.preload_filename ext config (<[writer := EventFile []]> (files w1))
    = Some model_filename →
  model_filename ≠ "" →
  <[writer := EventFile []]> (files w1) !! model_filename = Some (CheckpointFile c) →
  state_dict_matches (fresh tokenizer_src tokenizer_tgt w1) (model_state_dict c) = true →
  optimizer_accepts (model_state_dict c) (optimizer_state_dict c) = true →
  num_epochs config ≤ epoch c + 1 →
  ∃ w2,
    train w = Ok (global_step c) w2 ∧
    params w2 = model_state_dict c ∧
    optimizer w2 = optimizer_state_dict c ∧
    files w2 = <[writer := EventFile []]> (files w1).
Proof.
  intros Hds Hsel Hne Hfile Hmodel Hopt Hlast.
  rewrite (unfolded _ _ _ _ _ _ Hds).
  destruct (restore_resumes ext state_dict_matches partly_loaded optimizer_accepts config
              (started tokenizer_src tokenizer_tgt w1) model_filename c
              Hsel Hne Hfile Hmodel Hopt) as (w2 & Hres & Hp & Ho & Hf & _).
  exists w2. rewrite (bind_ok _ _ _ _ _ Hres). cbn [fst snd].
  by rewrite range_empty.
Qed.

End Starts.

Lemma train_model_from_scratch_witness :
  ∃ w2,
    params w2 = Fixtures.toy_initial_state_dict (rng StartFixtures.w_prepared)
                  (get_vocab_size Fixtures.tok) (get_vocab_size Fixtures.tok)
                  (seq_len Fixtures.toy_config) (seq_len Fixtures.toy_config)
                  (d_model Fixtures.toy_config) ∧
    optimizer w2 = ∅ ∧
    files w2 = <[Fixtures.toy_writer := EventFile []]> (files StartFixtures.w_prepared) ∧
    Fixtures.toy_train Fixtures.w0
    = Training.epoch_loop Fixtures.toy_randperm Fixtures.toy_autograd Fixtures.toy_Adam "pt"
        10 Fixtures.toy_config
        (Training.get_model Fixtures.toy_build_transformer Fixtures.toy_config
           (get_vocab_size Fixtures.tok) (get_vocab_size Fixtures.tok))
        Fixtures.toy_writer Fixtures.toy_train_loader Fixtures.toy_val_loader Fixtures.tok
        Fixtures.tok (Training.range 0 (num_epochs Fixtures.toy_config)) 0 w2 ∧
    (num_epochs Fixtures.toy_config ≤ 0 → Fixtures.toy_train Fixtures.w0 = Ok 0 w2).
Proof.
  apply (train_model_from_scratch false Fixtures.toy_load_dataset Fixtures.toy_words
           Fixtures.toy_encode_ids Fixtures.toy_BilingualDataset Fixtures.toy_randperm
           Fixtures.toy_build_transformer Fixtures.toy_initial_state_dict
           Fixtures.toy_autograd Fixtures.toy_Adam "pt" Fixtures.toy_format_path
           Fixtures.toy_event_file Fixtures.toy_state_dict_matches
           Fixtures.toy_partly_loaded Fixtures.toy_optimizer_accepts 10 Fixtures.toy_config
           Fixtures.w0 Fixtures.toy_train_loader Fixtures.toy_val_loader Fixtures.tok
           Fixtures.tok StartFixtures.w_prepared).
  - vm_compute. reflexivity.
  - left. reflexivity.
Defined.


Lemma train_model_nothing_left_witness :
  ∃ w2,
    Training.train_model false Fixtures.toy_load_dataset Fixtures.toy_words
      Fixtures.toy_encode_ids Fixtures.toy_BilingualDataset Fixtures.toy_randperm
      Fixtures.toy_build_transformer Fixtures.toy_initial_state_dict Fixtures.toy_autograd
      Fixtures.toy_Adam "pt" Fixtures.toy_format_path Fixtures.toy_event_file
      Fixtures.toy_state_dict_matches Fixtures.toy_partly_loaded
      Fixtures.toy_optimizer_accepts 10 StartFixtures.one_epoch_resume Fixtures.w_stale
    = Ok (global_step Fixtures.stale) w2 ∧
    params w2 = model_state_dict Fixtures.stale ∧
    optimizer w2 = optimizer_state_dict Fixtures.stale ∧
    files w2 = <[Fixtures.toy_writer := EventFile []]> (files Fixtures.w_loaded).
Proof.
  apply (train_model_nothing_left false Fixtures.toy_load_dataset Fixtures.toy_words
           Fixtures.toy_encode_ids Fixtures.toy_BilingualDataset Fixtures.toy_randperm
           Fixtures.toy_build_transformer Fixtures.toy_initial_state_dict
           Fixtures.toy_autograd Fixtures.toy_Adam "pt" Fixtures.toy_format_path
           Fixtures.toy_event_file Fixtures.toy_state_dict_matches
           Fixtures.toy_partly_loaded Fixtures.toy_optimizer_accepts 10
           StartFixtures.one_epoch_resume Fixtures.w_stale Fixtures.toy_train_loader
           Fixtures.toy_val_loader Fixtures.tok Fixtures.tok Fixtures.w_loaded
           "opus_weights/tmodel_00.pt" Fixtures.stale).
  - vm_compute. reflexivity.
  - vm_compute. reflexivity.
  - discriminate.
  - vm_compute. reflexivity.
  - vm_compute. reflexivity.
  - vm_compute. reflexivity.
  - simpl. lia.
Defined.

(** A checkpoint of another model is refused: the run of the tiny model on
    it raises the [RuntimeError] of [load_state_dict]. *)
Example train_model_refuses_foreign_checkpoint :
  ∃ w2,
    Training.train_model false Fixtures.toy_load_dataset Fixtures.toy_words
      Fixtures.toy_encode_ids Fixtures.toy_BilingualDataset Fixtures.toy_randperm
      Fixtures.toy_build_transformer Fixtures.toy_initial_state_dict Fixtures.toy_autograd
      Fixtures.toy_Adam "pt" Fixtures.toy_format_path Fixtures.toy_event_file
      Fixtures.toy_state_dict_matches Fixtures.toy_partly_loaded
      Fixtures.toy_optimizer_accepts 10 StartFixtures.one_epoch_resume
      StartFixtures.w_foreign
    = Raise RuntimeError w2.
Proof. eexists. vm_compute. reflexivity. Qed.

(** ** One epoch *)

Module EpochProofs.

(** The state that a validation run leaves. *)
Lemma run_validation_world fuel model validation_ds tokenizer_src tokenizer_tgt max_len
    print_msg global_state num_examples w w' :
  (∀ msg, logs false (quiet false) (print_msg msg)) →
  run_validation fuel model validation_ds tokenizer_src tokenizer_tgt max_len print_msg
    global_state num_examples w = Ok () w' →
  ∃ evs, w' = set_grad_enabled (grad_enabled w)
                (after (set_grad_enabled false (set_training false w)) evs).
Proof.
  intros Hprint. unfold run_validation, mbind, M_bind, modify, no_grad.
  pose proof (logs_validation_loop false print_msg Hprint fuel model tokenizer_src
                tokenizer_tgt max_len num_examples validation_ds 0
                (set_grad_enabled false (set_training false w)) eq_refl) as Hloop.
  destruct (validation_loop _ _ _ _ _ _ _ _ _ _) as [[] w1|e w1|]; try discriminate.
  destruct Hloop as (evs & -> & _). intros [= <-]. by exists evs.
Qed.

(** One pass over a loader: the order is drawn from the random generator,
    which advances by one. *)
Lemma iterate_ok randperm dl w bs w' :
  Training.iterate randperm dl w = Ok bs w' →
  bs = batches dl (randperm (rng w) (length (dataset dl))) ∧ w' = set_rng (S (rng w)) w.
Proof. by intros [= <- <-]. Qed.

(** The groups of a pass: together they are the examples in the order of
    the pass, none is empty or larger than the batch size, and all but the
    last are full. *)
Lemma chunks_spec {A} n : (1 ≤ n)%nat → ∀ fuel (l : list A),
  (length l ≤ fuel)%nat →
  concat (chunks fuel n l) = l ∧
  Forall (λ c, (1 ≤ length c ≤ n)%nat) (chunks fuel n l) ∧
  ∀ i c, chunks fuel n l !! i = Some c → (S i < length (chunks fuel n l))%nat →
         length c = n.
Proof.
  intros Hn. induction fuel as [|fuel IH]; intros l Hl.
  - destruct l; [|simpl in Hl; lia]. repeat split; [constructor|]. by intros i c.
  - destruct l as [|x l]; [repeat split; [constructor|]; by intros i c|].
    cbn [chunks].
    destruct (IH (drop n (x :: l))) as (Hc & Hall & Hfull).
    { rewrite length_drop. cbn [length] in *. lia. }
    split; [|split].
    + cbn [concat]. rewrite Hc. apply take_drop.
    + constructor; [|done]. rewrite length_take. cbn [length]. lia.
    + intros [|i] c Hi Hlt.
      * injection Hi as <-. cbn [length] in Hlt. rewrite length_take.
        destruct (drop n (x :: l)) as [|y rest] eqn:Hd.
        { destruct fuel; cbn in Hlt; lia. }
        apply (f_equal length) in Hd. rewrite length_drop in Hd. cbn [length] in *. lia.
      * cbn in Hi. apply (Hfull i c Hi). cbn [length] in Hlt. lia.
Qed.

End EpochProofs.
Import EpochProofs.

(** X20.  An epoch that completes has advanced the global step by the
    number of batches of its pass over the training loader, has drawn two
    orders from the random generator (one for the training pass, one for
    the validation pass), and leaves the model in evaluation mode, where
    the validation run has put it, with the gradient switch as it was. *)
Theorem run_epoch_advances randperm autograd Adam ext fuel config model writer
    train_data_loader val_data_loader tokenizer_src tokenizer_tgt epoch global_step w gs' w' :
  Training.run_epoch randperm autograd Adam ext fuel config model writer train_data_loader
    val_data_loader tokenizer_src tokenizer_tgt epoch global_step w = Ok gs' w' →
  gs' = global_step
        + Z.of_nat (length (batches train_data_loader
                              (randperm (rng w) (length (dataset train_data_loader))))) ∧
  rng w' = S (S (rng w)) ∧
  training w' = false ∧
  grad_enabled w' = grad_enabled w.
Proof.
  unfold Training.run_epoch. intros H.
  apply bind_inv_ok in H as ([] & w1 & H1 & H).
  apply bind_inv_ok in H as (bs & w2 & H2 & H).
  apply bind_inv_ok in H as (gs1 & w3 & H3 & H).
  apply bind_inv_ok in H as (vbs & w4 & H4 & H).
  apply bind_inv_ok in H as ([] & w5 & H5 & H).
  apply bind_inv_ok in H as (w6 & w6' & H6 & H).
  apply bind_inv_ok in H as ([] & w7 & H7 & H).
  injection H as <- <-. injection H6 as <- <-. injection H1 as <-.
  apply iterate_ok in H2 as [-> ->].
  apply train_batches_ok in H3 as (-> & _ & Hr3 & _ & Hg3 & _).
  apply iterate_ok in H4 as [-> ->].
  apply run_validation_world in H5 as [evs ->]; [|intros msg; by apply logs_emit].
  unfold Training.torch_save, mbind, M_bind, modify, emit in H7. injection H7 as <-.
  cbn in *. rewrite Hr3, Hg3. done.
Qed.

Lemma run_epoch_advances_witness :
  1 = 0 + Z.of_nat (length (batches Fixtures.toy_train_loader
                              (Fixtures.toy_randperm (rng Fixtures.w0)
                                 (length (dataset Fixtures.toy_train_loader))))) ∧
  rng Fixtures.w_epoch0 = S (S (rng Fixtures.w0)) ∧
  training Fixtures.w_epoch0 = false ∧
  grad_enabled Fixtures.w_epoch0 = grad_enabled Fixtures.w0.
Proof.
  apply (run_epoch_advances Fixtures.toy_randperm Fixtures.toy_autograd Fixtures.toy_Adam
           "pt" 10 Fixtures.toy_config (Fixtures.scripted [4; 3] 4) Fixtures.toy_writer
           Fixtures.toy_train_loader Fixtures.toy_val_loader Fixtures.tok Fixtures.tok 0 0
           Fixtures.w0 1 Fixtures.w_epoch0).
  vm_compute. reflexivity.
Defined.

(** X21.  The batches of a pass over a loader of batch size at least 1:
    taken together, in order, they hold the examples of the pass, each
    exactly once (the inputs as well as the labels); no batch is empty or
    larger than the batch size, and every batch but the last is full. *)
Theorem batches_cover_the_pass (dl : DataLoader) (order : list nat) :
  (1 ≤ loader_batch_size dl)%nat →
  concat (map encoder_input (batches dl order))
  = map ex_encoder_input (omap (λ i, dataset dl !! i) order) ∧
  concat (map label (batches dl order))
  = map ex_label (omap (λ i, dataset dl !! i) order) ∧
  Forall (λ b, (1 ≤ length (encoder_input b) ≤ loader_batch_size dl)%nat)
    (batches dl order) ∧
  ∀ i b, batches dl order !! i = Some b → (S i < length (batches dl order))%nat →
         length (encoder_input b) = loader_batch_size dl.
Proof.
  intros Hn. unfold batches.
  destruct (chunks_spec (loader_batch_size dl) Hn
              (length (omap (λ i, dataset dl !! i) order))
              (omap (λ i, dataset dl !! i) order) (le_n _)) as (Hc & Hall & Hfull).
  set (cs := chunks _ _ _) in *.
  split; [|split; [|split]].
  - transitivity (map ex_encoder_input (concat cs)); [|by rewrite Hc].
    rewrite List.concat_map, !List.map_map. reflexivity.
  - transitivity (map ex_label (concat cs)); [|by rewrite Hc].
    rewrite List.concat_map, !List.map_map. reflexivity.
  - rewrite Forall_map. eapply Forall_impl; [exact Hall|].
    intros c Hlen. cbn. by rewrite length_map.
  - intros i b Hi Hlt. rewrite length_map in Hlt.
    rewrite list_lookup_fmap in Hi.
    destruct (cs !! i) as [c|] eqn:Hci; [|discriminate].
    injection Hi as <-. cbn. rewrite length_map. by apply (Hfull i).
Qed.

Lemma batches_cover_the_pass_witness :
  concat (map encoder_input (batches Fixtures.toy_train_loader [0; 1; 0]%nat))
  = map ex_encoder_input (omap (λ i, dataset Fixtures.toy_train_loader !! i) [0; 1; 0]%nat) ∧
  concat (map label (batches Fixtures.toy_train_loader [0; 1; 0]%nat))
  = map ex_label (omap (λ i, dataset Fixtures.toy_train_loader !! i) [0; 1; 0]%nat) ∧
  Forall (λ b, (1 ≤ length (encoder_input b)
                ≤ loader_batch_size Fixtures.toy_train_loader)%nat)
    (batches Fixtures.toy_train_loader [0; 1; 0]%nat) ∧
  ∀ i b, batches Fixtures.toy_train_loader [0; 1; 0]%nat !! i = Some b →
         (S i < length (batches Fixtures.toy_train_loader [0; 1; 0]%nat))%nat →
         length (encoder_input b) = loader_batch_size Fixtures.toy_train_loader.
Proof.
  apply (batches_cover_the_pass Fixtures.toy_train_loader [0; 1; 0]%nat).
  simpl. lia.
Defined.

(** ** The inputs of the decoder calls *)

Module GrowthProofs.

(** The decoder input and the mask of every decoder call of a stretch of
    the log, in order. *)
Definition decoder_inputs (evs : list Event)
  : list (list (list Z) * list (list (list bool))) :=
  omap (λ e, match e with
             | DecodeCall _ _ _ target target_mask => Some (target, target_mask)
             | _ => None
             end) evs.

Lemma decoder_inputs_app evs1 evs2 :
  decoder_inputs (evs1 ++ evs2) = decoder_inputs evs1 ++ decoder_inputs evs2.
Proof. unfold decoder_inputs. apply omap_app. Qed.

(** The call made when the first [k] tokens of [out] have been produced. *)
Definition prefix_call (out : list Z) (k : nat)
  : list (list Z) * list (list (list bool)) :=
  ([take k out], [causal_mask k]).

Section Loop.

Variable model : Model.
Variable encoder_output : Tensor3.
Variable source_mask : list (list bool).
Variable eos_idx : option Z.
Variable max_len : Z.
Variable θ : StateDict.
Variable g : bool.

Local Abbreviation run := (loop_run model encoder_output source_mask eos_idx max_len θ g).
Local Abbreviation events := (iteration_events encoder_output source_mask g).

Lemma decoder_inputs_iteration d x :
  decoder_inputs (events d x) = [prefix_call d (length d)].
Proof. unfold prefix_call. rewrite firstn_all. by destruct x. Qed.

(** In a run that returns, the calls of the decoder are given the prefixes
    of the returned sequence, from the input of the loop on, each one
    token longer than the one before. *)
Lemma loop_run_inputs d o evs :
  run d o evs → ∀ out how, o = Returned out how →
  decoder_inputs evs = map (prefix_call out) (seq (length d) (length out - length d)).
Proof.
  induction 1 as [d Hd|d x next Hd _ _|d x next o evs Hd _ _ Hrun IH|d e x Hd _];
    intros out how Ho; try discriminate.
  - injection Ho as <- <-. by rewrite Nat.sub_diag.
  - injection Ho as <- <-. rewrite decoder_inputs_iteration, length_app.
    replace (length d + length [next] - length d)%nat with 1%nat by (simpl; lia).
    cbn [seq map]. unfold prefix_call. by rewrite take_app_length, firstn_all.
  - subst o. rewrite decoder_inputs_app, decoder_inputs_iteration, (IH out how eq_refl).
    destruct (loop_run_returned _ _ _ _ _ _ _ _ _ _ _ Hrun) as (appended & -> & _).
    rewrite !length_app. cbn [length].
    replace (length d + 1 + length appended - length d)%nat
      with (S (length appended)) by lia.
    replace (length d + 1 + length appended - (length d + 1))%nat
      with (length appended) by lia.
    cbn [seq map app]. f_equal; [|by rewrite Nat.add_1_r].
    unfold prefix_call. by rewrite <- app_assoc, take_app_length, firstn_all.
Qed.

End Loop.

End GrowthProofs.
Import GrowthProofs.

Module DecoderFixtures.

(** The state after decoding with a model that never emits the end marker,
    for [max_len = 4]. *)
Definition w_decoded : World :=
  Eval vm_compute in
    match greedy_run 10 (Fixtures.scripted [4; 5] 4) [[2; 4; 3]] [[true; true; true]]
            Fixtures.tok Fixtures.tok 4 Fixtures.w0 with
    | Ok _ w => w
    | _ => Fixtures.w0
    end.

End DecoderFixtures.

(** X22.  With [max_len <= 0] the length test of line 30 can never end the
    loop: a sequence that [greedy_decode] returns was ended by the end
    marker, which is its last token, and it has at least two tokens, more
    than [max_len] in any case. *)
Theorem greedy_decode_nonpositive_max_len model source source_mask tokenizer_src
    tokenizer_tgt max_len fuel w out how w' :
  max_len ≤ 0 →
  greedy_run fuel model source source_mask tokenizer_src tokenizer_tgt max_len w
    = Ok (out, how) w' →
  how = EosBreak ∧
  (2 ≤ length out)%nat ∧
  ∃ eos, token_to_id tokenizer_tgt "[EOS]" = Some eos ∧ last out = Some eos.
Proof.
  intros Hmax Hrun.
  destruct (greedy_run_shape _ _ _ _ _ _ _ _ _ _ _ Hrun)
    as (sos & appended & evs & _ & -> & _ & _ & _ & _ & Hexit).
  destruct how.
  - destruct Hexit as [Hlen _]. cbn [app length] in Hlen. lia.
  - destruct Hexit as (pre & t & -> & _ & Ht). split; [done|].
    split; [cbn [length]; rewrite length_app; cbn [length]; lia|].
    unfold is_eos in Ht. destruct (token_to_id tokenizer_tgt "[EOS]") as [eos|]; [|done].
    apply Z.eqb_eq in Ht as ->. exists eos. split; [done|].
    by rewrite app_comm_cons, last_snoc.
Qed.

Lemma greedy_decode_nonpositive_max_len_witness :
  EosBreak = EosBreak ∧
  (2 ≤ length [2%Z; 3%Z])%nat ∧
  ∃ eos, token_to_id Fixtures.tok "[EOS]" = Some eos ∧ last [2; 3] = Some eos.
Proof.
  eapply (greedy_decode_nonpositive_max_len (Fixtures.constant 3) [[2; 4; 3]]
            [[true; true; true]] Fixtures.tok Fixtures.tok 0 1 Fixtures.w0).
  - lia.
  - vm_compute. reflexivity.
Defined.

(** X23.  The decoder is called on growing prefixes of what it returns:
    after the single encoder call, the k-th call of [model.decode] is given
    the first k tokens of the returned sequence together with the causal
    mask of size k, for k = 1, ..., length - 1, and there is no other
    decoder call. *)
Theorem greedy_decode_inputs_grow model source source_mask tokenizer_src tokenizer_tgt
    max_len fuel w out how w' :
  greedy_run fuel model source source_mask tokenizer_src tokenizer_tgt max_len w
    = Ok (out, how) w' →
  ∃ evs,
    w' = after w (EncodeCall (grad_enabled w) source source_mask :: evs) ∧
    decoder_inputs evs
    = map (λ k, ([take k out], [causal_mask k])) (seq 1 (length out - 1)).
Proof.
  intros Hrun.
  destruct (greedy_run_sound model source source_mask tokenizer_src tokenizer_tgt max_len
              fuel w) as [Ht|[[_ Hr]|(sos & o & evs & Hsos & Hloop & Hr)]];
    cbv zeta in *; try congruence.
  rewrite Hrun in Hr. destruct o as [out' how'|e]; [|discriminate].
  injection Hr as -> -> ->. exists evs. split; [done|].
  by rewrite (loop_run_inputs _ _ _ _ _ _ _ _ _ _ Hloop out' how' eq_refl).
Qed.

Lemma greedy_decode_inputs_grow_witness :
  ∃ evs,
    DecoderFixtures.w_decoded
    = after Fixtures.w0
        (EncodeCall (grad_enabled Fixtures.w0) [[2; 4; 3]] [[true; true; true]] :: evs) ∧
    decoder_inputs evs
    = map (λ k, ([take k [2; 4; 5; 4]], [causal_mask k])) (seq 1 3).
Proof.
  apply (greedy_decode_inputs_grow (Fixtures.scripted [4; 5] 4) [[2; 4; 3]]
           [[true; true; true]] Fixtures.tok Fixtures.tok 4 10 Fixtures.w0 [2; 4; 5; 4]
           LengthBreak DecoderFixtures.w_decoded).
  vm_compute. reflexivity.
Defined.
